(** * Basal-body-temperature tracker: the analysis core of [BBTTracker]

    A shallow embedding of the component's logic (record store, CSV import
    and export, fertile-window detection, next-window prediction) and of
    what the page shows of it (chart data, date labels, the table of recent
    entries), with the properties its specification states about it and
    further properties of the code.

    Conventions of the embedding.
    - JavaScript strings are [string]s of bytes; the source is read as the
      bytes it is stored in.
    - JavaScript numbers that hold temperatures are IEEE-754 binary64 values,
      [spec_float] with 53 bits of precision; the small integers and halves
      of the prediction arithmetic are exact there and are written in [Z]
      and [Q].
    - A [Date] object is its time value: milliseconds since the epoch, or
      nothing for an invalid date.
    - [undefined] and [null] are [None]; an exception is [Throw]. *)

From Stdlib Require Import ZArith QArith Qround List Bool Ascii String Lia
  Permutation Sorted.
From Stdlib Require Import Floats.SpecFloat.
Import ListNotations.

Local Open Scope string_scope.
Local Open Scope Z_scope.

(** ** Exceptions *)

Inductive JsError := TypeError | RangeError.

Inductive Result (A : Type) :=
| Ok (a : A)
| Throw (e : JsError).
Arguments Ok {A} a.
Arguments Throw {A} e.

Definition bind {A B} (r : Result A) (k : A -> Result B) : Result B :=
  match r with
  | Ok a => k a
  | Throw e => Throw e
  end.

Notation "x <- r ;; k" := (bind r (fun x => k))
  (at level 61, r at next level, right associativity).

(** ** Strings *)

Module Str.

(** White space of [trim] and of [parseFloat], in the byte range. *)
Definition isWhiteSpace (c : ascii) : bool :=
  match c with
  | " "%char | "009"%char | "010"%char | "011"%char | "012"%char | "013"%char => true
  | _ => false
  end.

Fixpoint trimStart (s : string) : string :=
  match s with
  | String c s' => if isWhiteSpace c then trimStart s' else s
  | EmptyString => EmptyString
  end.

Fixpoint trimEnd (s : string) : string :=
  match s with
  | EmptyString => EmptyString
  | String c s' =>
      match trimEnd s' with
      | EmptyString => if isWhiteSpace c then EmptyString else String c EmptyString
      | t => String c t
      end
  end.

Definition trim (s : string) : string := trimEnd (trimStart s).

Definition lowerChar (c : ascii) : ascii :=
  let n := nat_of_ascii c in
  if ((65 <=? n) && (n <=? 90))%nat then ascii_of_nat (n + 32) else c.

Fixpoint toLowerCase (s : string) : string :=
  match s with
  | EmptyString => EmptyString
  | String c s' => String (lowerChar c) (toLowerCase s')
  end.

(** [s.includes(needle)] *)
Fixpoint includes (needle s : string) : bool :=
  prefix needle s ||
  match s with
  | EmptyString => false
  | String _ s' => includes needle s'
  end.

(** [s.split(sep)] for a one-character separator; never empty. *)
Fixpoint split (sep : ascii) (s : string) : list string :=
  match s with
  | EmptyString => [EmptyString]
  | String c s' =>
      match split sep s' with
      | [] => [s]
      | w :: ws => if Ascii.eqb c sep then EmptyString :: w :: ws else String c w :: ws
      end
  end.


Fixpoint repeatChar (c : ascii) (n : nat) : string :=
  match n with
  | O => EmptyString
  | S n' => String c (repeatChar c n')
  end.

(** [s.padStart(n, c)] *)
Definition padStart (n : nat) (c : ascii) (s : string) : string :=
  repeatChar c (n - length s) ++ s.

(** [s.substring(0, n)] *)
Definition substring0 (n : nat) (s : string) : string := substring 0 n s.

(** [l.findIndex(p)], with [None] for -1. *)
Fixpoint findIndex {A} (p : A -> bool) (l : list A) : option nat :=
  match l with
  | [] => None
  | x :: l' => if p x then Some O else option_map S (findIndex p l')
  end.

End Str.

(** ** Numbers *)

Module Num.

(** A JavaScript number: an IEEE-754 binary64 value. *)
Definition number := spec_float.

Definition prec : Z := 53.
Definition emax : Z := 1024.

Definition NaN : number := S754_nan.
Definition isNaN (x : number) : bool :=
  match x with
  | S754_nan => true
  | _ => false
  end.

Definition add : number -> number -> number := SFadd prec emax.
Definition div : number -> number -> number := SFdiv prec emax.
Definition lt : number -> number -> bool := SFltb.
Definition gt (x y : number) : bool := lt y x.
Definition eq : number -> number -> bool := SFeqb.

(** The number denoted by the decimal [m * 10^e], rounded to nearest, ties
    to even. *)
Definition ofDecimal (neg : bool) (m : N) (e : Z) : number :=
  match m with
  | N0 => S754_zero neg
  | Npos p =>
      match e with
      | Zneg k => SFdiv prec emax (S754_finite neg p 0) (S754_finite false (Pos.pow 10 k) 0)
      | _ => binary_round prec emax neg (p * Z.to_pos (10 ^ e))%positive 0
      end
  end.

(** An integer literal of the source. *)
Definition ofZ (z : Z) : number := ofDecimal (z <? 0) (Z.abs_N z) 0.

Definition isDigit (c : ascii) : bool :=
  let n := nat_of_ascii c in ((48 <=? n) && (n <=? 57))%nat.

Definition digitVal (c : ascii) : N := N.of_nat (nat_of_ascii c - 48).

(** Reads the longest run of decimal digits at the head of [s]: the value
    accumulated onto [acc], the number of digits read, and the rest. *)
Fixpoint readDigits (s : string) (acc : N) (count : nat) : N * nat * string :=
  match s with
  | String c s' =>
      if isDigit c then readDigits s' (acc * 10 + digitVal c)%N (S count)
      else (acc, count, s)
  | EmptyString => (acc, count, s)
  end.

(** The exponent part at the head of [s], when there is one: [e] or [E], an
    optional sign, and at least one digit. *)
Definition readExponent (s : string) : Z :=
  match s with
  | String c s' =>
      if Ascii.eqb c "e" || Ascii.eqb c "E" then
        let '(neg, s'') :=
          match s' with
          | String "-" t => (true, t)
          | String "+" t => (false, t)
          | _ => (false, s')
          end in
        let '(v, n, _) := readDigits s'' 0%N O in
        match n with
        | O => 0
        | _ => if neg then - Z.of_N v else Z.of_N v
        end
      else 0
  | EmptyString => 0
  end.

(** [parseFloat(s)]: leading white space is skipped, then the longest prefix
    that is a decimal literal is read; [NaN] when there is none. *)
Definition parseFloat (s : string) : number :=
  let s := Str.trimStart s in
  let '(neg, s) :=
    match s with
    | String "-" t => (true, t)
    | String "+" t => (false, t)
    | _ => (false, s)
    end in
  if prefix "Infinity" s then S754_infinity neg
  else
    let '(ip, ni, s1) := readDigits s 0%N O in
    let '(m, nf, s2) :=
      match s1 with
      | String "." t => readDigits t ip O
      | _ => (ip, O, s1)
      end in
    match (ni + nf)%nat with
    | O => NaN
    | _ => ofDecimal neg m (readExponent s2 - Z.of_nat nf)
    end.

(** The decimal digits of a natural number, most significant first. *)
Fixpoint digitsAcc (fuel : nat) (z : Z) (acc : string) : string :=
  match fuel with
  | O => acc
  | S f =>
      let acc' := String (ascii_of_nat (48 + Z.to_nat (z mod 10))) acc in
      if z <? 10 then acc' else digitsAcc f (z / 10) acc'
  end.

Definition decimalDigits (z : Z) : string := digitsAcc 400 z "".

Definition eqb (x y : number) : bool :=
  match x, y with
  | S754_zero a, S754_zero b => Bool.eqb a b
  | S754_infinity a, S754_infinity b => Bool.eqb a b
  | S754_nan, S754_nan => true
  | S754_finite a m e, S754_finite b m' e' => Bool.eqb a b && Pos.eqb m m' && Z.eqb e e'
  | _, _ => false
  end.

Section NumberToString.

(** The positive finite number [m * 2^e] being printed, as a fraction. *)
Variables (m : positive) (e : Z).

Definition numer : Z := match e with Zneg _ => Zpos m | _ => Zpos m * 2 ^ e end.
Definition denom : Z := match e with Zneg k => 2 ^ Zpos k | _ => 1 end.

Fixpoint countDigits (fuel : nat) (q : Z) : Z :=
  match fuel with
  | O => 0
  | S f => if q <? 10 then 1 else 1 + countDigits f (q / 10)
  end.

Fixpoint leadingShift (fuel : nat) (num : Z) : Z :=
  match fuel with
  | O => 0
  | S f => if denom <=? num then 0 else 1 + leadingShift f (num * 10)
  end.

(** The [n] with [10^(n-1) <= x < 10^n]. *)
Definition magnitude : Z :=
  if denom <=? numer then countDigits 400 (numer / denom)
  else 1 - leadingShift 400 numer.

Definition readsBack (c p : Z) : bool :=
  eqb (ofDecimal false (Z.to_N c) p) (S754_finite false m e).

(** The [k]-digit decimals next to the number, the closer one first (the
    even one on a tie), kept when they read back as the number. *)
Definition candidate (k : Z) : option (Z * Z) :=
  let p := magnitude - k in
  let tnum := if p <? 0 then numer * 10 ^ (- p) else numer in
  let tden := if p <? 0 then denom else denom * 10 ^ p in
  let lo := tnum / tden in
  let r := tnum mod tden in
  let hi := if r =? 0 then lo else lo + 1 in
  let loFirst :=
    match 2 * r ?= tden with
    | Lt => true
    | Gt => false
    | Eq => Z.even lo
    end in
  let '(c1, c2) := if loFirst then (lo, hi) else (hi, lo) in
  if readsBack c1 p then Some (c1, p)
  else if readsBack c2 p then Some (c2, p)
  else None.

Fixpoint shortestFrom (fuel : nat) (k : Z) : Z * Z :=
  match fuel with
  | O => (0, 0)
  | S f =>
      match candidate k with
      | Some cp => cp
      | None => shortestFrom f (k + 1)
      end
  end.

Fixpoint stripZeros (fuel : nat) (c p : Z) : Z * Z :=
  match fuel with
  | O => (c, p)
  | S f => if (c mod 10 =? 0) && (0 <? c) then stripZeros f (c / 10) (p + 1) else (c, p)
  end.

(** The digits [s] and the exponent [n] of Number::toString: as few
    digits as read back as the number. *)
Definition shortest : string * Z :=
  let '(c, p) := shortestFrom 17 1 in
  let '(c, p) := stripZeros 400 c p in
  let ds := decimalDigits c in
  (ds, p + Z.of_nat (String.length ds)).

End NumberToString.

Definition formatDecimal (ds : string) (n : Z) : string :=
  let k := Z.of_nat (String.length ds) in
  if (k <=? n) && (n <=? 21) then ds ++ Str.repeatChar "0" (Z.to_nat (n - k))
  else if (0 <? n) && (n <=? 21) then
    substring 0 (Z.to_nat n) ds ++ "." ++ substring (Z.to_nat n) (Z.to_nat (k - n)) ds
  else if (-6 <? n) && (n <=? 0) then "0." ++ Str.repeatChar "0" (Z.to_nat (- n)) ++ ds
  else
    let ex := n - 1 in
    let tail := "e" ++ (if ex <? 0 then "-" else "+") ++ decimalDigits (Z.abs ex) in
    if k =? 1 then ds ++ tail
    else substring 0 1 ds ++ "." ++ substring 1 (Z.to_nat (k - 1)) ds ++ tail.

(** [String(x)], as [Array.prototype.join] applies it to a number. *)
Definition toString (x : number) : string :=
  match x with
  | S754_nan => "NaN"
  | S754_zero _ => "0"
  | S754_infinity s => (if s then "-" else "") ++ "Infinity"
  | S754_finite s m e =>
      let '(ds, n) := shortest m e in
      (if s then "-" else "") ++ formatDecimal ds n
  end.

End Num.

(** ** Dates *)

Module JsDate.

Definition msPerDay : Z := 86400000.

Definition isLeapYear (y : Z) : bool :=
  (y mod 4 =? 0) && (negb (y mod 100 =? 0) || (y mod 400 =? 0)).

(** Months are 1-based here and in the two conversions below. *)
Definition daysInMonth (y m : Z) : Z :=
  if m =? 2 then (if isLeapYear y then 29 else 28)
  else if (m =? 4) || (m =? 6) || (m =? 9) || (m =? 11) then 30
  else 31.

(** Day number (days since 1970-01-01) of a civil date of the proleptic
    Gregorian calendar, and back. Both work within a 400-year era of 146097
    days that starts on 1 March: [doeOfCivil] numbers the days of the era. *)
Definition doeOfCivil (yoe m d : Z) : Z :=
  let mp := (m + 9) mod 12 in
  let doy := (153 * mp + 2) / 5 + d - 1 in
  yoe * 365 + yoe / 4 - yoe / 100 + doy.

Definition civilOfDoe (doe : Z) : Z * Z * Z :=
  let yoe := (doe - doe / 1460 + doe / 36524 - doe / 146096) / 365 in
  let doy := doe - (365 * yoe + yoe / 4 - yoe / 100) in
  let mp := (5 * doy + 2) / 153 in
  let d := doy - (153 * mp + 2) / 5 + 1 in
  let m := if mp <? 10 then mp + 3 else mp - 9 in
  (yoe, m, d).

Definition daysFromCivil (y m d : Z) : Z :=
  let y' := if m <=? 2 then y - 1 else y in
  let era := y' / 400 in
  era * 146097 + doeOfCivil (y' - era * 400) m d - 719468.

Definition civilFromDays (z : Z) : Z * Z * Z :=
  let z' := z + 719468 in
  let era := z' / 146097 in
  let '(yoe, m, d) := civilOfDoe (z' - era * 146097) in
  let y := yoe + era * 400 in
  (if m <=? 2 then y + 1 else y, m, d).

(** The time value of a [Date]: [None] is the invalid date. *)
Definition Date := option Z.

Definition Day (t : Z) : Z := t / msPerDay.
Definition TimeWithinDay (t : Z) : Z := t mod msPerDay.
Definition YearFromTime (t : Z) : Z := fst (fst (civilFromDays (Day t))).
(** 0-based, as in the language. *)
Definition MonthFromTime (t : Z) : Z := snd (fst (civilFromDays (Day t))) - 1.
Definition DateFromTime (t : Z) : Z := snd (civilFromDays (Day t)).

Definition MakeDay (year month date : Z) : Z :=
  daysFromCivil (year + month / 12) (month mod 12 + 1) 1 + date - 1.
Definition MakeDate (day time : Z) : Z := day * msPerDay + time.
Definition TimeClip (t : Z) : Date :=
  if 8640000000000000 <? Z.abs t then None else Some t.

Definition digit (c : ascii) : option Z :=
  if Num.isDigit c then Some (Z.of_N (Num.digitVal c)) else None.

Definition digits2 (a b : ascii) : option Z :=
  match digit a, digit b with
  | Some x, Some y => Some (10 * x + y)
  | _, _ => None
  end.

(** [Date.parse] on the date-only form [YYYY-MM-DD] of the date-time string
    format, which denotes midnight UTC of that day.  The other shapes of the
    format (year only, year and month, date with a time, expanded years) and
    the engine-specific fallback for strings outside the format are not
    modelled: every other string is taken as unrecognised. A day that the
    month does not have is rejected. *)
Definition parse (s : string) : Date :=
  match s with
  | String y1 (String y2 (String y3 (String y4 (String s1 (String m1 (String m2
      (String s2 (String d1 (String d2 EmptyString))))))))) =>
      match digits2 y1 y2, digits2 y3 y4, digits2 m1 m2, digits2 d1 d2 with
      | Some yh, Some yl, Some m, Some d =>
          let y := 100 * yh + yl in
          if Ascii.eqb s1 "-" && Ascii.eqb s2 "-"
             && (1 <=? m) && (m <=? 12) && (1 <=? d) && (d <=? daysInMonth y m)
          then TimeClip (MakeDate (daysFromCivil y m d) 0)
          else None
      | _, _, _, _ => None
      end
  | _ => None
  end.

(** [new Date(v)] for a string or [undefined]. *)
Definition ofString (v : option string) : Date :=
  match v with
  | Some s => parse s
  | None => None
  end.

Definition pad (width : nat) (z : Z) : string :=
  Str.padStart width "0" (Num.decimalDigits z).

(** [d.toISOString().split('T')[0]]: the UTC date; [RangeError] on the
    invalid date. *)
Definition toISODate (d : Date) : Result string :=
  match d with
  | None => Throw RangeError
  | Some t =>
      let '(y, m, dd) := civilFromDays (Day t) in
      let year :=
        if (0 <=? y) && (y <=? 9999) then pad 4 y
        else (if y <? 0 then "-" else "+") ++ pad 6 (Z.abs y) in
      Ok (year ++ "-" ++ pad 2 m ++ "-" ++ pad 2 dd)
  end.

(** [ToIntegerOrInfinity] on a finite number: truncation toward zero. *)
Definition ToIntegerOrInfinity (q : Q) : Z := Z.quot (Qnum q) (Zpos (Qden q)).

Section HostTimeZone.

(** Offset of local time from UTC in milliseconds, taken as constant
    (no daylight-saving transitions). *)
Variable LocalTZA : Z.

Definition LocalTime (t : Z) : Z := t + LocalTZA.
Definition UTC (t : Z) : Z := t - LocalTZA.

(** [d.getDate()]: the day of the month in local time. *)
Definition getDate (d : Date) : option Z :=
  option_map (fun t => DateFromTime (LocalTime t)) d.

(** [d.setDate(v)]: the date [d] becomes. *)
Definition setDate (d : Date) (v : option Q) : Date :=
  match d, v with
  | Some t, Some q =>
      let lt := LocalTime t in
      let newDate :=
        MakeDate (MakeDay (YearFromTime lt) (MonthFromTime lt) (ToIntegerOrInfinity q))
                 (TimeWithinDay lt) in
      TimeClip (UTC newDate)
  | _, _ => None
  end.

End HostTimeZone.

End JsDate.

(** ** Arrays *)

Module Arr.

(** [l.slice(i, j)] for indices within range. *)
Definition slice {A} (i j : nat) (l : list A) : list A := firstn (j - i) (skipn i l).

(** [l.slice(-2)] *)
Definition lastTwo {A} (l : list A) : list A := skipn (List.length l - 2) l.

(** [l.slice(-n)] *)
Definition sliceLast {A} (n : nat) (l : list A) : list A := skipn (List.length l - n) l.

(** [l.reduce(f)] without an initial value: [TypeError] on the empty array. *)
Definition reduce1 {A} (f : A -> A -> A) (l : list A) : Result A :=
  match l with
  | [] => Throw TypeError
  | x :: l' => Ok (fold_left f l' x)
  end.

(** [updated[i] = x] for an index within range. *)
Fixpoint setAt {A} (i : nat) (x : A) (l : list A) : list A :=
  match l, i with
  | [], _ => []
  | _ :: l', O => x :: l'
  | y :: l', S i' => y :: setAt i' x l'
  end.

(** [l.sort(cmp)]. The sort is stable; [cmp a b] negative puts [a] first and
    a [NaN] ([None]) counts as zero. Every stable sort gives this result when
    the comparator is consistent; when it is not, the order is whatever the
    engine does and this one is insertion from the right. *)
Definition negative (v : option Z) : bool :=
  match v with
  | Some z => z <? 0
  | None => false
  end.

Fixpoint insert {A} (cmp : A -> A -> option Z) (x : A) (l : list A) : list A :=
  match l with
  | [] => [x]
  | y :: l' => if negative (cmp y x) then y :: insert cmp x l' else x :: y :: l'
  end.

Definition sort {A} (cmp : A -> A -> option Z) (l : list A) : list A :=
  fold_right (insert cmp) [] l.

(** The comparator of [l.sort()] on strings. *)
Definition compareStrings (a b : string) : option Z :=
  Some (match String.compare a b with Lt => -1 | Eq => 0 | Gt => 1 end).

Fixpoint mapM {A B} (f : A -> Result B) (l : list A) : Result (list B) :=
  match l with
  | [] => Ok []
  | x :: l' => y <- f x ;; ys <- mapM f l' ;; Ok (y :: ys)
  end.

End Arr.

(** ** Data model *)

Module Reading.
Record t := mk {
  date : string;
  temperature : Num.number;
  cervixHeight : option string;
  ovulationStrip : bool;
  dateObj : JsDate.Date
}.
End Reading.

(** An entry of [sevenDayAverages]. *)
Module Week.
Record t := mk {
  startDate : string;
  endDate : string;
  avgTemp : Num.number;
  temperatures : list Reading.t
}.
End Week.

Module Window.
Record t := mk {
  month : string;
  startDate : string;
  endDate : string;
  avgTemp : Num.number;
  temperatures : list Reading.t
}.

(** [{ month: monthKey, ...highestWeek }] *)
Definition ofWeek (monthKey : string) (w : Week.t) : t :=
  mk monthKey (Week.startDate w) (Week.endDate w) (Week.avgTemp w) (Week.temperatures w).
End Window.

Module Prediction.
Record t := mk {
  startDate : string;
  endDate : string;
  cycleLength : Z
}.
End Prediction.

(** The state of the component that the analysis reads and writes. *)
Record Component := {
  temperatures : list Reading.t;
  fertileWindows : list Window.t;
  prediction : option Prediction.t
}.

(** [(a, b) => new Date(a.date) - new Date(b.date)] *)
Definition byDate (a b : Reading.t) : option Z :=
  match JsDate.parse (Reading.date a), JsDate.parse (Reading.date b) with
  | Some x, Some y => Some (x - y)
  | _, _ => None
  end.

Definition sortByDate : list Reading.t -> list Reading.t := Arr.sort byDate.

(** ** Fertile-window detection *)

(** The object [months]: month key to readings, in insertion order. *)
Definition Months := list (string * list Reading.t).

Fixpoint lookup (key : string) (months : Months) : option (list Reading.t) :=
  match months with
  | [] => None
  | (k, v) :: rest => if String.eqb k key then Some v else lookup key rest
  end.

Fixpoint push (key : string) (temp : Reading.t) (months : Months) : Months :=
  match months with
  | [] => [(key, [temp])]
  | (k, v) :: rest =>
      if String.eqb k key then (k, (v ++ [temp])%list) :: rest else (k, v) :: push key temp rest
  end.

(** [months] is an ordinary object: the one key of at most seven characters
    that it inherits is [valueOf], which is truthy and has no [push]. *)
Definition groupStep (months : Months) (temp : Reading.t) : Result Months :=
  let monthKey := Str.substring0 7 (Reading.date temp) in
  if String.eqb monthKey "valueOf" then Throw TypeError
  else Ok (push monthKey temp months).

Fixpoint groupByMonth (temps : list Reading.t) (months : Months) : Result Months :=
  match temps with
  | [] => Ok months
  | temp :: rest => months' <- groupStep months temp ;; groupByMonth rest months'
  end.

Definition sumTemps (weekTemps : list Reading.t) : Num.number :=
  fold_left (fun sum t => Num.add sum (Reading.temperature t)) weekTemps (Num.ofZ 0).

(** One turn of the loop over [i]. *)
Definition weekAt (monthTemps : list Reading.t) (i : nat) : Result Week.t :=
  let weekTemps := Arr.slice i (i + 7) monthTemps in
  let avgTemp := Num.div (sumTemps weekTemps) (Num.ofZ 7) in
  match nth_error weekTemps 0, nth_error weekTemps 6 with
  | Some first, Some last =>
      Ok (Week.mk (Reading.date first) (Reading.date last) avgTemp weekTemps)
  | _, _ => Throw TypeError
  end.

Definition sevenDayAverages (monthTemps : list Reading.t) : Result (list Week.t) :=
  Arr.mapM (weekAt monthTemps) (seq 0 (S (List.length monthTemps) - 7)).

Definition warmer (max current : Week.t) : Week.t :=
  if Num.gt (Week.avgTemp current) (Week.avgTemp max) then current else max.

(** The body of [monthKeys.forEach]: the windows pushed for one month. *)
Definition monthWindows (months : Months) (monthKey : string) : Result (list Window.t) :=
  match lookup monthKey months with
  | None => Throw TypeError
  | Some monthTemps =>
      if (14 <=? List.length monthTemps)%nat then
        averages <- sevenDayAverages monthTemps ;;
        highestWeek <- Arr.reduce1 warmer averages ;;
        Ok [Window.ofWeek monthKey highestWeek]
      else Ok []
  end.

(** The array [windows] that [analyzeFertileWindows] builds, once it is past
    its first line. *)
Definition findWindows (temps : list Reading.t) : Result (list Window.t) :=
  let sortedTemps := sortByDate temps in
  months <- groupByMonth sortedTemps [] ;;
  let monthKeys := Arr.sort Arr.compareStrings (map fst months) in
  perMonth <- Arr.mapM (monthWindows months) monthKeys ;;
  Ok (List.concat perMonth).

(** ** Prediction *)

(** [Math.round] *)
Definition Math_round (q : Q) : Z := Qfloor (q + (1 # 2)).

Section Host.

Variable LocalTZA : Z.

(** [NaN] ([None]) when the start date is not a date. *)
Definition calculateCycleLength (fertileWindow : Window.t) : option Z :=
  let startDate := JsDate.parse (Window.startDate fertileWindow) in
  match JsDate.getDate LocalTZA startDate with
  | Some dayOfMonth => Some (Z.max 21 (Z.min 35 (28 + (dayOfMonth - 14))))
  | None => None
  end.

(** The argument of [setPrediction]; [None] when the function returns at
    its first line. *)
Definition predictNextFertileWindow (windows : list Window.t)
  : Result (option Prediction.t) :=
  if (List.length windows <? 2)%nat then Ok None
  else
    match Arr.lastTwo windows with
    | [w0; w1] =>
        let avgCycleLength : option Q :=
          match calculateCycleLength w0, calculateCycleLength w1 with
          | Some cycleLength1, Some cycleLength2 =>
              Some ((inject_Z cycleLength1 + inject_Z cycleLength2) / 2)%Q
          | _, _ => None
          end in
        let lastFertileStart := JsDate.parse (Window.startDate w1) in
        let plus (d : option Z) (v : option Q) : option Q :=
          match d, v with
          | Some a, Some b => Some (inject_Z a + b)%Q
          | _, _ => None
          end in
        let nextFertileStart :=
          JsDate.setDate LocalTZA lastFertileStart
            (plus (JsDate.getDate LocalTZA lastFertileStart) avgCycleLength) in
        let nextFertileEnd :=
          JsDate.setDate LocalTZA nextFertileStart
            (plus (JsDate.getDate LocalTZA nextFertileStart) (Some (inject_Z 6))) in
        startDate <- JsDate.toISODate nextFertileStart ;;
        endDate <- JsDate.toISODate nextFertileEnd ;;
        match avgCycleLength with
        | Some avg => Ok (Some (Prediction.mk startDate endDate (Math_round avg)))
        | None => Throw RangeError
        end
    | _ => Throw TypeError
    end.

(** The effect of [analyzeFertileWindows] on the component. *)
Definition analyzeFertileWindows (c : Component) : Result Component :=
  if (List.length (temperatures c) <? 14)%nat then Ok c
  else
    windows <- findWindows (temperatures c) ;;
    let c := {| temperatures := temperatures c;
                fertileWindows := windows;
                prediction := prediction c |} in
    if (2 <=? List.length windows)%nat then
      p <- predictNextFertileWindow windows ;;
      match p with
      | Some p => Ok {| temperatures := temperatures c;
                        fertileWindows := windows;
                        prediction := Some p |}
      | None => Ok c
      end
    else Ok c.

End Host.

(** ** Record store: direct entry *)

(** The fields of the entry form. *)
Module Form.
Record t := mk {
  newTemp : string;
  selectedDate : string;
  cervixHeight : string;
  ovulationStrip : bool
}.
End Form.

Inductive AddOutcome :=
| AddReturned                                (* first line: nothing happens *)
| AddAlerted                                 (* 'Please enter a valid temperature ...' *)
| AddStored (updated : list Reading.t).      (* the argument of setTemperatures *)

(** [s || null] *)
Definition orNull (s : string) : option string :=
  if String.eqb s "" then None else Some s.

Definition outOfRange (temp : Num.number) : bool :=
  Num.isNaN temp || Num.lt temp (Num.ofZ 95) || Num.gt temp (Num.ofZ 105).

Definition addTemperature (temps : list Reading.t) (form : Form.t) : AddOutcome :=
  if String.eqb (Form.newTemp form) "" || String.eqb (Form.selectedDate form) ""
  then AddReturned
  else
    let temp := Num.parseFloat (Form.newTemp form) in
    if outOfRange temp then AddAlerted
    else
      let existingIndex :=
        Str.findIndex (fun t => String.eqb (Reading.date t) (Form.selectedDate form)) temps in
      let newEntry :=
        Reading.mk (Form.selectedDate form) temp (orNull (Form.cervixHeight form))
                   (Form.ovulationStrip form)
                   (JsDate.parse (Form.selectedDate form)) in
      match existingIndex with
      | Some i => AddStored (Arr.setAt i newEntry temps)
      | None => AddStored (sortByDate (temps ++ [newEntry])%list)
      end.

(** ** CSV import *)

Inductive ImportOutcome :=
| ImportNoColumns                            (* 'CSV must contain columns ...' *)
| ImportNothing                              (* 'No valid temperature data found in CSV' *)
| ImportFailed (e : JsError)                 (* caught: 'Error reading CSV file ...' *)
| Imported (mergedData : list Reading.t) (count : nat).

(** The column indices found in the header line. *)
Record Columns := {
  dateIndex : nat;
  tempIndex : nat;
  cervixIndex : option nat;
  ovulationIndex : option nat
}.

Definition findColumns (headerLine : string) : option Columns :=
  let headers := map (fun h => Str.toLowerCase (Str.trim h)) (Str.split "," headerLine) in
  let dateIndex := Str.findIndex (fun h => Str.includes "date" h) headers in
  let tempIndex := Str.findIndex (fun h => Str.includes "temp" h) headers in
  let cervixIndex :=
    Str.findIndex (fun h => Str.includes "cervix" h || Str.includes "height" h) headers in
  let ovulationIndex :=
    Str.findIndex (fun h => Str.includes "ovulation" h || Str.includes "strip" h) headers in
  match dateIndex, tempIndex with
  | Some d, Some t => Some (Build_Columns d t cervixIndex ovulationIndex)
  | _, _ => None
  end.

(** [i >= 0 ? row[i]?.trim() : ''], with [None] for [undefined]. *)
Definition optionalCell (index : option nat) (row : list string) : option string :=
  match index with
  | Some i => option_map Str.trim (nth_error row i)
  | None => Some ""
  end.

(** The date a row denotes: [None] is [continue], [Some None] is [date]
    left [undefined]. *)
Definition rowDate (dateStr : string) : option (option string) :=
  if Str.includes "/" dateStr then
    match Str.split "/" dateStr with
    | [p0; p1; p2] =>
        let month := Str.padStart 2 "0" p0 in
        let day := Str.padStart 2 "0" p1 in
        let year := if (String.length p2 =? 2)%nat then "20" ++ p2 else p2 in
        Some (Some (year ++ "-" ++ month ++ "-" ++ day))
    | _ => Some None
    end
  else if Str.includes "-" dateStr then Some (Some dateStr)
  else None.

Definition isPositive (ovulationStr : string) : bool :=
  String.eqb (Str.toLowerCase ovulationStr) "true"
  || String.eqb ovulationStr "1"
  || String.eqb (Str.toLowerCase ovulationStr) "yes".

(** One turn of the loop over the data lines: the reading pushed onto
    [importedData], if any. *)
Definition importRow (cols : Columns) (existingDates : list string) (line : string)
  : Result (option Reading.t) :=
  let row := Str.split "," line in
  if (List.length row <? Nat.max (dateIndex cols) (tempIndex cols) + 1)%nat then Ok None
  else
    match nth_error row (dateIndex cols), nth_error row (tempIndex cols) with
    | Some dateCell, Some tempCell =>
        let dateStr := Str.trim dateCell in
        let tempStr := Str.trim tempCell in
        let cervixStr := optionalCell (cervixIndex cols) row in
        let ovulationStr := optionalCell (ovulationIndex cols) row in
        match rowDate dateStr with
        | None => Ok None
        | Some date =>
            let temp := Num.parseFloat tempStr in
            if outOfRange temp then Ok None
            else
              let dateObj := JsDate.ofString date in
              match dateObj, date with
              | Some _, Some date =>
                  if existsb (String.eqb date) existingDates then Ok None
                  else
                    let cervixHeight :=
                      match cervixStr with
                      | Some s => orNull s
                      | None => None
                      end in
                    match ovulationStr with
                    | Some s =>
                        Ok (Some (Reading.mk date temp cervixHeight (isPositive s) dateObj))
                    | None => Throw TypeError
                    end
              | _, _ => Ok None
              end
        end
    | _, _ => Throw TypeError
    end.

Fixpoint importRows (cols : Columns) (existingDates : list string) (lines : list string)
  : Result (list Reading.t) :=
  match lines with
  | [] => Ok []
  | line :: rest =>
      r <- importRow cols existingDates line ;;
      rs <- importRows cols existingDates rest ;;
      Ok (match r with Some x => x :: rs | None => rs end)
  end.

(** [reader.onload] on the text of the chosen file. *)
Definition importCSV (temps : list Reading.t) (csvText : string) : ImportOutcome :=
  match Str.split "010" (Str.trim csvText) with
  | [] => ImportFailed TypeError
  | headerLine :: dataLines =>
      match findColumns headerLine with
      | None => ImportNoColumns
      | Some cols =>
          let existingDates := map Reading.date temps in
          match importRows cols existingDates dataLines with
          | Throw e => ImportFailed e
          | Ok [] => ImportNothing
          | Ok importedData =>
              Imported (sortByDate (temps ++ importedData)%list) (List.length importedData)
          end
      end
  end.

(** ** CSV export *)

Definition inFertileWindow (windows : list Window.t) (temp : Reading.t) : bool :=
  existsb (fun fw => String.leb (Window.startDate fw) (Reading.date temp)
                     && String.leb (Reading.date temp) (Window.endDate fw)) windows.

Definition yesNo (b : bool) : string := if b then "Yes" else "No".


Definition exportRow (windows : list Window.t) (temp : Reading.t) : list string :=
  [ Reading.date temp;
    Num.toString (Reading.temperature temp);
    match Reading.cervixHeight temp with Some s => s | None => "" end;
    yesNo (Reading.ovulationStrip temp);
    yesNo (inFertileWindow windows temp) ].


(** ** What the page shows *)

(** A point of the chart. *)
Module ChartPoint.
Record t := mk {
  date : string;
  temperature : Num.number;
  fertileWindow : bool;
  ovulationStrip : bool
}.
End ChartPoint.

Definition formatChartData (temps : list Reading.t) (windows : list Window.t)
  : list ChartPoint.t :=
  map (fun temp =>
         ChartPoint.mk (Reading.date temp) (Reading.temperature temp)
                       (inFertileWindow windows temp) (Reading.ovulationStrip temp))
      temps.

(** 'Months Tracked': [new Set(temperatures.map(t => t.date.substring(0, 7))).size] *)
Definition monthsTracked (temps : list Reading.t) : nat :=
  List.length (nodup string_dec (map (fun t => Str.substring0 7 (Reading.date t)) temps)).

(** A row of the table of recent entries. *)
Module TableRow.
Record t := mk {
  date : string;                 (* as [formatDate] prints it *)
  temperature : Num.number;
  cervixHeight : string;
  ovulationStrip : bool;
  fertileWindow : bool
}.
End TableRow.

Section Page.

Variable LocalTZA : Z.

Definition shortMonths : list string :=
  ["Jan"; "Feb"; "Mar"; "Apr"; "May"; "Jun"; "Jul"; "Aug"; "Sep"; "Oct"; "Nov"; "Dec"].

(** [new Date(dateStr).toLocaleDateString('en-US', { month: 'short', day: 'numeric' })]:
    the month and the day of the date in local time. *)
Definition formatDate (dateStr : string) : string :=
  match JsDate.parse dateStr with
  | None => "Invalid Date"
  | Some t =>
      let lt := JsDate.LocalTime LocalTZA t in
      nth (Z.to_nat (JsDate.MonthFromTime lt)) shortMonths ""
      ++ " " ++ Num.decimalDigits (JsDate.DateFromTime lt)
  end.

(** The heading of a window in the list of fertile windows,
    [new Date(window.month + '-01').toLocaleDateString('en-US', { month: 'long', year: 'numeric' })],
    as the month (0-based) and the year that it names; [None] is
    'Invalid Date'. *)
Definition windowHeading (window : Window.t) : option (Z * Z) :=
  option_map (fun t => let lt := JsDate.LocalTime LocalTZA t in
                       (JsDate.MonthFromTime lt, JsDate.YearFromTime lt))
             (JsDate.parse (Window.month window ++ "-01")).

(** [temp.cervixHeight || '-'] *)
Definition orDash (s : option string) : string :=
  match s with
  | Some s => if String.eqb s "" then "-" else s
  | None => "-"
  end.

(** The rows of [temperatures.slice(-10).reverse().map(...)]. *)
Definition recentEntries (temps : list Reading.t) (windows : list Window.t) : list TableRow.t :=
  map (fun temp =>
         TableRow.mk (formatDate (Reading.date temp)) (Reading.temperature temp)
                (orDash (Reading.cervixHeight temp)) (Reading.ovulationStrip temp)
                (inFertileWindow windows temp))
      (rev (Arr.sliceLast 10 temps)).

End Page.

(** ** Vocabulary of the properties *)

(** The calendar date [n] days after [date]. *)
Definition addDays (date : string) (n : Z) : Result string :=
  JsDate.toISODate (option_map (fun t => t + n * JsDate.msPerDay) (JsDate.parse date)).

(** The day number and the day of the month of the calendar date itself,
    and the bounds put on an estimate. *)
Definition dayNumber (date : string) : option Z :=
  option_map JsDate.Day (JsDate.parse date).

Definition dayOfMonth (date : string) : option Z :=
  option_map JsDate.DateFromTime (JsDate.parse date).

Definition clamp (x lo hi : Z) : Z := Z.max lo (Z.min hi x).

(** The month group of [key]: the readings of that month, in the order the
    detector sees them. *)
Definition monthKeyOf (temp : Reading.t) : string := Str.substring0 7 (Reading.date temp).

Definition monthGroup (key : string) (temps : list Reading.t) : list Reading.t :=
  filter (fun t => String.eqb (monthKeyOf t) key) (sortByDate temps).

(** The span of seven readings at offset [i] of a month group and its mean. *)
Definition span (i : nat) (group : list Reading.t) : list Reading.t :=
  Arr.slice i (i + 7) group.

Definition mean (weekTemps : list Reading.t) : Num.number :=
  Num.div (sumTemps weekTemps) (Num.ofZ 7).

(** [a] is not after [b]. *)
Definition notAfter (a b : Reading.t) : Prop :=
  match JsDate.parse (Reading.date a), JsDate.parse (Reading.date b) with
  | Some x, Some y => x <= y
  | _, _ => False
  end.

Definition validDate (temp : Reading.t) : Prop :=
  JsDate.parse (Reading.date temp) <> None.

(** Adjacent readings are one calendar day apart. *)
Fixpoint consecutiveDays (l : list Reading.t) : Prop :=
  match l with
  | a :: ((b :: _) as l') =>
      match dayNumber (Reading.date a), dayNumber (Reading.date b) with
      | Some x, Some y => y = x + 1
      | _, _ => False
      end /\ consecutiveDays l'
  | _ => True
  end.

(** The store an outcome of direct entry leaves behind. *)
Definition storeAfterAdd (temps : list Reading.t) (o : AddOutcome) : list Reading.t :=
  match o with
  | AddStored updated => updated
  | _ => temps
  end.


(** The store an outcome of import leaves behind. *)
Definition storeAfterImport (temps : list Reading.t) (o : ImportOutcome) : list Reading.t :=
  match o with
  | Imported mergedData _ => mergedData
  | _ => temps
  end.

(** ** Predicates of the proofs *)

(** [r] is at offset [i] of [l], no entry is warmer, and no earlier entry
    is as warm. *)
Definition firstWarmest (l : list Week.t) (i : nat) (r : Week.t) : Prop :=
  nth_error l i = Some r /\
  forall j y, nth_error l j = Some y ->
    Num.gt (Week.avgTemp y) (Week.avgTemp r) = false /\
    ((j < i)%nat -> Num.eq (Week.avgTemp y) (Week.avgTemp r) = false).

(** [s] is four digits, a dash, two digits, a dash and two digits. *)
Definition isoShape (s : string) : Prop :=
  exists y1 y2 y3 y4 m1 m2 d1 d2,
    s = String y1 (String y2 (String y3 (String y4 (String "-" (String m1 (String m2
          (String "-" (String d1 (String d2 EmptyString))))))))) /\
    Forall (fun c => Num.isDigit c = true) [y1; y2; y3; y4; m1; m2; d1; d2].

(** The readings filed under [key], none when the key is absent. *)
Definition groupOf (key : string) (months : Months) : list Reading.t :=
  match lookup key months with
  | Some v => v
  | None => []
  end.

(** The reading's date starts with the month key. *)
Definition ofMonth (key : string) (t : Reading.t) : bool := String.eqb (monthKeyOf t) key.

(** [w] is the window of [key] cut at offset [i] of [group]. *)
Definition isSpanAt (group : list Reading.t) (i : nat) (key : string) (w : Window.t) : Prop :=
  (i + 7 <= List.length group)%nat /\
  Window.month w = key /\
  Window.temperatures w = span i group /\
  Window.avgTemp w = mean (span i group) /\
  (exists first, nth_error group i = Some first /\ Window.startDate w = Reading.date first) /\
  (exists last, nth_error group (i + 6) = Some last /\ Window.endDate w = Reading.date last).

(** No span of [group] is warmer than the one at [i], and none before it is
    as warm. *)
Definition warmestFirst (group : list Reading.t) (i : nat) : Prop :=
  forall j, (j + 7 <= List.length group)%nat ->
    Num.gt (mean (span j group)) (mean (span i group)) = false /\
    ((j < i)%nat -> Num.eq (mean (span j group)) (mean (span i group)) = false).

(** The window is the one of month [key]. *)
Definition inMonth (key : string) (w : Window.t) : bool := String.eqb (Window.month w) key.

(** The character occurs in the string. *)
Fixpoint hasChar (c : ascii) (s : string) : bool :=
  match s with
  | EmptyString => false
  | String a s' => Ascii.eqb a c || hasChar c s'
  end.

(** The string begins, and ends, with a character that is not white
    space. *)
Definition firstNonWs (s : string) : bool :=
  match s with
  | EmptyString => false
  | String c _ => negb (Str.isWhiteSpace c)
  end.

Fixpoint lastNonWs (s : string) : bool :=
  match s with
  | EmptyString => false
  | String c EmptyString => negb (Str.isWhiteSpace c)
  | String _ s' => lastNonWs s'
  end.


(** A cell text that import hands back as it is. *)
Definition cleanText (s : string) : Prop :=
  s <> "" /\ hasChar "," s = false /\ hasChar "010" s = false /\ Str.trim s = s.

(** A reading as direct entry through the form and import store it. *)
Definition storable (r : Reading.t) : Prop :=
  JsDate.parse (Reading.date r) <> None /\
  Reading.dateObj r = JsDate.parse (Reading.date r) /\
  outOfRange (Reading.temperature r) = false /\
  match Reading.cervixHeight r with
  | Some s => cleanText s
  | None => True
  end.



(** What the controls of the entry form can hold: the date control a valid
    date or nothing, the select one of its options. *)
Definition formControls (form : Form.t) : Prop :=
  (Form.selectedDate form = "" \/ JsDate.parse (Form.selectedDate form) <> None) /\
  In (Form.cervixHeight form) [""; "Low"; "Medium"; "High"].

(** The stores reached from the empty one by direct entry and import. *)
Inductive reachable : list Reading.t -> Prop :=
| reach_empty : reachable []
| reach_add (temps : list Reading.t) (form : Form.t) :
    reachable temps -> formControls form ->
    reachable (storeAfterAdd temps (addTemperature temps form))
| reach_import (temps : list Reading.t) (csvText : string) :
    reachable temps ->
    reachable (storeAfterImport temps (importCSV temps csvText)).

(** [f] holds on the [n] integers from [base] on. *)
Fixpoint rangeAll (f : Z -> bool) (n : positive) (base : Z) : bool :=
  match n with
  | xH => f base
  | xO n' => rangeAll f n' base && rangeAll f n' (base + Zpos n')
  | xI n' => f base && rangeAll f n' (base + 1) && rangeAll f n' (base + 1 + Zpos n')
  end.

(** The civil date of a day of the era is a date, and numbers back to the
    day. *)
Definition eraDayOk (doe : Z) : bool :=
  let '(yoe, m, d) := JsDate.civilOfDoe doe in
  (0 <=? yoe) && (yoe <? 400) && (1 <=? m) && (m <=? 12) && (1 <=? d) && (d <=? 31)
  && (JsDate.doeOfCivil yoe m d =? doe).

(** The dates of a list of readings are in ascending order. *)
Definition datesAscend (dates : list string) : Prop :=
  StronglySorted
    (fun a b => match JsDate.parse a, JsDate.parse b with
                | Some x, Some y => x <= y
                | _, _ => False
                end) dates.

(** The readings of the other dates, in the order of the store. *)
Definition otherDates (date : string) (temps : list Reading.t) : list Reading.t :=
  filter (fun t => negb (String.eqb (Reading.date t) date)) temps.

(** The order of [l.sort()] on strings. *)
Definition strictlyBefore (a b : string) : Prop := String.compare a b = Lt.

Definition before (a b : string) : Prop := String.compare a b <> Gt.

(** The windows are in ascending order of their months, no month twice. *)
Definition monthsAscend (windows : list Window.t) : Prop :=
  StronglySorted (fun a b => strictlyBefore (Window.month a) (Window.month b)) windows.

(** [y]-[m]-[d] is a date of the calendar. *)
Definition validCivil (y m d : Z) : Prop :=
  1 <= m <= 12 /\ 1 <= d <= JsDate.daysInMonth y m.

(** [y]-[m]-[d] is before [y2]-[m2]-[d2]. *)
Definition civilBefore (y m d y2 m2 d2 : Z) : Prop :=
  y < y2 \/ y = y2 /\ (m < m2 \/ m = m2 /\ d < d2).

(** The character of a decimal digit. *)
Definition digitChar (x : Z) : ascii := ascii_of_nat (48 + Z.to_nat x).

(** The text [YYYY-MM-DD] of a date. *)
Definition isoText (y m d : Z) : string :=
  JsDate.pad 4 y ++ "-" ++ JsDate.pad 2 m ++ "-" ++ JsDate.pad 2 d.

(** The dates of a window are dates. *)
Definition validWindow (fw : Window.t) : Prop :=
  JsDate.parse (Window.startDate fw) <> None /\ JsDate.parse (Window.endDate fw) <> None.

(** The date of [temp] is from the start date to the end date of [fw]. *)
Definition withinWindow (fw : Window.t) (temp : Reading.t) : Prop :=
  match JsDate.parse (Window.startDate fw), JsDate.parse (Reading.date temp),
        JsDate.parse (Window.endDate fw) with
  | Some ts, Some t, Some te => ts <= t <= te
  | _, _, _ => False
  end.

(** The name of month [m] (1-based) in the labels. *)
Definition monthName (m : Z) : string := nth (Z.to_nat (m - 1)) shortMonths "".

(** The day before [y]-[m]-[d]. *)
Definition dayBefore (y m d : Z) : Z * Z * Z :=
  if 2 <=? d then (y, m, d - 1)
  else if 2 <=? m then (y, m - 1, JsDate.daysInMonth y (m - 1))
  else (y - 1, 12, 31).

(** The texts of a month or a day in a date with slashes: with or without
    a leading zero. *)
Definition slashTexts (v : Z) : list string := [Num.decimalDigits v; JsDate.pad 2 v].

(** Window [a] ends before window [b] starts. *)
Definition endsBefore (a b : Window.t) : Prop :=
  match JsDate.parse (Window.endDate a), JsDate.parse (Window.startDate b) with
  | Some x, Some y => x < y
  | _, _ => False
  end.

(** ** Sample data *)

Module Sample.

Definition newline : string := String "010" "".

(** A reading with a date and a temperature only, and a window with its
    dates only. *)
Definition reading (date temp : string) : Reading.t :=
  Reading.mk date (Num.parseFloat temp) None false (JsDate.parse date).

Definition window (month startDate endDate : string) : Window.t :=
  Window.mk month startDate endDate (Num.ofZ 98) [].

(** Five hours west of Greenwich. *)
Definition utcMinus5 : Z := - (5 * 3600000).

(** Fourteen readings in January 2024, every second day, all at 97. *)
Definition everyOtherDay : list Reading.t :=
  map (fun d => reading ("2024-01-" ++ JsDate.pad 2 d) "97")
      [1; 3; 5; 7; 9; 11; 13; 15; 17; 19; 21; 23; 25; 27].

(** The reading of day [d] of January 2024: 98.0 on days 10 to 16, 97.0 on
    the others. *)
Definition january (d : Z) : Reading.t :=
  reading ("2024-01-" ++ JsDate.pad 2 d) (if (10 <=? d) && (d <=? 16) then "98.0" else "97.0").

(** The first twenty days of January 2024. *)
Definition twentyDays : list Reading.t :=
  map january [1; 2; 3; 4; 5; 6; 7; 8; 9; 10; 11; 12; 13; 14; 15; 16; 17; 18; 19; 20].

(** The same date twice in one file. *)
Definition repeatedDateCSV : string :=
  "Date,Temp" ++ newline ++ "2024-02-01,98.2" ++ newline ++ "2024-02-01,98.4".

(** A header with an ovulation column and a row that stops before it. *)
Definition shortRowCSV : string :=
  "Date,Temp,Ovulation" ++ newline ++ "2024-02-01,98.2".

(** Windows whose estimates are 24 and 23. *)
Definition halfDayWindows : list Window.t :=
  [window "2024-01" "2024-01-10" "2024-01-16"; window "2024-02" "2024-02-09" "2024-02-15"].

(** A header with a cervix column and no ovulation column, and a row that
    stops before the cervix column. *)
Definition shortCervixCSV : string :=
  "Date,Temp,Cervix" ++ newline ++ "2024-02-01,98.2".

(** One good row, one row with no such date, one row out of range. *)
Definition scenarioCSV : string :=
  "Date,Temp" ++ newline ++ "2024-02-01,98.2" ++ newline ++ "13/40/2024,99.0"
  ++ newline ++ "2024-02-02,150" ++ newline.

(** Two rows with all four columns, one date in each of the two shapes. *)
Definition smallCSV : string :=
  "Date,Temp,Cervix,Ovulation" ++ newline ++ "2024-02-01,98.2,High,yes"
  ++ newline ++ "2/3/24,97.9,,no".

(** The store after importing [smallCSV] into the empty one, and a store
    with a date of another month. *)
Definition importedStore : list Reading.t := storeAfterImport [] (importCSV [] smallCSV).



End Sample.

(** * Properties *)

(** ** Order of numbers *)

Ltac compare_cases :=
  repeat match goal with
  | |- context [Z.compare ?x ?y] => destruct (Z.compare_spec x y)
  | H : context [Z.compare ?x ?y] |- _ => destruct (Z.compare_spec x y)
  | |- context [Pos.compare ?x ?y] => destruct (Pos.compare_spec x y)
  | H : context [Pos.compare ?x ?y] |- _ => destruct (Pos.compare_spec x y)
  end.

Lemma lt_irrefl (x : Num.number) : Num.lt x x = false.
Proof.
  unfold Num.lt, SFltb.
  destruct x as [s|s| |s m e]; simpl; try reflexivity; destruct s; try reflexivity;
    rewrite Z.compare_refl, ?Pos.compare_cont_refl; reflexivity.
Qed.

Lemma lt_trans (x y z : Num.number) :
  Num.lt x y = true -> Num.lt y z = true -> Num.lt x z = true.
Proof.
  unfold Num.lt, SFltb.
  destruct x as [a|a| |a m e], y as [b|b| |b m' e'], z as [c|c| |c m'' e''];
    simpl; try discriminate; try reflexivity;
    try destruct a; try destruct b; try destruct c; simpl;
    try discriminate; try reflexivity;
    change (Pos.compare_cont Eq) with Pos.compare;
    intros; compare_cases; simpl in *; try discriminate; try reflexivity; try lia.
Qed.

Lemma eq_lt_compat (x y z : Num.number) :
  Num.eq x y = true -> Num.lt z y = true -> Num.lt z x = true.
Proof.
  unfold Num.eq, Num.lt, SFeqb, SFltb.
  destruct x as [a|a| |a m e], y as [b|b| |b m' e'], z as [c|c| |c m'' e''];
    simpl; try discriminate; try reflexivity;
    try destruct a; try destruct b; try destruct c; simpl;
    try discriminate; try reflexivity;
    change (Pos.compare_cont Eq) with Pos.compare;
    intros; compare_cases; simpl in *; try discriminate; try reflexivity; try lia.
Qed.

(** ** The warmest week *)

Lemma firstWarmest_fold (l : list Week.t) (x : Week.t) :
  exists i, firstWarmest (x :: l) i (fold_left warmer l x).
Proof.
  induction l as [|c l IH] using rev_ind.
  - exists O. split; [reflexivity|].
    intros [|j] y Hy; simpl in Hy.
    + injection Hy as <-. split; [apply lt_irrefl | lia].
    + destruct j; discriminate.
  - destruct IH as [i [Hi Hall]].
    rewrite fold_left_app. simpl. set (r := fold_left warmer l x) in *.
    assert (Hlen : (i < List.length (x :: l))%nat)
      by (apply nth_error_Some; rewrite Hi; discriminate).
    unfold warmer. destruct (Num.gt (Week.avgTemp c) (Week.avgTemp r)) eqn:Hgt.
    + exists (List.length (x :: l)). split.
      * change (x :: (l ++ [c])%list) with ((x :: l) ++ [c])%list.
        rewrite nth_error_app2, Nat.sub_diag by lia. reflexivity.
      * intros j y Hy.
        change (x :: (l ++ [c])%list) with ((x :: l) ++ [c])%list in Hy.
        destruct (Nat.lt_ge_cases j (List.length (x :: l))) as [Hj|Hj].
        -- rewrite nth_error_app1 in Hy by exact Hj.
           destruct (Hall j y Hy) as [Hle _]. unfold Num.gt in *. split.
           ++ destruct (Num.lt (Week.avgTemp c) (Week.avgTemp y)) eqn:E; [|reflexivity].
              rewrite (lt_trans _ _ _ Hgt E) in Hle. discriminate.
           ++ intros _.
              destruct (Num.eq (Week.avgTemp y) (Week.avgTemp c)) eqn:E; [|reflexivity].
              rewrite (eq_lt_compat _ _ _ E Hgt) in Hle. discriminate.
        -- rewrite nth_error_app2 in Hy by exact Hj.
           destruct (j - List.length (x :: l))%nat as [|k] eqn:Ek; simpl in Hy.
           ++ injection Hy as <-. split; [apply lt_irrefl | lia].
           ++ destruct k; discriminate.
    + exists i. split.
      * change (x :: (l ++ [c])%list) with ((x :: l) ++ [c])%list.
        rewrite nth_error_app1 by exact Hlen. exact Hi.
      * intros j y Hy.
        change (x :: (l ++ [c])%list) with ((x :: l) ++ [c])%list in Hy.
        destruct (Nat.lt_ge_cases j (List.length (x :: l))) as [Hj|Hj].
        -- rewrite nth_error_app1 in Hy by exact Hj. exact (Hall j y Hy).
        -- rewrite nth_error_app2 in Hy by exact Hj.
           destruct (j - List.length (x :: l))%nat as [|k] eqn:Ek; simpl in Hy.
           ++ injection Hy as <-. split; [exact Hgt | lia].
           ++ destruct k; discriminate.
Qed.

Lemma reduce1_warmer (l : list Week.t) :
  l <> [] -> exists i r, Arr.reduce1 warmer l = Ok r /\ firstWarmest l i r.
Proof.
  destruct l as [|x l]; [congruence|]. intros _.
  destruct (firstWarmest_fold l x) as [i Hi].
  exists i, (fold_left warmer l x). split; [reflexivity | exact Hi].
Qed.

(** ** Sorting *)

Section Sorting.

Context {A : Type} (cmp : A -> A -> option Z).

Lemma insert_perm (x : A) (l : list A) : Permutation (Arr.insert cmp x l) (x :: l).
Proof.
  induction l as [|y l IH]; simpl; [reflexivity|].
  destruct (Arr.negative (cmp y x)); [|reflexivity].
  rewrite IH. apply perm_swap.
Qed.

Lemma sort_perm (l : list A) : Permutation (Arr.sort cmp l) l.
Proof.
  induction l as [|x l IH]; simpl; [reflexivity|].
  rewrite insert_perm. apply perm_skip, IH.
Qed.

Lemma sort_In (l : list A) (x : A) : In x (Arr.sort cmp l) <-> In x l.
Proof.
  split; apply Permutation_in; [|symmetry]; apply sort_perm.
Qed.

Lemma sort_length (l : list A) : List.length (Arr.sort cmp l) = List.length l.
Proof. apply Permutation_length, sort_perm. Qed.

End Sorting.

Lemma validDate_notAfter_total (a b : Reading.t) :
  validDate a -> validDate b -> Arr.negative (byDate b a) = false -> notAfter a b.
Proof.
  unfold validDate, notAfter, byDate.
  destruct (JsDate.parse (Reading.date a)), (JsDate.parse (Reading.date b));
    try congruence; simpl; intros _ _ H. apply Z.ltb_ge in H. lia.
Qed.

Lemma negative_notAfter (a b : Reading.t) :
  Arr.negative (byDate b a) = true -> notAfter b a.
Proof.
  unfold notAfter, byDate.
  destruct (JsDate.parse (Reading.date a)), (JsDate.parse (Reading.date b));
    simpl; try discriminate. intros H. apply Z.ltb_lt in H. lia.
Qed.

Lemma notAfter_trans (a b c : Reading.t) : notAfter a b -> notAfter b c -> notAfter a c.
Proof.
  unfold notAfter.
  destruct (JsDate.parse (Reading.date a)), (JsDate.parse (Reading.date b)),
    (JsDate.parse (Reading.date c)); try tauto. lia.
Qed.

Lemma insert_sorted (x : Reading.t) (l : list Reading.t) :
  validDate x -> Forall validDate l ->
  StronglySorted notAfter l -> StronglySorted notAfter (Arr.insert byDate x l).
Proof.
  intros Hx Hl Hs. induction Hs as [|y l Hs IH Hy]; simpl.
  - constructor; constructor.
  - inversion Hl as [|? ? Hvy Hvl]; subst.
    destruct (Arr.negative (byDate y x)) eqn:E.
    + constructor; [apply IH, Hvl|].
      apply Forall_forall. intros z Hz.
      apply (Permutation_in _ (insert_perm byDate x l)) in Hz.
      destruct Hz as [<-|Hz]; [apply negative_notAfter, E|].
      rewrite Forall_forall in Hy. apply Hy, Hz.
    + assert (Hxy : notAfter x y) by (apply validDate_notAfter_total; assumption).
      constructor; [constructor; assumption|].
      constructor; [exact Hxy|].
      apply Forall_forall. intros z Hz. rewrite Forall_forall in Hy.
      apply (notAfter_trans _ y); [exact Hxy | apply Hy, Hz].
Qed.

Lemma sortByDate_sorted (l : list Reading.t) :
  Forall validDate l -> StronglySorted notAfter (sortByDate l).
Proof.
  induction 1 as [|x l Hx Hl IH]; simpl; [constructor|].
  apply insert_sorted; [exact Hx | | exact IH].
  apply Forall_forall. intros y Hy. rewrite Forall_forall in Hl.
  apply Hl. apply (sort_In byDate), Hy.
Qed.

Lemma filter_sorted {A} (R : A -> A -> Prop) (p : A -> bool) (l : list A) :
  StronglySorted R l -> StronglySorted R (filter p l).
Proof.
  induction 1 as [|x l Hs IH Hx]; simpl; [constructor|].
  destruct (p x); [|exact IH].
  constructor; [exact IH|].
  apply Forall_forall. intros y Hy. apply filter_In in Hy.
  rewrite Forall_forall in Hx. apply Hx, Hy.
Qed.

Lemma monthGroup_sorted (key : string) (temps : list Reading.t) :
  Forall validDate temps -> StronglySorted notAfter (monthGroup key temps).
Proof.
  intros H. apply filter_sorted, sortByDate_sorted, H.
Qed.

(** ** Shape of a valid date *)

Lemma digits2_digits (a b : ascii) (z : Z) :
  JsDate.digits2 a b = Some z -> Num.isDigit a = true /\ Num.isDigit b = true.
Proof.
  unfold JsDate.digits2, JsDate.digit.
  destruct (Num.isDigit a), (Num.isDigit b); try discriminate. auto.
Qed.

Lemma parse_shape (s : string) (t : Z) : JsDate.parse s = Some t -> isoShape s.
Proof.
  unfold JsDate.parse.
  destruct s as [|y1 [|y2 [|y3 [|y4 [|s1 [|m1 [|m2 [|s2 [|d1 [|d2 [|? ?]]]]]]]]]]];
    try discriminate.
  destruct (JsDate.digits2 y1 y2) eqn:E1; try discriminate.
  destruct (JsDate.digits2 y3 y4) eqn:E2; try discriminate.
  destruct (JsDate.digits2 m1 m2) eqn:E3; try discriminate.
  destruct (JsDate.digits2 d1 d2) eqn:E4; try discriminate.
  destruct (Ascii.eqb s1 "-") eqn:Es1; try discriminate.
  destruct (Ascii.eqb s2 "-") eqn:Es2; try discriminate.
  apply Ascii.eqb_eq in Es1, Es2. subst. intros _.
  apply digits2_digits in E1, E2, E3, E4.
  exists y1, y2, y3, y4, m1, m2, d1, d2. split; [reflexivity|].
  repeat constructor; tauto.
Qed.

(** ** Results *)

Lemma bind_Ok {A B} (r : Result A) (k : A -> Result B) (b : B) :
  bind r k = Ok b -> exists a, r = Ok a /\ k a = Ok b.
Proof. destruct r as [a|e]; simpl; [eauto | discriminate]. Qed.

Lemma mapM_Ok {A B} (f : A -> Result B) (l : list A) (ys : list B) :
  Arr.mapM f l = Ok ys -> Forall2 (fun x y => f x = Ok y) l ys.
Proof.
  revert ys. induction l as [|x l IH]; simpl; intros ys H.
  - injection H as <-. constructor.
  - apply bind_Ok in H as [y [Hy H]]. apply bind_Ok in H as [ys' [Hys H]].
    injection H as <-. constructor; auto.
Qed.

Lemma mapM_total {A B} (f : A -> Result B) (l : list A) :
  (forall x, In x l -> exists y, f x = Ok y) -> exists ys, Arr.mapM f l = Ok ys.
Proof.
  induction l as [|x l IH]; simpl; intros H; [eauto|].
  destruct (H x (or_introl eq_refl)) as [y Hy].
  destruct IH as [ys Hys]; [intros; apply H; auto|].
  rewrite Hy, Hys. simpl. eauto.
Qed.

Lemma Forall2_seq_nth {B} (R : nat -> B -> Prop) (n a : nat) (ys : list B) :
  Forall2 R (seq a n) ys ->
  List.length ys = n /\
  forall i y, nth_error ys i = Some y -> R (a + i)%nat y.
Proof.
  revert a ys. induction n as [|n IH]; simpl; intros a ys H.
  - inversion H; subst. split; [reflexivity|]. intros [|i] y Hy; discriminate.
  - inversion H as [|? ? ? ? Hx Hrest]; subst.
    destruct (IH _ _ Hrest) as [Hlen Hnth]. split; [simpl; lia|].
    intros [|i] z Hz; simpl in Hz.
    + injection Hz as <-. rewrite Nat.add_0_r. exact Hx.
    + replace (a + S i)%nat with (S a + i)%nat by lia. apply Hnth, Hz.
Qed.

(** ** Grouping by month *)

Lemma lookup_In (key : string) (months : Months) :
  lookup key months <> None <-> In key (map fst months).
Proof.
  induction months as [|[k v] rest IH]; simpl; [tauto|].
  destruct (String.eqb_spec k key); [subst; split; [auto | discriminate]|].
  rewrite IH. split; [auto | intros [?|?]; [congruence | auto]].
Qed.

Lemma lookup_push (key k : string) (t : Reading.t) (months : Months) :
  lookup key (push k t months) =
  if String.eqb k key then Some (groupOf k months ++ [t])%list else lookup key months.
Proof.
  unfold groupOf. induction months as [|[k' v] rest IH]; simpl.
  - destruct (String.eqb_spec k key); reflexivity.
  - destruct (String.eqb_spec k' k) as [->|Hk']; simpl.
    + destruct (String.eqb_spec k key); [reflexivity|reflexivity].
    + rewrite IH. destruct (String.eqb_spec k' key) as [->|Hkey].
      * destruct (String.eqb_spec k key); [congruence | reflexivity].
      * reflexivity.
Qed.

Lemma keys_push (k : string) (t : Reading.t) (months : Months) :
  map fst (push k t months) =
  if in_dec string_dec k (map fst months) then map fst months
  else (map fst months ++ [k])%list.
Proof.
  induction months as [|[k' v] rest IH]; simpl; [reflexivity|].
  destruct (String.eqb_spec k' k) as [->|Hk']; simpl.
  - destruct (string_dec k k); [reflexivity | congruence].
  - rewrite IH. destruct (string_dec k' k); [congruence|].
    destruct (in_dec string_dec k (map fst rest)); reflexivity.
Qed.

Lemma push_nonempty (k : string) (t : Reading.t) (months : Months) :
  Forall (fun kv => snd kv <> []) months ->
  Forall (fun kv => snd kv <> []) (push k t months).
Proof.
  induction 1 as [|[k' v] rest Hv Hrest IH]; simpl.
  - repeat constructor. discriminate.
  - destruct (String.eqb k' k); constructor; auto.
    simpl. destruct v; discriminate.
Qed.

Lemma groupByMonth_Ok (l : list Reading.t) (acc months : Months) :
  groupByMonth l acc = Ok months ->
  (forall key, groupOf key months = (groupOf key acc ++ filter (ofMonth key) l)%list) /\
  (NoDup (map fst acc) -> NoDup (map fst months)) /\
  (Forall (fun kv => snd kv <> []) acc -> Forall (fun kv => snd kv <> []) months).
Proof.
  revert acc. induction l as [|t l IH]; simpl; intros acc H.
  - injection H as <-. split; [|tauto]. intros key. rewrite app_nil_r. reflexivity.
  - apply bind_Ok in H as [months' [Hstep H]].
    unfold groupStep in Hstep. fold (monthKeyOf t) in Hstep.
    destruct (String.eqb (monthKeyOf t) "valueOf"); [discriminate|].
    injection Hstep as <-.
    destruct (IH _ H) as [Hget [Hnd Hne]]. split; [|split].
    + intros key. rewrite Hget. unfold groupOf at 1. rewrite lookup_push.
      unfold ofMonth at 2.
      destruct (String.eqb_spec (monthKeyOf t) key) as [<-|Hk].
      * rewrite <- app_assoc. reflexivity.
      * reflexivity.
    + intros Hacc. apply Hnd. rewrite keys_push.
      destruct (in_dec string_dec (monthKeyOf t) (map fst acc)); [exact Hacc|].
      apply NoDup_app; [exact Hacc | repeat constructor; simpl; tauto |].
      intros x Hx [<-|[]]. contradiction.
    + intros Hacc. apply Hne, push_nonempty, Hacc.
Qed.

Lemma groupByMonth_total (l : list Reading.t) (acc : Months) :
  Forall (fun t => monthKeyOf t <> "valueOf") l -> exists months, groupByMonth l acc = Ok months.
Proof.
  intros H. revert acc. induction H as [|t l Ht Hl IH]; simpl; intros acc; [eauto|].
  unfold groupStep. fold (monthKeyOf t).
  destruct (String.eqb_spec (monthKeyOf t) "valueOf"); [contradiction|]. simpl. apply IH.
Qed.

Lemma lookup_get (key : string) (months : Months) :
  Forall (fun kv => snd kv <> []) months ->
  forall v, lookup key months = Some v <-> (groupOf key months = v /\ v <> []).
Proof.
  intros Hne v. unfold groupOf. split.
  - intros H. rewrite H. split; [reflexivity|].
    clear -Hne H. induction Hne as [|[k w] rest Hw Hrest IH]; simpl in H; [discriminate|].
    destruct (String.eqb k key); [injection H as <-; exact Hw | auto].
  - destruct (lookup key months); intros [<- Hv]; congruence.
Qed.

Lemma validDate_monthKey (t : Reading.t) : validDate t -> monthKeyOf t <> "valueOf".
Proof.
  unfold validDate, monthKeyOf.
  destruct (JsDate.parse (Reading.date t)) as [z|] eqn:E; [|congruence].
  intros _. apply parse_shape in E as (y1 & y2 & y3 & y4 & m1 & m2 & d1 & d2 & -> & Hd).
  inversion Hd as [|? ? H1 _]; subst. simpl. intros H. injection H as ->. discriminate.
Qed.

(** ** One month *)

Lemma span_nth (group : list Reading.t) (i k : nat) :
  (k < 7)%nat -> nth_error (span i group) k = nth_error group (i + k).
Proof.
  intros Hk. unfold span, Arr.slice.
  replace (i + 7 - i)%nat with 7%nat by lia.
  rewrite nth_error_firstn.
  destruct (Nat.ltb_spec k 7); [|lia]. apply nth_error_skipn.
Qed.

Lemma weekAt_Ok (group : list Reading.t) (i : nat) (w : Week.t) :
  weekAt group i = Ok w ->
  exists first last,
    nth_error group i = Some first /\ nth_error group (i + 6) = Some last /\
    w = Week.mk (Reading.date first) (Reading.date last) (mean (span i group)) (span i group).
Proof.
  unfold weekAt. fold (span i group). fold (mean (span i group)).
  rewrite !span_nth by lia. rewrite Nat.add_0_r.
  destruct (nth_error group i) as [first|]; [|discriminate].
  destruct (nth_error group (i + 6)) as [last|]; [|discriminate].
  intros H. injection H as <-. eauto.
Qed.

Lemma weekAt_total (group : list Reading.t) (i : nat) :
  (i + 7 <= List.length group)%nat -> exists w, weekAt group i = Ok w.
Proof.
  intros Hi. unfold weekAt. fold (span i group).
  rewrite !span_nth by lia. rewrite Nat.add_0_r.
  destruct (nth_error group i) eqn:E1;
    [|apply nth_error_None in E1; lia].
  destruct (nth_error group (i + 6)) eqn:E2;
    [|apply nth_error_None in E2; lia].
  eauto.
Qed.

Lemma sevenDayAverages_Ok (group : list Reading.t) (averages : list Week.t) :
  sevenDayAverages group = Ok averages ->
  List.length averages = (S (List.length group) - 7)%nat /\
  forall i y, nth_error averages i = Some y -> weekAt group i = Ok y.
Proof.
  intros H. apply mapM_Ok, Forall2_seq_nth in H. exact H.
Qed.

Lemma monthWindows_Ok (months : Months) (key : string) (group : list Reading.t)
  (ws : list Window.t) :
  lookup key months = Some group -> monthWindows months key = Ok ws ->
  ((List.length group < 14)%nat -> ws = []) /\
  ((14 <= List.length group)%nat ->
    exists w i, ws = [w] /\ isSpanAt group i key w /\ warmestFirst group i).
Proof.
  intros Hl. unfold monthWindows. rewrite Hl.
  destruct (Nat.leb_spec 14 (List.length group)) as [Hlen|Hlen].
  - intros H. split; [lia|]. intros _.
    apply bind_Ok in H as [averages [Hav H]].
    apply bind_Ok in H as [highestWeek [Hhi H]]. injection H as <-.
    apply sevenDayAverages_Ok in Hav as [Hn Hnth].
    destruct averages as [|x averages]; [discriminate|].
    simpl in Hhi. injection Hhi as <-.
    destruct (firstWarmest_fold averages x) as [i [Hi Hall]].
    set (r := fold_left warmer averages x) in *.
    assert (Hilen : (i < List.length (x :: averages))%nat)
      by (apply nth_error_Some; rewrite Hi; discriminate).
    destruct (weekAt_Ok _ _ _ (Hnth _ _ Hi)) as (first & last & Hf & Hla & Hr).
    exists (Window.ofWeek key r), i. split; [reflexivity|]. split.
    + rewrite Hr. unfold isSpanAt, Window.ofWeek; simpl.
      split; [lia|]. repeat split; eauto.
    + intros j Hj.
      destruct (nth_error (x :: averages) j) as [y|] eqn:Ey;
        [|apply nth_error_None in Ey; lia].
      destruct (Hall j y Ey) as [Hg He].
      destruct (weekAt_Ok _ _ _ (Hnth _ _ Ey)) as (? & ? & _ & _ & Hy).
      rewrite Hy, Hr in Hg, He. simpl in Hg, He. auto.
  - intros H. injection H as <-. split; [reflexivity | lia].
Qed.

Lemma monthWindows_total (months : Months) (key : string) :
  In key (map fst months) -> exists ws, monthWindows months key = Ok ws.
Proof.
  intros Hk. apply lookup_In in Hk. unfold monthWindows.
  destruct (lookup key months) as [group|]; [|congruence].
  destruct (Nat.leb_spec 14 (List.length group)) as [Hlen|Hlen]; [|eauto].
  destruct (mapM_total (weekAt group) (seq 0 (S (List.length group) - 7))) as [averages Hav].
  { intros i Hi. apply in_seq in Hi. apply weekAt_total. lia. }
  unfold sevenDayAverages. rewrite Hav. simpl.
  apply mapM_Ok, Forall2_seq_nth in Hav as [Hn _].
  destruct averages; [simpl in Hn; lia|]. simpl. eauto.
Qed.

(** ** All months *)

Lemma monthWindows_month (months : Months) (key : string) (ws : list Window.t) (w : Window.t) :
  monthWindows months key = Ok ws -> In w ws -> Window.month w = key.
Proof.
  unfold monthWindows. destruct (lookup key months) as [group|]; [|discriminate].
  destruct (14 <=? List.length group)%nat.
  - intros H. apply bind_Ok in H as [averages [_ H]].
    apply bind_Ok in H as [highestWeek [_ H]]. injection H as <-.
    intros [<-|[]]. reflexivity.
  - intros H. injection H as <-. intros [].
Qed.

Lemma filter_none {A} (p : A -> bool) (l : list A) :
  (forall x, In x l -> p x = false) -> filter p l = [].
Proof.
  induction l as [|x l IH]; simpl; intros H; [reflexivity|].
  rewrite (H x (or_introl eq_refl)). apply IH. auto.
Qed.

Lemma filter_all {A} (p : A -> bool) (l : list A) :
  (forall x, In x l -> p x = true) -> filter p l = l.
Proof.
  induction l as [|x l IH]; simpl; intros H; [reflexivity|].
  rewrite (H x (or_introl eq_refl)). f_equal. apply IH. auto.
Qed.

Lemma filter_concat_month (months : Months) (keys : list string)
  (perMonth : list (list Window.t)) (key : string) :
  Forall2 (fun k ws => monthWindows months k = Ok ws) keys perMonth ->
  NoDup keys ->
  (~ In key keys -> filter (inMonth key) (List.concat perMonth) = []) /\
  (forall ws, monthWindows months key = Ok ws -> In key keys ->
     filter (inMonth key) (List.concat perMonth) = ws).
Proof.
  induction 1 as [|k ws' keys perMonth Hk Hrest IH]; intros Hnd; simpl.
  - split; [reflexivity | intros ? ? []].
  - inversion Hnd as [|? ? Hnk Hnd']; subst.
    destruct (IH Hnd') as [IHn IHy]. rewrite filter_app. split.
    + intros Hn. rewrite IHn by tauto. rewrite app_nil_r.
      apply filter_none. intros w Hw. unfold inMonth.
      rewrite (monthWindows_month _ _ _ _ Hk Hw).
      apply String.eqb_neq. tauto.
    + intros ws Hws [->|Hin].
      * rewrite Hk in Hws. injection Hws as ->.
        rewrite IHn by exact Hnk. rewrite app_nil_r.
        apply filter_all. intros w Hw. unfold inMonth.
        rewrite (monthWindows_month _ _ _ _ Hk Hw). apply String.eqb_refl.
      * rewrite (IHy ws Hws Hin).
        rewrite filter_none; [reflexivity|].
        intros w Hw. unfold inMonth. rewrite (monthWindows_month _ _ _ _ Hk Hw).
        apply String.eqb_neq. intros ->. contradiction.
Qed.

(** What [findWindows] returns, month by month. *)
Lemma findWindows_Ok (temps : list Reading.t) (windows : list Window.t) (key : string) :
  findWindows temps = Ok windows ->
  ((List.length (monthGroup key temps) < 14)%nat -> filter (inMonth key) windows = []) /\
  ((14 <= List.length (monthGroup key temps))%nat ->
    exists w i, filter (inMonth key) windows = [w] /\
      isSpanAt (monthGroup key temps) i key w /\ warmestFirst (monthGroup key temps) i).
Proof.
  unfold findWindows. intros H.
  apply bind_Ok in H as [months [Hm H]]. apply bind_Ok in H as [perMonth [Hp H]].
  injection H as <-.
  destruct (groupByMonth_Ok _ _ _ Hm) as [Hget [Hnd Hne]].
  assert (Hkey : groupOf key months = monthGroup key temps) by (rewrite Hget; reflexivity).
  clear Hget. rename Hkey into Hget.
  specialize (Hnd (NoDup_nil _)). specialize (Hne (Forall_nil _)).
  apply mapM_Ok in Hp.
  assert (Hnd' : NoDup (Arr.sort Arr.compareStrings (map fst months)))
    by (eapply Permutation_NoDup; [symmetry; apply sort_perm | exact Hnd]).
  destruct (filter_concat_month _ _ _ key Hp Hnd') as [Hno Hyes].
  destruct (lookup key months) as [group|] eqn:El.
  - assert (Hin : In key (Arr.sort Arr.compareStrings (map fst months))).
    { apply sort_In, lookup_In. congruence. }
    destruct (monthWindows_total months key) as [ws Hws].
    { apply lookup_In. congruence. }
    rewrite (Hyes ws Hws Hin).
    pose proof (proj1 (lookup_get _ _ Hne _) El) as [Hg _].
    rewrite Hget in Hg. subst group.
    destruct (monthWindows_Ok _ _ _ _ El Hws) as [Hlt Hge]. split; [exact Hlt|].
    intros Hlen. destruct (Hge Hlen) as (w & i & -> & Hspan & Hwarm). eauto.
  - assert (Hempty : monthGroup key temps = []).
    { rewrite <- Hget. unfold groupOf. rewrite El. reflexivity. }
    rewrite Hempty. simpl. split; [|lia]. intros _. apply Hno.
    intros Hin. apply (proj1 (sort_In _ _ _)) in Hin.
    apply (proj2 (lookup_In _ _)) in Hin. congruence.
Qed.

Lemma findWindows_total (temps : list Reading.t) :
  Forall validDate temps -> exists windows, findWindows temps = Ok windows.
Proof.
  intros Hv. unfold findWindows.
  destruct (groupByMonth_total (sortByDate temps) []) as [months Hm].
  { apply Forall_forall. intros t Ht. apply validDate_monthKey.
    rewrite Forall_forall in Hv. apply Hv. apply (sort_In byDate), Ht. }
  rewrite Hm. simpl.
  destruct (mapM_total (monthWindows months) (Arr.sort Arr.compareStrings (map fst months)))
    as [perMonth Hp].
  { intros key Hk. apply monthWindows_total. apply (sort_In Arr.compareStrings), Hk. }
  rewrite Hp. simpl. eauto.
Qed.

Ltac valid_dates := repeat constructor; vm_compute; discriminate.

Lemma In_window_month (temps : list Reading.t) (windows : list Window.t) (w : Window.t) :
  findWindows temps = Ok windows -> In w windows ->
  exists i, (14 <= List.length (monthGroup (Window.month w) temps))%nat /\
    isSpanAt (monthGroup (Window.month w) temps) i (Window.month w) w /\
    warmestFirst (monthGroup (Window.month w) temps) i.
Proof.
  intros Hf Hw.
  destruct (findWindows_Ok temps windows (Window.month w) Hf) as [Hlt Hge].
  assert (Hin : In w (filter (inMonth (Window.month w)) windows)).
  { apply filter_In. split; [exact Hw | apply String.eqb_refl]. }
  destruct (Nat.lt_ge_cases (List.length (monthGroup (Window.month w) temps)) 14) as [Hl|Hl].
  - rewrite (Hlt Hl) in Hin. destruct Hin.
  - destruct (Hge Hl) as (w' & i & Hfilter & Hspan & Hwarm).
    rewrite Hfilter in Hin. destruct Hin as [<-|[]]. eauto.
Qed.

(** C6: in every month group of at least 14 readings the window returned is
    cut at an offset [i] whose mean no span exceeds and that no offset with an
    equal mean precedes: of the spans that tie for the highest mean, the
    first one is selected. *)
Theorem detector_tie_break_earliest
  (temps : list Reading.t) (windows : list Window.t) (key : string) :
  findWindows temps = Ok windows ->
  (14 <= List.length (monthGroup key temps))%nat ->
  exists w i,
    filter (inMonth key) windows = [w] /\
    isSpanAt (monthGroup key temps) i key w /\
    (forall j, (j + 7 <= List.length (monthGroup key temps))%nat ->
       Num.gt (mean (span j (monthGroup key temps))) (Window.avgTemp w) = false) /\
    (forall j, (j + 7 <= List.length (monthGroup key temps))%nat ->
       Num.eq (mean (span j (monthGroup key temps))) (Window.avgTemp w) = true ->
       (i <= j)%nat).
Proof.
  intros Hf Hlen.
  destruct (findWindows_Ok temps windows key Hf) as [_ Hge].
  destruct (Hge Hlen) as (w & i & Hfilter & Hspan & Hwarm).
  exists w, i. split; [exact Hfilter|]. split; [exact Hspan|].
  destruct Hspan as (_ & _ & _ & Havg & _). rewrite Havg. split.
  - intros j Hj. apply Hwarm, Hj.
  - intros j Hj He. destruct (Nat.le_gt_cases i j) as [|Hlt]; [assumption|].
    destruct (Hwarm j Hj) as [_ Hne]. rewrite (Hne Hlt) in He. discriminate.
Qed.

Lemma detector_tie_break_earliest_witness :
  exists windows w i,
    findWindows Sample.everyOtherDay = Ok windows /\
    filter (inMonth "2024-01") windows = [w] /\
    isSpanAt (monthGroup "2024-01" Sample.everyOtherDay) i "2024-01" w.
Proof.
  destruct (findWindows Sample.everyOtherDay) as [windows|] eqn:E;
    [|vm_compute in E; discriminate].
  assert (Hlen : (14 <= List.length (monthGroup "2024-01" Sample.everyOtherDay))%nat)
    by (apply Nat.leb_le; vm_compute; reflexivity).
  destruct (detector_tie_break_earliest Sample.everyOtherDay windows "2024-01" E Hlen)
    as (w & i & Hfilter & Hspan & _).
  exists windows, w, i. auto.
Defined.

(** Eight spans of equal mean: the first one is the window. *)
Example tie_resolved_to_first_span :
  exists w, findWindows Sample.everyOtherDay = Ok [w] /\
    Window.startDate w = "2024-01-01" /\ Window.endDate w = "2024-01-13".
Proof. eexists. split; [vm_compute; reflexivity | split; reflexivity]. Qed.

Lemma consecutiveDays_nth (l : list Reading.t) (a b : Reading.t) (k : nat) :
  consecutiveDays (a :: l) -> nth_error (a :: l) (S k) = Some b ->
  exists d, dayNumber (Reading.date a) = Some d /\
            dayNumber (Reading.date b) = Some (d + Z.of_nat (S k)).
Proof.
  revert a b l. induction k as [|k IH]; intros a b l Hc Hn.
  - destruct l as [|b' l]; [discriminate|]. simpl in Hn. injection Hn as ->.
    simpl in Hc. destruct Hc as [Hab _].
    destruct (dayNumber (Reading.date a)) as [x|]; [|contradiction].
    destruct (dayNumber (Reading.date b)) as [y|]; [|contradiction].
    exists x. split; [reflexivity|]. f_equal. lia.
  - destruct l as [|a' l]; [discriminate|].
    destruct Hc as [Hab Hc]. change (nth_error (a' :: l) (S k) = Some b) in Hn.
    destruct (IH a' b l Hc Hn) as [d [Hd Hb]].
    destruct (dayNumber (Reading.date a)) as [x|]; [|contradiction].
    rewrite Hd in Hab. exists x. split; [reflexivity|]. rewrite Hb. f_equal. lia.
Qed.

(** C1 (amended): the start and end dates of every window returned are the
    dates of the first and the seventh of seven readings consecutive by
    position in the month's date-ordered group; the end date is six calendar
    days after the start date when those seven readings fall on consecutive
    calendar days. *)
Theorem window_spans_seven_readings
  (temps : list Reading.t) (windows : list Window.t) (w : Window.t) :
  findWindows temps = Ok windows -> In w windows ->
  exists i first last,
    Window.temperatures w = span i (monthGroup (Window.month w) temps) /\
    List.length (Window.temperatures w) = 7%nat /\
    nth_error (Window.temperatures w) 0 = Some first /\
    nth_error (Window.temperatures w) 6 = Some last /\
    Window.startDate w = Reading.date first /\
    Window.endDate w = Reading.date last /\
    (consecutiveDays (Window.temperatures w) ->
       exists d, dayNumber (Window.startDate w) = Some d /\
                 dayNumber (Window.endDate w) = Some (d + 6)).
Proof.
  intros Hf Hw.
  destruct (In_window_month temps windows w Hf Hw) as (i & _ & Hspan & _).
  destruct Hspan as (Hi & _ & Ht & _ & (first & Hfirst & Hs) & (last & Hlast & He)).
  exists i, first, last.
  assert (H0 : nth_error (Window.temperatures w) 0 = Some first)
    by (rewrite Ht, span_nth, Nat.add_0_r by lia; exact Hfirst).
  assert (H6 : nth_error (Window.temperatures w) 6 = Some last)
    by (rewrite Ht, span_nth by lia; exact Hlast).
  repeat split; try assumption.
  - rewrite Ht. unfold span, Arr.slice. rewrite length_firstn, length_skipn. lia.
  - intros Hc. destruct (Window.temperatures w) as [|a l]; [discriminate|].
    injection H0 as ->. rewrite Hs, He.
    destruct (consecutiveDays_nth l first last 5 Hc H6) as [d [Hd Hl]].
    exists d. split; [exact Hd | exact Hl].
Qed.

Lemma window_spans_seven_readings_witness :
  exists w i, findWindows Sample.twentyDays = Ok [w] /\
    Window.temperatures w = span i (monthGroup (Window.month w) Sample.twentyDays).
Proof.
  destruct (findWindows Sample.twentyDays) as [[|w [|]]|] eqn:E;
    try (vm_compute in E; discriminate).
  destruct (window_spans_seven_readings Sample.twentyDays [w] w E (or_introl eq_refl))
    as (i & _ & _ & Hspan & _).
  exists w, i. split; [reflexivity | exact Hspan].
Defined.

(** C1 as stated fails: fourteen readings taken every second day of one
    month give a window whose end date is twelve days after its start. *)
Lemma window_of_gappy_month_is_longer :
  ~ (forall temps windows w,
       findWindows temps = Ok windows -> In w windows ->
       addDays (Window.startDate w) 6 = Ok (Window.endDate w)).
Proof.
  intros H. pose proof (H Sample.everyOtherDay) as H'.
  remember (findWindows Sample.everyOtherDay) as r eqn:E.
  vm_compute in E. subst r.
  specialize (H' _ _ eq_refl (or_introl eq_refl)).
  vm_compute in H'. discriminate.
Qed.

(** ** Cycle length *)

Lemma calculateCycleLength_range (tz : Z) (w : Window.t) (c : Z) :
  calculateCycleLength tz w = Some c -> 21 <= c <= 35.
Proof.
  unfold calculateCycleLength.
  destruct (JsDate.getDate tz (JsDate.parse (Window.startDate w))); [|discriminate].
  intros H. injection H as <-. lia.
Qed.

Lemma parse_midnight (s : string) (t : Z) :
  JsDate.parse s = Some t -> exists d, t = d * JsDate.msPerDay.
Proof.
  unfold JsDate.parse.
  destruct s as [|y1 [|y2 [|y3 [|y4 [|s1 [|m1 [|m2 [|s2 [|d1 [|d2 [|? ?]]]]]]]]]]];
    try discriminate.
  destruct (JsDate.digits2 y1 y2) as [yh|]; try discriminate.
  destruct (JsDate.digits2 y3 y4) as [yl|]; try discriminate.
  destruct (JsDate.digits2 m1 m2) as [m|]; try discriminate.
  destruct (JsDate.digits2 d1 d2) as [d|]; try discriminate.
  match goal with |- (if ?b then _ else _) = _ -> _ => destruct b end; [|discriminate].
  unfold JsDate.TimeClip, JsDate.MakeDate.
  match goal with |- (if ?b then _ else _) = _ -> _ => destruct b end; [discriminate|].
  intros H. injection H as <-. eexists. rewrite Z.add_0_r. reflexivity.
Qed.

(** East of Greenwich (and on it) the estimate is the stated formula. *)
Lemma calculateCycleLength_east (tz : Z) (w : Window.t) :
  0 <= tz < JsDate.msPerDay ->
  calculateCycleLength tz w =
  option_map (fun d => clamp (28 + (d - 14)) 21 35) (dayOfMonth (Window.startDate w)).
Proof.
  intros Htz. unfold calculateCycleLength, dayOfMonth, JsDate.getDate.
  destruct (JsDate.parse (Window.startDate w)) as [t|] eqn:E; cbn [option_map];
    [|reflexivity].
  destruct (parse_midnight _ _ E) as [d ->]. unfold clamp.
  replace (JsDate.DateFromTime (JsDate.LocalTime tz (d * JsDate.msPerDay)))
    with (JsDate.DateFromTime (d * JsDate.msPerDay)); [reflexivity|].
  unfold JsDate.DateFromTime, JsDate.LocalTime, JsDate.Day. do 2 f_equal.
  unfold JsDate.msPerDay in *.
  rewrite Z.div_add_l by lia. rewrite Z.div_mul by lia.
  rewrite Z.div_small by lia. lia.
Qed.

Lemma Math_round_mean_range (a b : Z) :
  21 <= a <= 35 -> 21 <= b <= 35 ->
  21 <= Math_round ((inject_Z a + inject_Z b) / 2) <= 35.
Proof.
  intros Ha Hb. unfold Math_round. split.
  - rewrite <- (Qfloor_Z 21). apply Qfloor_resp_le.
    unfold Qle, Qplus, Qdiv, Qmult, Qinv, inject_Z; simpl. lia.
  - change 35 with (Qfloor (71 # 2)). apply Qfloor_resp_le.
    unfold Qle, Qplus, Qdiv, Qmult, Qinv, inject_Z; simpl. lia.
Qed.

(** Whatever the time zone, the cycle length of a prediction is within
    21 and 35. *)
Lemma prediction_cycleLength_range (tz : Z) (windows : list Window.t) (p : Prediction.t) :
  predictNextFertileWindow tz windows = Ok (Some p) ->
  21 <= Prediction.cycleLength p <= 35.
Proof.
  unfold predictNextFertileWindow.
  destruct (List.length windows <? 2)%nat; [discriminate|].
  destruct (Arr.lastTwo windows) as [|w0 [|w1 [|? ?]]]; try discriminate.
  intros H. apply bind_Ok in H as [startDate [_ H]].
  apply bind_Ok in H as [endDate [_ H]].
  destruct (calculateCycleLength tz w0) as [c1|] eqn:E1; [|discriminate].
  destruct (calculateCycleLength tz w1) as [c2|] eqn:E2; [|discriminate].
  injection H as <-. simpl.
  apply Math_round_mean_range; eapply calculateCycleLength_range; eassumption.
Qed.

(** C7: five hours west of Greenwich the estimate for a window that starts
    on 2024-01-10 is 23, computed from day 9, where the formula on the day of
    the month of the start date gives 24. *)
Theorem calculateCycleLength_west_of_Greenwich :
  calculateCycleLength Sample.utcMinus5 (Sample.window "2024-01" "2024-01-10" "2024-01-16")
    = Some 23 /\
  option_map (fun d => clamp (28 + (d - 14)) 21 35) (dayOfMonth "2024-01-10") = Some 24.
Proof. split; vm_compute; reflexivity. Qed.

(** C2: from windows that start on 2024-01-10 and 2024-02-09 the estimates
    are 24 and 23 and their mean 23.5; the predicted start is 23 days after
    2024-02-09 while the cycle length given is 24, and the end is 6 days
    after the start. *)
Theorem prediction_start_drops_half_day :
  predictNextFertileWindow 0 Sample.halfDayWindows
    = Ok (Some (Prediction.mk "2024-03-03" "2024-03-09" 24)) /\
  addDays "2024-02-09" 24 = Ok "2024-03-04" /\
  addDays "2024-02-09" 23 = Ok "2024-03-03" /\
  addDays "2024-03-03" 6 = Ok "2024-03-09".
Proof. repeat split; vm_compute; reflexivity. Qed.

(** ** Import *)

(** C10: a file whose header names an ovulation column and whose only data
    row has the date and the temperature but stops before that column is
    not imported: reading the row raises an exception and the import ends
    with the error alert. *)
Theorem import_fails_on_row_without_ovulation_cell :
  importCSV [] Sample.shortRowCSV = ImportFailed TypeError /\
  (List.length (Str.split "," "2024-02-01,98.2") >= Nat.max 0 1 + 1)%nat.
Proof. split; vm_compute; [reflexivity | lia]. Qed.

(** C3: importing a file that has two rows for 2024-02-01 into the empty
    store leads to a store with two readings of that date. *)
Theorem import_keeps_repeated_date :
  exists r1 r2,
    importCSV [] Sample.repeatedDateCSV = Imported [r1; r2] 2 /\
    Reading.date r1 = "2024-02-01" /\ Reading.date r2 = "2024-02-01" /\
    ~ NoDup (map Reading.date (storeAfterImport [] (importCSV [] Sample.repeatedDateCSV))).
Proof.
  do 2 eexists. split; [vm_compute; reflexivity|].
  split; [reflexivity|]. split; [reflexivity|].
  intros H. vm_compute in H. inversion H as [|? ? Hn _]. apply Hn. left. reflexivity.
Qed.

(** ** Direct entry *)



Lemma findIndex_Some {A} (p : A -> bool) (l : list A) (i : nat) :
  Str.findIndex p l = Some i ->
  exists x, nth_error l i = Some x /\ p x = true.
Proof.
  revert i. induction l as [|y l IH]; simpl; intros i H; [discriminate|].
  destruct (p y) eqn:E.
  - injection H as <-. exists y. auto.
  - destruct (Str.findIndex p l) as [k|]; [|discriminate].
    injection H as <-. apply (IH k eq_refl).
Qed.

Lemma findIndex_None {A} (p : A -> bool) (l : list A) :
  Str.findIndex p l = None -> forall x, In x l -> p x = false.
Proof.
  induction l as [|y l IH]; simpl; intros H x Hx; [contradiction|].
  destruct (p y) eqn:E; [discriminate|].
  destruct (Str.findIndex p l); [discriminate|].
  destruct Hx as [<-|Hx]; auto.
Qed.

Lemma setAt_dates (i : nat) (x y : Reading.t) (l : list Reading.t) :
  nth_error l i = Some y -> Reading.date x = Reading.date y ->
  map Reading.date (Arr.setAt i x l) = map Reading.date l.
Proof.
  revert i. induction l as [|z l IH]; intros [|i] H E; simpl in *; try discriminate.
  - injection H as ->. rewrite E. reflexivity.
  - f_equal. apply IH; assumption.
Qed.

Lemma setAt_In {A} (i : nat) (x : A) (l : list A) (z : A) :
  In z (Arr.setAt i x l) -> z = x \/ In z l.
Proof.
  revert i. induction l as [|y l IH]; intros [|i]; simpl; try tauto.
  - intros [<-|H]; auto.
  - intros [<-|H]; auto. destruct (IH i H); auto.
Qed.

Lemma setAt_nth {A} (i : nat) (x : A) (l : list A) :
  (i < List.length l)%nat -> nth_error (Arr.setAt i x l) i = Some x.
Proof.
  revert i. induction l as [|y l IH]; intros [|i] H; simpl in *; try lia; [reflexivity|].
  apply IH. lia.
Qed.

(** Direct entry keeps the dates of the store distinct, and a reading
    entered for a date already there takes the place of the stored one. *)
Lemma upsert_keeps_dates_unique
  (temps : list Reading.t) (form : Form.t) (updated : list Reading.t) :
  NoDup (map Reading.date temps) ->
  addTemperature temps form = AddStored updated ->
  NoDup (map Reading.date updated) /\
  (In (Form.selectedDate form) (map Reading.date temps) ->
     map Reading.date updated = map Reading.date temps) /\
  exists r, In r updated /\
    r = Reading.mk (Form.selectedDate form) (Num.parseFloat (Form.newTemp form))
          (orNull (Form.cervixHeight form)) (Form.ovulationStrip form)
          (JsDate.parse (Form.selectedDate form)).
Proof.
  intros Hnd. unfold addTemperature.
  destruct (_ || _); [discriminate|].
  destruct (outOfRange _); [discriminate|].
  set (newEntry := Reading.mk _ _ _ _ _).
  destruct (Str.findIndex _ temps) as [i|] eqn:Ei; intros H; injection H as <-.
  - destruct (findIndex_Some _ _ _ Ei) as [y [Hy Hp]]. apply String.eqb_eq in Hp.
    assert (Hd : map Reading.date (Arr.setAt i newEntry temps) = map Reading.date temps)
      by (apply (setAt_dates i newEntry y); [exact Hy | symmetry; exact Hp]).
    split; [rewrite Hd; exact Hnd|]. split; [intros _; exact Hd|].
    exists newEntry. split; [|reflexivity].
    apply (nth_error_In _ i). apply setAt_nth.
    apply nth_error_Some. rewrite Hy. discriminate.
  - pose proof (findIndex_None _ _ Ei) as Hnone.
    assert (Hnew : ~ In (Form.selectedDate form) (map Reading.date temps)).
    { intros Hin. apply in_map_iff in Hin as [x [Hx Hin]].
      specialize (Hnone x Hin). simpl in Hnone. rewrite Hx, String.eqb_refl in Hnone.
      discriminate. }
    assert (Hperm : Permutation (sortByDate (temps ++ [newEntry])%list) (newEntry :: temps)).
    { unfold sortByDate. rewrite sort_perm. symmetry. apply Permutation_cons_append. }
    split; [|split].
    + eapply Permutation_NoDup; [symmetry; apply Permutation_map, Hperm|].
      simpl. constructor; assumption.
    + intros Hin. contradiction.
    + exists newEntry. split; [|reflexivity].
      eapply Permutation_in; [symmetry; exact Hperm | left; reflexivity].
Qed.

(** ** Import leaves the store's readings alone *)

Lemma importRow_new (cols : Columns) (existingDates : list string) (line : string)
  (r : Reading.t) :
  importRow cols existingDates line = Ok (Some r) ->
  ~ In (Reading.date r) existingDates.
Proof.
  unfold importRow.
  destruct (_ <? _)%nat; [discriminate|].
  destruct (nth_error _ (dateIndex cols)); [|discriminate].
  destruct (nth_error _ (tempIndex cols)); [|discriminate].
  destruct (rowDate _) as [date|]; [|discriminate].
  destruct (outOfRange _); [discriminate|].
  destruct (JsDate.ofString date); [|discriminate].
  destruct date as [date|]; [|discriminate].
  destruct (existsb (String.eqb date) existingDates) eqn:E; [discriminate|].
  destruct (optionalCell (ovulationIndex cols) _); [|discriminate].
  intros H. injection H as <-. simpl. intros Hin.
  assert (existsb (String.eqb date) existingDates = true).
  { apply existsb_exists. exists date. split; [exact Hin | apply String.eqb_refl]. }
  congruence.
Qed.

Lemma importRows_new (cols : Columns) (existingDates : list string) (lines : list string)
  (rs : list Reading.t) :
  importRows cols existingDates lines = Ok rs ->
  forall r, In r rs -> ~ In (Reading.date r) existingDates.
Proof.
  revert rs. induction lines as [|line lines IH]; simpl; intros rs H.
  - injection H as <-. intros r [].
  - apply bind_Ok in H as [o [Ho H]]. apply bind_Ok in H as [rs' [Hrs H]].
    injection H as <-. intros r Hr.
    destruct o as [x|]; [destruct Hr as [<-|Hr]|].
    + eapply importRow_new, Ho.
    + eapply IH; eauto.
    + eapply IH; eauto.
Qed.

(** C9: whatever the outcome of an import, the store afterwards is the
    store before together with readings of dates that were not in it: every
    stored reading is still there unchanged, and a reading whose date was
    already stored is there after the import only if it was there before. *)
Theorem import_keeps_existing_readings (temps : list Reading.t) (csvText : string) :
  exists importedData,
    Permutation (storeAfterImport temps (importCSV temps csvText)) (temps ++ importedData) /\
    (forall r, In r importedData -> ~ In (Reading.date r) (map Reading.date temps)) /\
    (forall r, In r temps -> In r (storeAfterImport temps (importCSV temps csvText))) /\
    (forall r, In r (storeAfterImport temps (importCSV temps csvText)) ->
       In (Reading.date r) (map Reading.date temps) -> In r temps).
Proof.
  assert (Hgen : forall after importedData,
    Permutation after (temps ++ importedData) ->
    (forall r, In r importedData -> ~ In (Reading.date r) (map Reading.date temps)) ->
    (forall r, In r temps -> In r after) /\
    (forall r, In r after -> In (Reading.date r) (map Reading.date temps) -> In r temps)).
  { intros after importedData Hp Hnew. split.
    - intros r Hr. eapply Permutation_in; [symmetry; exact Hp|].
      apply in_or_app. auto.
    - intros r Hr Hd. apply (Permutation_in _ Hp) in Hr.
      apply in_app_or in Hr as [Hr|Hr]; [exact Hr|].
      exfalso. exact (Hnew r Hr Hd). }
  assert (Hsame : exists importedData,
    Permutation temps (temps ++ importedData) /\
    (forall r, In r importedData -> ~ In (Reading.date r) (map Reading.date temps))).
  { exists []. rewrite app_nil_r. split; [reflexivity | intros r []]. }
  unfold importCSV.
  destruct (Str.split _ _) as [|headerLine dataLines];
    [destruct Hsame as (i & ? & ?); exists i; simpl; intuition eauto; eapply Hgen; eauto|].
  destruct (findColumns headerLine) as [cols|];
    [|destruct Hsame as (i & ? & ?); exists i; simpl; intuition eauto; eapply Hgen; eauto].
  destruct (importRows cols (map Reading.date temps) dataLines) as [[|r rs]|e] eqn:E;
    try (destruct Hsame as (i & ? & ?); exists i; simpl; intuition eauto; eapply Hgen; eauto).
  exists (r :: rs). simpl.
  assert (Hp : Permutation (sortByDate (temps ++ r :: rs)%list) (temps ++ r :: rs))
    by apply sort_perm.
  pose proof (importRows_new _ _ _ _ E) as Hnew.
  split; [exact Hp|]. split; [exact Hnew|]. eapply Hgen; eauto.
Qed.

(** ** Strings: separators and white space *)

Lemma includes_char (c : ascii) (s : string) :
  Str.includes (String c EmptyString) s = hasChar c s.
Proof.
  induction s as [|a s IH]; [reflexivity|].
  cbn [Str.includes hasChar prefix]. rewrite IH.
  destruct (ascii_dec c a) as [->|Hn].
  - rewrite Ascii.eqb_refl. destruct s; reflexivity.
  - destruct (Ascii.eqb_spec a c); [congruence | reflexivity].
Qed.

Lemma hasChar_app (c : ascii) (a b : string) :
  hasChar c (a ++ b) = hasChar c a || hasChar c b.
Proof.
  induction a as [|x a IH]; simpl; [reflexivity|]. rewrite IH, orb_assoc. reflexivity.
Qed.

Lemma split_nonempty (sep : ascii) (s : string) : Str.split sep s <> [].
Proof.
  induction s as [|c s IH]; simpl; [discriminate|].
  destruct (Str.split sep s); [congruence|]. destruct (Ascii.eqb c sep); discriminate.
Qed.

Lemma split_none (sep : ascii) (s : string) :
  hasChar sep s = false -> Str.split sep s = [s].
Proof.
  induction s as [|c s IH]; simpl; [reflexivity|].
  intros H. apply orb_false_iff in H as [Hc Hs]. rewrite (IH Hs), Hc. reflexivity.
Qed.

Lemma split_app (sep : ascii) (a b : string) :
  hasChar sep a = false ->
  Str.split sep (a ++ String sep b) = a :: Str.split sep b.
Proof.
  induction a as [|c a IH]; simpl.
  - intros _. pose proof (split_nonempty sep b) as Hne.
    destruct (Str.split sep b); [congruence|]. rewrite Ascii.eqb_refl. reflexivity.
  - intros H. apply orb_false_iff in H as [Hc Ha]. rewrite (IH Ha), Hc. reflexivity.
Qed.



Lemma trimStart_id (s : string) : firstNonWs s = true -> Str.trimStart s = s.
Proof.
  destruct s as [|c s]; simpl; [reflexivity|].
  destruct (Str.isWhiteSpace c); [discriminate | reflexivity].
Qed.

Lemma trimEnd_id (s : string) : lastNonWs s = true -> Str.trimEnd s = s.
Proof.
  induction s as [|c s IH]; [reflexivity|].
  destruct s as [|d s].
  - simpl. destruct (Str.isWhiteSpace c); [discriminate | reflexivity].
  - intros H. change (lastNonWs (String d s) = true) in H.
    change (Str.trimEnd (String c (String d s)))
      with (match Str.trimEnd (String d s) with
            | EmptyString => if Str.isWhiteSpace c then EmptyString else String c EmptyString
            | t => String c t
            end).
    rewrite (IH H). reflexivity.
Qed.

Lemma trim_id (s : string) : firstNonWs s = true -> lastNonWs s = true -> Str.trim s = s.
Proof.
  intros Hf Hl. unfold Str.trim. rewrite (trimStart_id s Hf). apply trimEnd_id, Hl.
Qed.


Lemma lastNonWs_app (a b : string) : lastNonWs b = true -> lastNonWs (a ++ b) = true.
Proof.
  intros Hb. induction a as [|c a IH]; [exact Hb|].
  change (lastNonWs (String c (a ++ b)) = true).
  destruct (a ++ b) as [|d s]; [discriminate IH | exact IH].
Qed.

Lemma lastNonWs_cons (c : ascii) (s : string) : lastNonWs s = true -> lastNonWs (String c s) = true.
Proof. apply (lastNonWs_app (String c "")). Qed.



(** ** Digits *)


(** ** Export then import *)

Lemma eqb_eq (x y : Num.number) : Num.eqb x y = true -> x = y.
Proof.
  destruct x as [a|a| |a m e], y as [b|b| |b m' e']; simpl; try discriminate;
    try reflexivity.
  - intros H. apply Bool.eqb_prop in H. congruence.
  - intros H. apply Bool.eqb_prop in H. congruence.
  - intros H. apply andb_true_iff in H as [H He]. apply andb_true_iff in H as [Hs Hm].
    apply Bool.eqb_prop in Hs. apply Pos.eqb_eq in Hm. apply Z.eqb_eq in He. congruence.
Qed.











(** ** Stores the operations lead to *)

Lemma trimStart_cases (s : string) :
  Str.trimStart s = "" \/ firstNonWs (Str.trimStart s) = true.
Proof.
  induction s as [|c s IH]; simpl; [auto|].
  destruct (Str.isWhiteSpace c) eqn:E; [exact IH|]. right. simpl. rewrite E. reflexivity.
Qed.

Lemma trimEnd_cases (s : string) :
  Str.trimEnd s = "" \/
  (lastNonWs (Str.trimEnd s) = true /\ firstNonWs (Str.trimEnd s) = firstNonWs s).
Proof.
  induction s as [|c s IH]; [auto|]. cbn [Str.trimEnd].
  destruct (Str.trimEnd s) as [|d t] eqn:E.
  - destruct (Str.isWhiteSpace c) eqn:Ec; [auto|]. right. simpl. rewrite Ec. auto.
  - right. destruct IH as [IH|[IH _]]; [discriminate|]. split; [|reflexivity].
    apply lastNonWs_cons, IH.
Qed.

Lemma trim_trimmed (s : string) : Str.trim s <> "" -> Str.trim (Str.trim s) = Str.trim s.
Proof.
  intros Hne.
  assert (H : firstNonWs (Str.trim s) = true /\ lastNonWs (Str.trim s) = true).
  { unfold Str.trim in *.
    destruct (trimEnd_cases (Str.trimStart s)) as [E|[Hl Hf]]; [contradiction|].
    split; [|exact Hl]. rewrite Hf.
    destruct (trimStart_cases s) as [E|E]; [|exact E].
    rewrite E in Hne. contradiction. }
  apply trim_id; apply H.
Qed.

Lemma hasChar_trimStart (c : ascii) (s : string) :
  hasChar c s = false -> hasChar c (Str.trimStart s) = false.
Proof.
  induction s as [|a s IH]; simpl; [auto|]. intros H.
  destruct (Str.isWhiteSpace a); [|exact H].
  apply orb_false_iff in H as [_ H]. auto.
Qed.

Lemma hasChar_trimEnd (c : ascii) (s : string) :
  hasChar c s = false -> hasChar c (Str.trimEnd s) = false.
Proof.
  induction s as [|a s IH]; [auto|]. cbn [Str.trimEnd hasChar]. intros H.
  apply orb_false_iff in H as [Ha H]. specialize (IH H).
  destruct (Str.trimEnd s) as [|d t].
  - destruct (Str.isWhiteSpace a); [reflexivity|]. simpl. rewrite Ha. reflexivity.
  - cbn [hasChar]. rewrite Ha. exact IH.
Qed.

Lemma hasChar_trim (c : ascii) (s : string) :
  hasChar c s = false -> hasChar c (Str.trim s) = false.
Proof. intros H. apply hasChar_trimEnd, hasChar_trimStart, H. Qed.

Lemma split_pieces (c sep : ascii) (s f : string) :
  (Ascii.eqb sep c = true \/ hasChar c s = false) ->
  In f (Str.split sep s) -> hasChar c f = false.
Proof.
  revert f. induction s as [|a s IH]; simpl; intros f Hc Hf.
  - destruct Hf as [<-|[]]. reflexivity.
  - assert (Hs : Ascii.eqb sep c = true \/ hasChar c s = false).
    { destruct Hc as [Hc|Hc]; [auto|]. apply orb_false_iff in Hc. tauto. }
    destruct (Str.split sep s) as [|w ws] eqn:E.
    + exfalso. exact (split_nonempty sep s E).
    + destruct (Ascii.eqb_spec a sep) as [->|Hn].
      * destruct Hf as [<-|Hf]; [reflexivity|]. apply IH; assumption.
      * destruct Hf as [<-|Hf]; [|apply IH; [assumption | right; assumption]].
        cbn [hasChar]. rewrite (IH w Hs (or_introl eq_refl)).
        destruct Hc as [Hc|Hc].
        -- apply Ascii.eqb_eq in Hc. subst c.
           destruct (Ascii.eqb_spec a sep); [contradiction | reflexivity].
        -- apply orb_false_iff in Hc as [-> _]. reflexivity.
Qed.

Lemma trimmed_cell_clean (line : string) (row : list string) (i : nat) (cell s : string) :
  hasChar "010" line = false -> row = Str.split "," line ->
  nth_error row i = Some cell -> orNull (Str.trim cell) = Some s -> cleanText s.
Proof.
  intros Hline -> Hcell Hs. apply nth_error_In in Hcell.
  unfold orNull in Hs. destruct (String.eqb_spec (Str.trim cell) ""); [discriminate|].
  injection Hs as <-. unfold cleanText. split; [assumption|]. split; [|split].
  - apply hasChar_trim. apply (split_pieces "," "," line); [left; reflexivity | exact Hcell].
  - apply hasChar_trim. apply (split_pieces "010" "," line); [right; exact Hline | exact Hcell].
  - apply trim_trimmed. assumption.
Qed.

Lemma importRow_storable (cols : Columns) (existingDates : list string) (line : string)
  (r : Reading.t) :
  hasChar "010" line = false ->
  importRow cols existingDates line = Ok (Some r) -> storable r.
Proof.
  intros Hline. unfold importRow.
  remember (Str.split "," line) as row eqn:Erow.
  destruct (_ <? _)%nat; [discriminate|].
  destruct (nth_error row (dateIndex cols)); [|discriminate].
  destruct (nth_error row (tempIndex cols)); [|discriminate].
  destruct (rowDate _) as [date|]; [|discriminate].
  destruct (outOfRange _) eqn:Er; [discriminate|].
  destruct (JsDate.ofString date) as [t|] eqn:Ed; [|discriminate].
  destruct date as [date|]; [|discriminate].
  destruct (existsb (String.eqb date) existingDates); [discriminate|].
  destruct (optionalCell (ovulationIndex cols) row); [|discriminate].
  intros H. injection H as <-. unfold storable. cbn [Reading.date Reading.dateObj
    Reading.temperature Reading.cervixHeight JsDate.ofString] in *.
  split; [congruence|]. split; [symmetry; exact Ed|]. split; [exact Er|].
  unfold optionalCell. destruct (cervixIndex cols) as [i|]; cbn [option_map].
  - destruct (nth_error row i) as [cell|] eqn:Ec; cbn [option_map]; [|exact I].
    destruct (orNull (Str.trim cell)) as [c|] eqn:Eo; [|exact I].
    eapply trimmed_cell_clean; eauto.
  - exact I.
Qed.

Lemma importRows_storable (cols : Columns) (existingDates : list string) (lines : list string)
  (rs : list Reading.t) :
  Forall (fun l => hasChar "010" l = false) lines ->
  importRows cols existingDates lines = Ok rs -> Forall storable rs.
Proof.
  intros Hl. revert rs. induction Hl as [|line lines Hline Hl IH]; simpl; intros rs H.
  - injection H as <-. constructor.
  - apply bind_Ok in H as [o [Ho H]]. apply bind_Ok in H as [rs' [Hrs H]].
    injection H as <-. destruct o as [x|]; [constructor|]; auto.
    eapply importRow_storable; eauto.
Qed.

Lemma sortByDate_Forall (P : Reading.t -> Prop) (l : list Reading.t) :
  Forall P l -> Forall P (sortByDate l).
Proof.
  intros H. apply Forall_forall. intros x Hx. rewrite Forall_forall in H.
  apply H. apply (sort_In byDate), Hx.
Qed.

Lemma importCSV_storable (temps : list Reading.t) (csvText : string) :
  Forall storable temps -> Forall storable (storeAfterImport temps (importCSV temps csvText)).
Proof.
  intros Ht. unfold importCSV.
  destruct (Str.split "010" (Str.trim csvText)) as [|headerLine dataLines] eqn:El;
    [exact Ht|].
  destruct (findColumns headerLine) as [cols|]; [|exact Ht].
  destruct (importRows cols (map Reading.date temps) dataLines) as [[|r rs]|e] eqn:E;
    try exact Ht.
  cbn [storeAfterImport]. apply sortByDate_Forall, Forall_app. split; [exact Ht|].
  eapply importRows_storable; [|exact E].
  apply Forall_forall. intros l Hin.
  apply (split_pieces "010" "010" (Str.trim csvText)); [left; reflexivity|].
  rewrite El. right. exact Hin.
Qed.

Lemma addTemperature_storable (temps : list Reading.t) (form : Form.t) :
  formControls form -> Forall storable temps ->
  Forall storable (storeAfterAdd temps (addTemperature temps form)).
Proof.
  intros [Hdate Hsel] Ht. unfold addTemperature.
  destruct (String.eqb_spec (Form.newTemp form) ""); cbn [orb]; [exact Ht|].
  destruct (String.eqb_spec (Form.selectedDate form) "") as [|Hd]; [exact Ht|].
  destruct (outOfRange (Num.parseFloat (Form.newTemp form))) eqn:Er; [exact Ht|].
  set (newEntry := Reading.mk _ _ _ _ _).
  assert (Hnew : storable newEntry).
  { unfold storable, newEntry. cbn [Reading.date Reading.dateObj Reading.temperature
      Reading.cervixHeight].
    split; [tauto|]. split; [reflexivity|]. split; [exact Er|].
    destruct Hsel as [<-|[<-|[<-|[<-|[]]]]]; cbn [orNull String.eqb];
      try exact I; unfold cleanText; repeat split; try discriminate; reflexivity. }
  destruct (Str.findIndex _ temps) as [i|]; cbn [storeAfterAdd].
  - apply Forall_forall. intros x Hx. apply setAt_In in Hx as [->|Hx]; [exact Hnew|].
    rewrite Forall_forall in Ht. auto.
  - apply sortByDate_Forall, Forall_app.
    split; [exact Ht | constructor; [exact Hnew | constructor]].
Qed.

(** Every store the operations lead to holds storable readings only. *)
Lemma reachable_storable (temps : list Reading.t) : reachable temps -> Forall storable temps.
Proof.
  induction 1 as [|temps form _ IH Hf|temps csvText _ IH].
  - constructor.
  - apply addTemperature_storable; assumption.
  - apply importCSV_storable; assumption.
Qed.



(** ** Scenarios *)

(** Seven warm days in a month of twenty readings are the month's window. *)
Example warm_week_is_the_window :
  exists w, findWindows Sample.twentyDays = Ok [w] /\
    Window.month w = "2024-01" /\ Window.startDate w = "2024-01-10" /\
    Window.endDate w = "2024-01-16" /\ Num.toString (Window.avgTemp w) = "98".
Proof. eexists. split; [vm_compute; reflexivity | repeat split; vm_compute; reflexivity]. Qed.

(** Of three rows one is imported: the second has no such date, the third
    is out of range. *)
Example scenario_import_one_of_three :
  exists r, importCSV [] Sample.scenarioCSV = Imported [r] 1 /\ Reading.date r = "2024-02-01".
Proof. eexists. split; [vm_compute; reflexivity | reflexivity]. Qed.

(** A row that stops before the cervix column, in a file with no ovulation
    column, is imported with no cervix height and a negative strip. *)
Example import_row_without_cervix_cell :
  exists r, importCSV [] Sample.shortCervixCSV = Imported [r] 1 /\
    Reading.cervixHeight r = None /\ Reading.ovulationStrip r = false.
Proof. eexists. split; [vm_compute; reflexivity | split; reflexivity]. Qed.

(** The store with a date twice is one the operations lead to. *)
Example repeated_date_store_reachable :
  reachable (storeAfterImport [] (importCSV [] Sample.repeatedDateCSV)).
Proof. exact (reach_import [] Sample.repeatedDateCSV reach_empty). Qed.

(** Stores the operations lead to hold valid dates only. *)
Lemma reachable_validDate (temps : list Reading.t) : reachable temps -> Forall validDate temps.
Proof.
  intros H. apply reachable_storable in H. eapply Forall_impl; [|exact H].
  intros r (Hd & _). exact Hd.
Qed.

(** Reading a row raises an exception only when the header has an ovulation
    column and the row has no cell there. *)
Lemma importRow_throws_only_without_ovulation_cell
  (cols : Columns) (existingDates : list string) (line : string) (e : JsError) :
  importRow cols existingDates line = Throw e ->
  exists i, ovulationIndex cols = Some i /\ nth_error (Str.split "," line) i = None.
Proof.
  unfold importRow. remember (Str.split "," line) as row eqn:Erow.
  destruct (Nat.ltb_spec (List.length row) (Nat.max (dateIndex cols) (tempIndex cols) + 1))
    as [Hlt|Hge]; [discriminate|].
  destruct (nth_error row (dateIndex cols)) eqn:Ed;
    [|apply nth_error_None in Ed; lia].
  destruct (nth_error row (tempIndex cols)) eqn:Et;
    [|apply nth_error_None in Et; lia].
  destruct (rowDate _) as [date|]; [|discriminate].
  destruct (outOfRange _); [discriminate|].
  destruct (JsDate.ofString date); [|discriminate].
  destruct date as [date|]; [|discriminate].
  destruct (existsb (String.eqb date) existingDates); [discriminate|].
  destruct (optionalCell (ovulationIndex cols) row) eqn:Eo; [discriminate|].
  unfold optionalCell in Eo.
  destruct (ovulationIndex cols) as [i|]; [|discriminate].
  destruct (nth_error row i) eqn:Ei; [discriminate|]. intros _. eauto.
Qed.

(** ** Calendar *)

Lemma rangeAll_spec (f : Z -> bool) (n : positive) (base : Z) :
  rangeAll f n base = true -> forall z, base <= z < base + Zpos n -> f z = true.
Proof.
  revert base. induction n as [n IH|n IH|]; simpl; intros base H z Hz.
  - apply andb_true_iff in H as [H H2]. apply andb_true_iff in H as [H0 H1].
    destruct (Z.eq_dec z base) as [->|Hne]; [exact H0|].
    destruct (Z_lt_ge_dec z (base + 1 + Zpos n)).
    + apply (IH _ H1). lia.
    + apply (IH _ H2). lia.
  - apply andb_true_iff in H as [H1 H2].
    destruct (Z_lt_ge_dec z (base + Zpos n)).
    + apply (IH _ H1). lia.
    + apply (IH _ H2). lia.
  - assert (z = base) by lia. subst. exact H.
Qed.

Lemma eraDays_ok (doe : Z) : 0 <= doe < 146097 -> eraDayOk doe = true.
Proof.
  apply (rangeAll_spec eraDayOk 146097 0). vm_compute. reflexivity.
Qed.

Lemma doeOfCivil_day (yoe m d : Z) :
  JsDate.doeOfCivil yoe m d = JsDate.doeOfCivil yoe m 1 + d - 1.
Proof. unfold JsDate.doeOfCivil. lia. Qed.

Lemma civilFromDays_inverse (z : Z) :
  let '(y, m, d) := JsDate.civilFromDays z in
  JsDate.daysFromCivil y m 1 + d - 1 = z /\ 1 <= m <= 12 /\ 1 <= d <= 31.
Proof.
  unfold JsDate.civilFromDays.
  set (z' := z + 719468). set (era := z' / 146097). set (doe := z' - era * 146097).
  assert (Hdoe : 0 <= doe < 146097).
  { unfold doe, era. pose proof (Z.mod_pos_bound z' 146097 eq_refl).
    rewrite Z.mod_eq in H by lia. lia. }
  pose proof (eraDays_ok doe Hdoe) as Hok. unfold eraDayOk in Hok.
  destruct (JsDate.civilOfDoe doe) as [[yoe m] d].
  repeat (apply andb_true_iff in Hok as [Hok ?]).
  repeat match goal with
  | H : (_ <=? _) = true |- _ => apply Z.leb_le in H
  | H : (_ <? _) = true |- _ => apply Z.ltb_lt in H
  | H : (_ =? _) = true |- _ => apply Z.eqb_eq in H
  end.
  split; [|lia]. unfold JsDate.daysFromCivil.
  replace (if m <=? 2 then (if m <=? 2 then yoe + era * 400 + 1 else yoe + era * 400) - 1
           else (if m <=? 2 then yoe + era * 400 + 1 else yoe + era * 400))
    with (yoe + era * 400) by (destruct (m <=? 2); lia).
  rewrite Z.div_add, (Z.div_small yoe 400) by lia.
  replace (yoe + era * 400 - (0 + era) * 400) with yoe by lia.
  rewrite doeOfCivil_day in *. unfold doe, z' in *. lia.
Qed.

Lemma MakeDay_shift (t k : Z) :
  JsDate.MakeDay (JsDate.YearFromTime t) (JsDate.MonthFromTime t) (JsDate.DateFromTime t + k)
  = JsDate.Day t + k.
Proof.
  unfold JsDate.MakeDay, JsDate.YearFromTime, JsDate.MonthFromTime, JsDate.DateFromTime.
  pose proof (civilFromDays_inverse (JsDate.Day t)) as H.
  destruct (JsDate.civilFromDays (JsDate.Day t)) as [[y m] d]. cbn [fst snd].
  destruct H as (H & Hm & _).
  rewrite (Z.div_small (m - 1) 12), (Z.mod_small (m - 1) 12) by lia.
  replace (y + 0) with y by lia. replace (m - 1 + 1) with m by lia. lia.
Qed.

Lemma setDate_shift (tz day k : Z) (v : Q) :
  - JsDate.msPerDay < tz < JsDate.msPerDay ->
  Z.abs (day + k) <= 100000000 ->
  JsDate.ToIntegerOrInfinity v = JsDate.DateFromTime (day * JsDate.msPerDay + tz) + k ->
  JsDate.setDate tz (Some (day * JsDate.msPerDay)) (Some v)
  = Some ((day + k) * JsDate.msPerDay).
Proof.
  intros Htz Hb Hv. unfold JsDate.setDate, JsDate.LocalTime, JsDate.UTC.
  rewrite Hv, MakeDay_shift.
  unfold JsDate.MakeDate, JsDate.TimeWithinDay, JsDate.Day, JsDate.TimeClip.
  unfold JsDate.msPerDay in *.
  set (lt := day * 86400000 + tz).
  assert (Hlt : lt = 86400000 * (lt / 86400000) + lt mod 86400000)
    by (apply Z.div_mod; discriminate).
  replace ((lt / 86400000 + k) * 86400000 + lt mod 86400000 - tz)
    with ((day + k) * 86400000) by (unfold lt in *; lia).
  destruct (Z.ltb_spec 8640000000000000 (Z.abs ((day + k) * 86400000)));
    [lia | reflexivity].
Qed.

Lemma digit_range (c : ascii) (x : Z) : JsDate.digit c = Some x -> 0 <= x <= 9.
Proof.
  destruct c as [[] [] [] [] [] [] [] []]; vm_compute; intros H;
    try discriminate H; injection H as <-; split; discriminate.
Qed.

Lemma digits2_range (a b : ascii) (x : Z) : JsDate.digits2 a b = Some x -> 0 <= x <= 99.
Proof.
  unfold JsDate.digits2.
  destruct (JsDate.digit a) as [u|] eqn:Eu; [|discriminate].
  destruct (JsDate.digit b) as [v|] eqn:Ev; [|discriminate].
  apply digit_range in Eu, Ev. intros H.
  assert (Hx : x = 10 * u + v) by (injection H as <-; reflexivity). lia.
Qed.

Lemma daysFromCivil_range (y m d : Z) :
  0 <= y <= 9999 -> 1 <= m <= 12 -> 1 <= d <= 31 ->
  -1000000 <= JsDate.daysFromCivil y m d <= 3000000.
Proof.
  intros Hy Hm Hd. unfold JsDate.daysFromCivil, JsDate.doeOfCivil.
  destruct (m <=? 2); Z.to_euclidean_division_equations; lia.
Qed.

(** A valid date is midnight of a day within reach of every prediction. *)
Lemma parse_day (s : string) (t : Z) :
  JsDate.parse s = Some t ->
  exists day, t = day * JsDate.msPerDay /\ -1000000 <= day <= 3000000.
Proof.
  unfold JsDate.parse.
  destruct s as [|y1 [|y2 [|y3 [|y4 [|s1 [|m1 [|m2 [|s2 [|d1 [|d2 [|? ?]]]]]]]]]]];
    try discriminate.
  destruct (JsDate.digits2 y1 y2) as [yh|] eqn:E1; try discriminate.
  destruct (JsDate.digits2 y3 y4) as [yl|] eqn:E2; try discriminate.
  destruct (JsDate.digits2 m1 m2) as [m|] eqn:E3; try discriminate.
  destruct (JsDate.digits2 d1 d2) as [d|] eqn:E4; try discriminate.
  apply digits2_range in E1, E2, E4.
  match goal with |- (if ?b then _ else _) = _ -> _ => destruct b eqn:Eb end; [|discriminate].
  repeat (apply andb_true_iff in Eb as [Eb ?]).
  repeat match goal with
  | H : (_ <=? _) = true |- _ => apply Z.leb_le in H
  end.
  unfold JsDate.TimeClip, JsDate.MakeDate.
  match goal with |- (if ?b then _ else _) = _ -> _ => destruct b end; [discriminate|].
  intros H'. rewrite Z.add_0_r in H'.
  exists (JsDate.daysFromCivil (100 * yh + yl) m d). split; [congruence|].
  assert (JsDate.daysInMonth (100 * yh + yl) m <= 31).
  { unfold JsDate.daysInMonth.
    repeat match goal with |- context [if ?b then _ else _] => destruct b end; lia. }
  apply daysFromCivil_range; lia.
Qed.

Lemma DateFromTime_range (t : Z) : 1 <= JsDate.DateFromTime t <= 31.
Proof.
  unfold JsDate.DateFromTime. pose proof (civilFromDays_inverse (JsDate.Day t)) as H.
  destruct (JsDate.civilFromDays (JsDate.Day t)) as [[y m] d]. cbn [snd]. tauto.
Qed.

Lemma trunc_plus_mean (a c1 c2 : Z) :
  0 <= a -> 0 <= c1 + c2 ->
  JsDate.ToIntegerOrInfinity (inject_Z a + (inject_Z c1 + inject_Z c2) / 2)
  = a + (c1 + c2) / 2.
Proof.
  intros Ha Hc. unfold JsDate.ToIntegerOrInfinity.
  unfold Qplus, Qdiv, Qmult, Qinv, inject_Z. cbn [Qnum Qden Pos.mul].
  rewrite Z.quot_div_nonneg by lia. Z.to_euclidean_division_equations. lia.
Qed.

Lemma trunc_plus_int (a b : Z) :
  JsDate.ToIntegerOrInfinity (inject_Z a + inject_Z b) = a + b.
Proof.
  unfold JsDate.ToIntegerOrInfinity, Qplus, inject_Z. cbn [Qnum Qden Pos.mul].
  rewrite Z.quot_1_r. lia.
Qed.

Lemma Math_round_mean (c1 c2 : Z) :
  Math_round ((inject_Z c1 + inject_Z c2) / 2) = (c1 + c2 + 1) / 2.
Proof.
  unfold Math_round, Qfloor, Qplus, Qdiv, Qmult, Qinv, inject_Z. cbn [Qnum Qden Pos.mul].
  Z.to_euclidean_division_equations. lia.
Qed.

(** In a time zone of constant offset the prediction made from two windows
    of valid start dates starts the mean of the two estimates, rounded down,
    after the last window's start, ends six days later, and gives the mean
    rounded half up as cycle length. *)
Lemma prediction_dates (tz : Z) (windows : list Window.t) (w0 w1 : Window.t) :
  - JsDate.msPerDay < tz < JsDate.msPerDay ->
  (2 <= List.length windows)%nat -> Arr.lastTwo windows = [w0; w1] ->
  JsDate.parse (Window.startDate w0) <> None ->
  JsDate.parse (Window.startDate w1) <> None ->
  exists c1 c2 p,
    calculateCycleLength tz w0 = Some c1 /\ calculateCycleLength tz w1 = Some c2 /\
    predictNextFertileWindow tz windows = Ok (Some p) /\
    addDays (Window.startDate w1) ((c1 + c2) / 2) = Ok (Prediction.startDate p) /\
    addDays (Window.startDate w1) ((c1 + c2) / 2 + 6) = Ok (Prediction.endDate p) /\
    Prediction.cycleLength p = (c1 + c2 + 1) / 2.
Proof.
  intros Htz Hlen Hlast Hv0 Hv1.
  destruct (calculateCycleLength tz w0) as [c1|] eqn:E0.
  2:{ unfold calculateCycleLength, JsDate.getDate in E0.
      destruct (JsDate.parse (Window.startDate w0)); [discriminate | congruence]. }
  destruct (calculateCycleLength tz w1) as [c2|] eqn:E1.
  2:{ unfold calculateCycleLength, JsDate.getDate in E1.
      destruct (JsDate.parse (Window.startDate w1)); [discriminate | congruence]. }
  pose proof (calculateCycleLength_range _ _ _ E0) as R0.
  pose proof (calculateCycleLength_range _ _ _ E1) as R1.
  exists c1, c2.
  set (k := (c1 + c2) / 2).
  assert (Hk : 21 <= k <= 35) by (unfold k; Z.to_euclidean_division_equations; lia).
  assert (H : exists s e,
    predictNextFertileWindow tz windows
      = Ok (Some (Prediction.mk s e (Math_round ((inject_Z c1 + inject_Z c2) / 2)))) /\
    addDays (Window.startDate w1) k = Ok s /\
    addDays (Window.startDate w1) (k + 6) = Ok e).
  { unfold predictNextFertileWindow, addDays.
    destruct (Nat.ltb_spec (List.length windows) 2) as [|_]; [lia|].
    rewrite Hlast, E0, E1.
    destruct (JsDate.parse (Window.startDate w1)) as [t|] eqn:Ep; [|congruence].
    destruct (parse_day _ _ Ep) as (day & -> & Hday).
    unfold JsDate.getDate. cbn [option_map].
    rewrite (setDate_shift tz day k); [|exact Htz | lia |].
    2:{ unfold JsDate.LocalTime. apply trunc_plus_mean; [|lia].
        pose proof (DateFromTime_range (day * JsDate.msPerDay + tz)). lia. }
    cbn [option_map].
    rewrite (setDate_shift tz (day + k) 6); [|exact Htz | lia |].
    2:{ unfold JsDate.LocalTime. apply trunc_plus_int. }
    replace (day * JsDate.msPerDay + k * JsDate.msPerDay)
      with ((day + k) * JsDate.msPerDay) by lia.
    replace (day * JsDate.msPerDay + (k + 6) * JsDate.msPerDay)
      with ((day + k + 6) * JsDate.msPerDay) by lia.
    unfold JsDate.toISODate.
    destruct (JsDate.civilFromDays (JsDate.Day ((day + k) * JsDate.msPerDay))) as [[y m] d].
    destruct (JsDate.civilFromDays (JsDate.Day ((day + k + 6) * JsDate.msPerDay)))
      as [[y' m'] d'].
    cbn [bind]. do 2 eexists. repeat split. }
  destruct H as (s & e & Hp & Hs & He).
  eexists. split; [reflexivity|]. split; [reflexivity|]. split; [exact Hp|].
  cbn [Prediction.startDate Prediction.endDate Prediction.cycleLength].
  split; [exact Hs|]. split; [exact He|]. apply Math_round_mean.
Qed.

(** ** The analysis as a whole *)

Lemma lastTwo_In {A} (l : list A) :
  (2 <= List.length l)%nat ->
  exists a b, Arr.lastTwo l = [a; b] /\ In a l /\ In b l.
Proof.
  intros Hl. unfold Arr.lastTwo.
  pose proof (length_skipn (List.length l - 2) l) as Hs.
  pose proof (firstn_skipn (List.length l - 2) l) as Hfs.
  destruct (skipn (List.length l - 2) l) as [|a [|b [|c rest]]]; simpl in Hs; try lia.
  exists a, b. split; [reflexivity|].
  rewrite <- Hfs. split; apply in_or_app; right; simpl; auto.
Qed.

Lemma window_start_valid (temps : list Reading.t) (windows : list Window.t) (w : Window.t) :
  Forall validDate temps -> findWindows temps = Ok windows -> In w windows ->
  JsDate.parse (Window.startDate w) <> None.
Proof.
  intros Hv Hf Hw.
  destruct (In_window_month temps windows w Hf Hw) as (i & _ & Hspan & _).
  destruct Hspan as (_ & _ & _ & _ & (first & Hfirst & ->) & _).
  apply nth_error_In in Hfirst. apply filter_In in Hfirst as [Hfirst _].
  apply (proj1 (sort_In byDate _ _)) in Hfirst.
  rewrite Forall_forall in Hv. exact (Hv first Hfirst).
Qed.

(** With valid dates in the store the analysis ends without an exception
    and leaves the windows found in the component. *)
Lemma analyzeFertileWindows_total (tz : Z) (c : Component) (windows : list Window.t) :
  - JsDate.msPerDay < tz < JsDate.msPerDay ->
  Forall validDate (temperatures c) -> findWindows (temperatures c) = Ok windows ->
  (14 <= List.length (temperatures c))%nat ->
  exists c', analyzeFertileWindows tz c = Ok c' /\
    temperatures c' = temperatures c /\ fertileWindows c' = windows.
Proof.
  intros Htz Hv Hw Hl. unfold analyzeFertileWindows.
  destruct (Nat.ltb_spec (List.length (temperatures c)) 14); [lia|].
  rewrite Hw. cbn [bind].
  destruct (Nat.leb_spec 2 (List.length windows)) as [H2|H2]; [|eauto].
  destruct (lastTwo_In windows H2) as (w0 & w1 & Hlast & Hin0 & Hin1).
  destruct (prediction_dates tz windows w0 w1 Htz H2 Hlast) as (c1 & c2 & p & _ & _ & Hp & _).
  - eapply window_start_valid; eauto.
  - eapply window_start_valid; eauto.
  - rewrite Hp. cbn [bind]. eauto.
Qed.

(** C5: for a store of valid dates the detector finds, for every month
    key, exactly one window when the month's group (its readings in ascending
    date order) has at least 14 readings, cut from 7 readings consecutive by
    position whose mean no other such span exceeds, and no window when the
    group has 13 readings or fewer. The analysis leaves these windows in the
    component; with fewer than 14 readings in all, when no month can have
    14, it leaves the component as it is. *)
Theorem detector_one_window_per_full_month (temps : list Reading.t) :
  Forall validDate temps ->
  exists windows,
    findWindows temps = Ok windows /\
    (forall key,
       let group := monthGroup key temps in
       StronglySorted notAfter group /\
       ((List.length group <= 13)%nat -> filter (inMonth key) windows = []) /\
       ((14 <= List.length group)%nat ->
          exists w i,
            filter (inMonth key) windows = [w] /\ isSpanAt group i key w /\
            forall j, (j + 7 <= List.length group)%nat ->
              Num.gt (mean (span j group)) (Window.avgTemp w) = false)) /\
    (forall tz c, - JsDate.msPerDay < tz < JsDate.msPerDay -> temperatures c = temps ->
       ((List.length temps < 14)%nat ->
          analyzeFertileWindows tz c = Ok c /\
          forall key, (List.length (monthGroup key temps) <= 13)%nat) /\
       ((14 <= List.length temps)%nat ->
          exists c', analyzeFertileWindows tz c = Ok c' /\
            temperatures c' = temps /\ fertileWindows c' = windows)).
Proof.
  intros Hv. destruct (findWindows_total temps Hv) as [windows Hw].
  exists windows. split; [exact Hw|]. split.
  - intros key group. subst group. split; [apply monthGroup_sorted, Hv|].
    destruct (findWindows_Ok temps windows key Hw) as [Hlt Hge]. split.
    + intros Hl. apply Hlt. lia.
    + intros Hl. destruct (Hge Hl) as (w & i & Hfilter & Hspan & Hwarm).
      exists w, i. split; [exact Hfilter|]. split; [exact Hspan|].
      intros j Hj. destruct Hspan as (_ & _ & _ & -> & _). apply Hwarm, Hj.
  - intros tz c Htz <-. split.
    + intros Hl. split.
      * unfold analyzeFertileWindows. apply Nat.ltb_lt in Hl. rewrite Hl. reflexivity.
      * intros key. unfold monthGroup.
        pose proof (filter_length_le (fun t => String.eqb (monthKeyOf t) key)
                      (sortByDate (temperatures c))) as Hf.
        unfold sortByDate in Hf at 2. rewrite sort_length in Hf. lia.
    + intros Hl. apply analyzeFertileWindows_total; assumption.
Qed.

Lemma detector_one_window_per_full_month_witness :
  Forall validDate Sample.twentyDays /\
  exists windows, findWindows Sample.twentyDays = Ok windows /\
    filter (inMonth "2024-01") windows <> [].
Proof.
  assert (Hv : Forall validDate Sample.twentyDays) by valid_dates.
  split; [exact Hv|].
  destruct (detector_one_window_per_full_month Sample.twentyDays Hv)
    as (windows & Hw & Hkeys & _).
  exists windows. split; [exact Hw|].
  destruct (Hkeys "2024-01") as (_ & _ & Hge).
  assert (Hlen : (14 <= List.length (monthGroup "2024-01" Sample.twentyDays))%nat)
    by (apply Nat.leb_le; vm_compute; reflexivity).
  destruct (Hge Hlen) as (w & i & -> & _). discriminate.
Defined.

(** ** The store: order, well-formed readings, entering twice *)

Lemma sorted_by_dates (l : list Reading.t) :
  StronglySorted notAfter l <-> datesAscend (map Reading.date l).
Proof.
  unfold datesAscend. induction l as [|x l IH]; simpl.
  - split; constructor.
  - split; intros H; inversion H as [|? ? Hs Hall]; subst; constructor.
    + apply IH, Hs.
    + apply Forall_map. exact Hall.
    + apply IH, Hs.
    + apply Forall_map in Hall. exact Hall.
Qed.

Lemma reachable_sorted (temps : list Reading.t) :
  reachable temps -> StronglySorted notAfter temps.
Proof.
  intros Hr. pose proof (reachable_validDate temps Hr) as Hv. revert Hv.
  induction Hr as [|temps form Hr IH Hf|temps csvText Hr IH]; intros Hv.
  - constructor.
  - pose proof (reachable_validDate temps Hr) as Hvt. specialize (IH Hvt).
    unfold addTemperature in *.
    destruct (String.eqb (Form.newTemp form) "" || String.eqb (Form.selectedDate form) "");
      [exact IH|].
    destruct (outOfRange (Num.parseFloat (Form.newTemp form))); [exact IH|].
    set (newEntry := Reading.mk _ _ _ _ _) in *.
    destruct (Str.findIndex _ temps) as [i|] eqn:Ei; cbn [storeAfterAdd] in *.
    + destruct (findIndex_Some _ _ _ Ei) as [y [Hy Hp]]. apply String.eqb_eq in Hp.
      apply sorted_by_dates. rewrite (setAt_dates i newEntry y); [|exact Hy|symmetry; exact Hp].
      apply sorted_by_dates, IH.
    + apply sortByDate_sorted. apply Forall_forall. intros x Hx.
      rewrite Forall_forall in Hv. apply Hv. apply (sort_In byDate), Hx.
  - pose proof (reachable_validDate temps Hr) as Hvt. specialize (IH Hvt).
    unfold importCSV in *.
    destruct (Str.split "010" (Str.trim csvText)) as [|headerLine dataLines]; [exact IH|].
    destruct (findColumns headerLine) as [cols|]; [|exact IH].
    destruct (importRows cols (map Reading.date temps) dataLines) as [[|r rs]|e];
      try exact IH.
    cbn [storeAfterImport] in *. apply sortByDate_sorted.
    apply Forall_forall. intros x Hx.
    rewrite Forall_forall in Hv. apply Hv. apply (sort_In byDate), Hx.
Qed.





(** ** Direct entry: entering a form twice, and the other dates *)

Lemma findIndex_setAt {A} (p : A -> bool) (l : list A) (i : nat) (x : A) :
  Str.findIndex p l = Some i -> p x = true ->
  Str.findIndex p (Arr.setAt i x l) = Some i.
Proof.
  revert i. induction l as [|y l IH]; simpl; intros i H Hx; [discriminate|].
  destruct (p y) eqn:E.
  - injection H as <-. simpl. rewrite Hx. reflexivity.
  - destruct (Str.findIndex p l) as [k|]; [|discriminate].
    injection H as <-. simpl. rewrite E, (IH k eq_refl Hx). reflexivity.
Qed.

Lemma setAt_setAt {A} (i : nat) (x : A) (l : list A) :
  Arr.setAt i x (Arr.setAt i x l) = Arr.setAt i x l.
Proof.
  revert i. induction l as [|y l IH]; intros [|i]; simpl; try reflexivity.
  f_equal. apply IH.
Qed.

Lemma setAt_same {A} (i : nat) (x : A) (l : list A) :
  nth_error l i = Some x -> Arr.setAt i x l = l.
Proof.
  revert i. induction l as [|y l IH]; intros [|i] H; simpl in *; try discriminate.
  - injection H as ->. reflexivity.
  - f_equal. apply IH, H.
Qed.

Lemma setAt_length {A} (i : nat) (x : A) (l : list A) :
  List.length (Arr.setAt i x l) = List.length l.
Proof.
  revert i. induction l as [|y l IH]; intros [|i]; simpl; try reflexivity.
  f_equal. apply IH.
Qed.

Lemma findIndex_exists {A} (p : A -> bool) (l : list A) (x : A) :
  In x l -> p x = true -> exists i, Str.findIndex p l = Some i.
Proof.
  intros Hin Hp. destruct (Str.findIndex p l) as [i|] eqn:E; [exists i; reflexivity|].
  rewrite (findIndex_None p l E x Hin) in Hp. discriminate.
Qed.

Lemma setAt_otherDates (date : string) (i : nat) (x y : Reading.t) (l : list Reading.t) :
  nth_error l i = Some y -> Reading.date y = date -> Reading.date x = date ->
  otherDates date (Arr.setAt i x l) = otherDates date l.
Proof.
  unfold otherDates.
  revert i. induction l as [|z l IH]; intros [|i] H Ey Ex; simpl in *; try discriminate.
  - injection H as ->. rewrite Ey, Ex, String.eqb_refl. reflexivity.
  - rewrite (IH i H Ey Ex). reflexivity.
Qed.

(** X3: entering the same form a second time leaves the store as the first
    entry made it. *)
Theorem entering_twice_changes_nothing
  (temps : list Reading.t) (form : Form.t) (updated : list Reading.t) :
  addTemperature temps form = AddStored updated ->
  addTemperature updated form = AddStored updated.
Proof.
  unfold addTemperature.
  destruct (String.eqb (Form.newTemp form) "" || String.eqb (Form.selectedDate form) "");
    [discriminate|].
  destruct (outOfRange (Num.parseFloat (Form.newTemp form))); [discriminate|].
  set (newEntry := Reading.mk _ _ _ _ _).
  set (p := fun t => String.eqb (Reading.date t) (Form.selectedDate form)).
  assert (Hnew : p newEntry = true) by apply String.eqb_refl.
  destruct (Str.findIndex p temps) as [i|] eqn:Ei; intros H; injection H as <-.
  - rewrite (findIndex_setAt p temps i newEntry Ei Hnew), setAt_setAt. reflexivity.
  - assert (Hin : In newEntry (sortByDate (temps ++ [newEntry])%list)).
    { apply (sort_In byDate). apply in_or_app. right. left. reflexivity. }
    destruct (findIndex_exists p _ newEntry Hin Hnew) as [j Ej]. rewrite Ej.
    destruct (findIndex_Some p _ j Ej) as [y [Hy Hpy]].
    assert (y = newEntry) as ->.
    { apply nth_error_In in Hy. apply (proj1 (sort_In _ _ _)) in Hy.
      apply in_app_or in Hy as [Hy|[Hy|[]]]; [|symmetry; exact Hy].
      rewrite (findIndex_None p temps Ei y Hy) in Hpy. discriminate. }
    rewrite (setAt_same j newEntry _ Hy). reflexivity.
Qed.

Lemma entering_twice_changes_nothing_witness :
  exists updated,
    addTemperature [] (Form.mk "98.6" "2024-01-15" "High" true) = AddStored updated /\
    addTemperature updated (Form.mk "98.6" "2024-01-15" "High" true) = AddStored updated.
Proof.
  destruct (addTemperature [] (Form.mk "98.6" "2024-01-15" "High" true))
    as [| |updated] eqn:E; try (vm_compute in E; discriminate).
  exists updated. split; [reflexivity|].
  apply (entering_twice_changes_nothing [] _ updated). exact E.
Defined.

Lemma insert_first (x : Reading.t) (l : list Reading.t) :
  Forall (notAfter x) l -> Arr.insert byDate x l = x :: l.
Proof.
  intros H. destruct l as [|y l]; [reflexivity|]. simpl.
  inversion H as [|? ? Hxy _]; subst. unfold notAfter in Hxy. unfold byDate.
  destruct (JsDate.parse (Reading.date x)), (JsDate.parse (Reading.date y));
    try contradiction. simpl.
  destruct (Z.ltb_spec (z0 - z) 0); [lia|reflexivity].
Qed.

(** In a sorted store the new reading goes in between two parts of the
    store, which keep their order. *)
Lemma sort_new_reading (newEntry : Reading.t) (temps : list Reading.t) :
  StronglySorted notAfter temps ->
  exists l1 l2, temps = (l1 ++ l2)%list /\
    sortByDate (temps ++ [newEntry])%list = (l1 ++ newEntry :: l2)%list.
Proof.
  induction 1 as [|x t Hs IH Hx].
  - exists [], []. split; reflexivity.
  - destruct IH as (l1 & l2 & Et & E).
    unfold sortByDate, Arr.sort in *. simpl. rewrite E.
    destruct l1 as [|y l1]; simpl in *.
    + subst t. destruct (Arr.negative (byDate newEntry x)).
      * exists [], (x :: l2). split; [reflexivity|]. simpl.
        rewrite (insert_first x l2 Hx). reflexivity.
      * exists [x], l2. split; reflexivity.
    + subst t. inversion Hx as [|? ? Hxy Hrest]; subst.
      pose proof (insert_first x (y :: l1 ++ newEntry :: l2)%list) as Hi.
      simpl in Hi.
      assert (Hneg : Arr.negative (byDate y x) = false).
      { unfold notAfter in Hxy. unfold byDate.
        destruct (JsDate.parse (Reading.date x)), (JsDate.parse (Reading.date y));
          try contradiction. simpl.
        destruct (Z.ltb_spec (z0 - z) 0); [lia|reflexivity]. }
      rewrite Hneg. exists (x :: y :: l1), l2. split; reflexivity.
Qed.

(** X4: direct entry touches one date only: the readings of every other
    date stay, in their order, and the store grows by one reading when the
    date is new and keeps its length when the date was there. *)
Theorem direct_entry_leaves_other_dates
  (temps : list Reading.t) (form : Form.t) (updated : list Reading.t) :
  StronglySorted notAfter temps ->
  addTemperature temps form = AddStored updated ->
  otherDates (Form.selectedDate form) updated = otherDates (Form.selectedDate form) temps /\
  List.length updated =
    (if existsb (String.eqb (Form.selectedDate form)) (map Reading.date temps)
     then List.length temps else S (List.length temps)).
Proof.
  intros Hs. unfold addTemperature.
  destruct (String.eqb (Form.newTemp form) "" || String.eqb (Form.selectedDate form) "");
    [discriminate|].
  destruct (outOfRange (Num.parseFloat (Form.newTemp form))); [discriminate|].
  set (newEntry := Reading.mk _ _ _ _ _).
  set (p := fun t => String.eqb (Reading.date t) (Form.selectedDate form)).
  destruct (Str.findIndex p temps) as [i|] eqn:Ei; intros H; injection H as <-.
  - destruct (findIndex_Some p temps i Ei) as [y [Hy Hpy]]. apply String.eqb_eq in Hpy.
    split.
    + apply (setAt_otherDates _ i newEntry y); [exact Hy|exact Hpy|reflexivity].
    + rewrite setAt_length.
      assert (E : existsb (String.eqb (Form.selectedDate form)) (map Reading.date temps) = true).
      { apply existsb_exists. exists (Reading.date y). split.
        - apply in_map, (nth_error_In _ _ Hy).
        - rewrite Hpy. apply String.eqb_refl. }
      rewrite E. reflexivity.
  - split.
    + destruct (sort_new_reading newEntry temps Hs) as (l1 & l2 & Et & E).
      rewrite E, Et. unfold otherDates. rewrite !filter_app. simpl.
      rewrite String.eqb_refl. reflexivity.
    + rewrite (sort_length byDate), length_app. simpl.
      assert (E : existsb (String.eqb (Form.selectedDate form)) (map Reading.date temps) = false).
      { apply not_true_is_false. intros E. apply existsb_exists in E as [d [Hin He]].
        apply in_map_iff in Hin as [y [<- Hy]].
        pose proof (findIndex_None p temps Ei y Hy) as Hp. unfold p in Hp.
        rewrite String.eqb_sym in Hp. congruence. }
      rewrite E. lia.
Qed.

Lemma direct_entry_leaves_other_dates_witness :
  exists updated,
    otherDates "2024-01-15" updated = otherDates "2024-01-15" Sample.importedStore.
Proof.
  destruct (addTemperature Sample.importedStore (Form.mk "98.6" "2024-01-15" "High" true))
    as [| |updated] eqn:E; try (vm_compute in E; discriminate).
  exists updated.
  apply (direct_entry_leaves_other_dates Sample.importedStore
           (Form.mk "98.6" "2024-01-15" "High" true) updated).
  - apply reachable_sorted. exact (reach_import [] Sample.smallCSV reach_empty).
  - exact E.
Defined.

(** ** Import: the count, importing twice, the error alert *)

(** A row that was read against some stored dates is skipped once the
    store has those dates and the date of the row. *)
Lemma importRow_again (cols : Columns) (dates dates' : list string) (line : string)
  (o : option Reading.t) :
  importRow cols dates line = Ok o ->
  (forall d, In d dates -> In d dates') ->
  (forall r, o = Some r -> In (Reading.date r) dates') ->
  importRow cols dates' line = Ok None.
Proof.
  unfold importRow.
  destruct (_ <? _)%nat; [reflexivity|].
  destruct (nth_error _ (dateIndex cols)); [|discriminate].
  destruct (nth_error _ (tempIndex cols)); [|discriminate].
  destruct (rowDate _) as [date|]; [|reflexivity].
  destruct (outOfRange _); [reflexivity|].
  destruct (JsDate.ofString date); [|reflexivity].
  destruct date as [date|]; [|reflexivity].
  intros H Hincl Hnew.
  assert (E' : existsb (String.eqb date) dates' = true).
  { apply existsb_exists. exists date. split; [|apply String.eqb_refl].
    destruct (existsb (String.eqb date) dates) eqn:E.
    - apply existsb_exists in E as [d [Hd Hdd]]. apply String.eqb_eq in Hdd. subst d.
      apply Hincl, Hd.
    - destruct (optionalCell (ovulationIndex cols) _); [|discriminate].
      injection H as <-. apply (Hnew _ eq_refl). }
  rewrite E'. reflexivity.
Qed.

Lemma importRows_again (cols : Columns) (dates dates' : list string) (lines : list string)
  (rs : list Reading.t) :
  importRows cols dates lines = Ok rs ->
  (forall d, In d dates -> In d dates') ->
  (forall r, In r rs -> In (Reading.date r) dates') ->
  importRows cols dates' lines = Ok [].
Proof.
  revert rs. induction lines as [|line lines IH]; simpl; intros rs H Hincl Hnew;
    [reflexivity|].
  apply bind_Ok in H as [o [Ho H]]. apply bind_Ok in H as [rs' [Hrs H]].
  injection H as <-.
  rewrite (importRow_again cols dates dates' line o Ho Hincl).
  - cbn [bind]. rewrite (IH rs' Hrs Hincl); [reflexivity|].
    intros r Hr. apply Hnew. destruct o; [right|]; exact Hr.
  - intros r ->. apply Hnew. left. reflexivity.
Qed.

Lemma importRows_Throw (cols : Columns) (dates : list string) (lines : list string)
  (e : JsError) :
  importRows cols dates lines = Throw e ->
  exists line, In line lines /\ importRow cols dates line = Throw e.
Proof.
  induction lines as [|line lines IH]; simpl; [discriminate|].
  destruct (importRow cols dates line) as [o|e'] eqn:Eo.
  - cbn [bind]. destruct (importRows cols dates lines) as [rs|e''] eqn:Ers.
    + discriminate.
    + intros H. injection H as <-.
      destruct (IH eq_refl) as (l & Hl & He). exists l. auto.
  - cbn [bind]. intros H. injection H as <-. exists line. auto.
Qed.

Lemma importRow_Throw_TypeError (cols : Columns) (dates : list string) (line : string)
  (e : JsError) :
  importRow cols dates line = Throw e -> e = TypeError.
Proof.
  unfold importRow.
  destruct (_ <? _)%nat; [discriminate|].
  destruct (nth_error _ (dateIndex cols)); [|congruence].
  destruct (nth_error _ (tempIndex cols)); [|congruence].
  destruct (rowDate _) as [date|]; [|discriminate].
  destruct (outOfRange _); [discriminate|].
  destruct (JsDate.ofString date); [|discriminate].
  destruct date as [date|]; [|discriminate].
  destruct (existsb (String.eqb date) dates); [discriminate|].
  destruct (optionalCell (ovulationIndex cols) _); [discriminate|congruence].
Qed.

(** A file that was imported adds nothing to a store that has the dates of
    the store the import gave. *)
Lemma import_into_later_store
  (temps target : list Reading.t) (csvText : string) (mergedData : list Reading.t)
  (count : nat) :
  importCSV temps csvText = Imported mergedData count ->
  (forall d, In d (map Reading.date mergedData) -> In d (map Reading.date target)) ->
  importCSV target csvText = ImportNothing.
Proof.
  unfold importCSV.
  destruct (Str.split "010" (Str.trim csvText)) as [|headerLine dataLines]; [discriminate|].
  destruct (findColumns headerLine) as [cols|]; [|discriminate].
  destruct (importRows cols (map Reading.date temps) dataLines) as [rs|e] eqn:E;
    [|discriminate].
  destruct rs as [|r rs]; [discriminate|].
  intros H Hincl. injection H as <- _.
  rewrite (importRows_again cols (map Reading.date temps) _ dataLines (r :: rs) E);
    [reflexivity| |].
  - intros d Hd. apply Hincl. apply in_map_iff in Hd as [x [<- Hx]]. apply in_map.
    apply (sort_In byDate). apply in_or_app. left. exact Hx.
  - intros x Hx. apply Hincl. apply in_map. apply (sort_In byDate).
    apply in_or_app. right. exact Hx.
Qed.

(** X5: importing the same file again right after it was imported adds
    nothing: every row is skipped and the outcome is the alert that no valid
    data was found. *)
Theorem importing_twice_adds_nothing
  (temps : list Reading.t) (csvText : string) (mergedData : list Reading.t) (count : nat) :
  importCSV temps csvText = Imported mergedData count ->
  importCSV mergedData csvText = ImportNothing.
Proof.
  intros H. apply (import_into_later_store temps mergedData csvText mergedData count H).
  auto.
Qed.

Lemma importing_twice_adds_nothing_witness :
  importCSV Sample.importedStore Sample.smallCSV = ImportNothing.
Proof.
  destruct (importCSV [] Sample.smallCSV) as [| | |mergedData count] eqn:E;
    try (vm_compute in E; discriminate).
  replace Sample.importedStore with mergedData
    by (unfold Sample.importedStore; rewrite E; reflexivity).
  exact (importing_twice_adds_nothing [] Sample.smallCSV mergedData count E).
Defined.

(** X6: the count in the success message is the number of readings the
    import added to the store, and it is at least one. *)
Theorem import_count_is_readings_added
  (temps : list Reading.t) (csvText : string) (mergedData : list Reading.t) (count : nat) :
  importCSV temps csvText = Imported mergedData count ->
  (1 <= count)%nat /\ List.length mergedData = (List.length temps + count)%nat.
Proof.
  unfold importCSV.
  destruct (Str.split "010" (Str.trim csvText)) as [|headerLine dataLines]; [discriminate|].
  destruct (findColumns headerLine) as [cols|]; [|discriminate].
  destruct (importRows cols (map Reading.date temps) dataLines) as [rs|e]; [|discriminate].
  destruct rs as [|r rs]; [discriminate|].
  intros H. injection H as <- <-.
  unfold sortByDate. rewrite (sort_length byDate), length_app. simpl. lia.
Qed.

Lemma import_count_is_readings_added_witness :
  exists mergedData count,
    importCSV [] Sample.smallCSV = Imported mergedData count /\
    (1 <= count)%nat /\ List.length mergedData = (0 + count)%nat.
Proof.
  destruct (importCSV [] Sample.smallCSV) as [| | |mergedData count] eqn:E;
    try (vm_compute in E; discriminate).
  exists mergedData, count. split; [reflexivity|].
  exact (import_count_is_readings_added [] Sample.smallCSV mergedData count E).
Defined.

(** X7: an import ends with the error alert only when the header names an
    ovulation column and some data line, split at the commas, has no cell at
    that column; the exception is then the [TypeError] of calling a method
    on [undefined]. *)
Theorem import_error_only_without_ovulation_cell
  (temps : list Reading.t) (csvText : string) (e : JsError) :
  importCSV temps csvText = ImportFailed e ->
  e = TypeError /\
  exists headerLine dataLines cols i line,
    Str.split "010" (Str.trim csvText) = headerLine :: dataLines /\
    findColumns headerLine = Some cols /\
    ovulationIndex cols = Some i /\
    In line dataLines /\
    nth_error (Str.split "," line) i = None.
Proof.
  unfold importCSV.
  destruct (Str.split "010" (Str.trim csvText)) as [|headerLine dataLines] eqn:Es.
  - exfalso. exact (split_nonempty _ _ Es).
  - destruct (findColumns headerLine) as [cols|] eqn:Ec; [|discriminate].
    destruct (importRows cols (map Reading.date temps) dataLines) as [rs|e'] eqn:E.
    + destruct rs; discriminate.
    + intros H. injection H as <-.
      destruct (importRows_Throw _ _ _ _ E) as (line & Hin & Hrow).
      split; [exact (importRow_Throw_TypeError _ _ _ _ Hrow)|].
      destruct (importRow_throws_only_without_ovulation_cell _ _ _ _ Hrow) as (i & Hi & Hn).
      exists headerLine, dataLines, cols, i, line. repeat split; assumption.
Qed.

Lemma import_error_only_without_ovulation_cell_witness :
  exists headerLine dataLines cols i line,
    Str.split "010" (Str.trim Sample.shortRowCSV) = headerLine :: dataLines /\
    findColumns headerLine = Some cols /\
    ovulationIndex cols = Some i /\
    In line dataLines /\
    nth_error (Str.split "," line) i = None.
Proof.
  apply (import_error_only_without_ovulation_cell [] Sample.shortRowCSV TypeError).
  vm_compute. reflexivity.
Defined.

(** ** Prediction: when it is made, what it holds, when it fails *)

(** X8: for a store of at least 14 readings with valid dates, in a time zone
    of constant offset, the analysis ends without an exception. With fewer
    than two windows found it leaves the prediction of the component as it
    was; with two or more it sets a prediction made from the last two
    windows: it starts the mean of their two estimates, rounded down, after
    the last window's start, ends six days later, and its cycle length is
    the mean rounded half up, from 21 to 35. *)
Theorem analysis_sets_or_keeps_prediction (tz : Z) (c : Component) :
  - JsDate.msPerDay < tz < JsDate.msPerDay ->
  Forall validDate (temperatures c) ->
  (14 <= List.length (temperatures c))%nat ->
  exists c' windows,
    analyzeFertileWindows tz c = Ok c' /\
    findWindows (temperatures c) = Ok windows /\
    fertileWindows c' = windows /\
    ((List.length windows < 2)%nat -> prediction c' = prediction c) /\
    ((2 <= List.length windows)%nat ->
       exists w0 w1 c1 c2 p,
         Arr.lastTwo windows = [w0; w1] /\
         calculateCycleLength tz w0 = Some c1 /\ calculateCycleLength tz w1 = Some c2 /\
         prediction c' = Some p /\
         addDays (Window.startDate w1) ((c1 + c2) / 2) = Ok (Prediction.startDate p) /\
         addDays (Window.startDate w1) ((c1 + c2) / 2 + 6) = Ok (Prediction.endDate p) /\
         Prediction.cycleLength p = (c1 + c2 + 1) / 2 /\
         21 <= Prediction.cycleLength p <= 35).
Proof.
  intros Htz Hv Hl.
  destruct (findWindows_total (temperatures c) Hv) as [windows Hw].
  unfold analyzeFertileWindows.
  destruct (Nat.ltb_spec (List.length (temperatures c)) 14); [lia|].
  rewrite Hw. cbn [bind].
  destruct (Nat.leb_spec 2 (List.length windows)) as [H2|H2].
  - destruct (lastTwo_In windows H2) as (w0 & w1 & Hlast & Hin0 & Hin1).
    destruct (prediction_dates tz windows w0 w1 Htz H2 Hlast)
      as (c1 & c2 & p & E1 & E2 & Hp & Hs & He & Hc).
    + eapply window_start_valid; eauto.
    + eapply window_start_valid; eauto.
    + rewrite Hp. cbn [bind]. eexists; exists windows.
      split; [reflexivity|]. split; [reflexivity|]. split; [reflexivity|].
      split; [lia|]. intros _. exists w0, w1, c1, c2, p.
      repeat split; try assumption;
        apply (prediction_cycleLength_range tz windows p Hp).
  - eexists; exists windows.
    split; [reflexivity|]. split; [reflexivity|]. split; [reflexivity|].
    split; [reflexivity|]. lia.
Qed.

Lemma analysis_sets_or_keeps_prediction_witness :
  exists c' windows,
    analyzeFertileWindows Sample.utcMinus5
      {| temperatures := Sample.twentyDays; fertileWindows := []; prediction := None |}
      = Ok c' /\
    findWindows Sample.twentyDays = Ok windows.
Proof.
  destruct (analysis_sets_or_keeps_prediction Sample.utcMinus5
              {| temperatures := Sample.twentyDays; fertileWindows := [];
                 prediction := None |})
    as (c' & windows & Ha & Hw & _).
  - vm_compute. split; reflexivity.
  - valid_dates.
  - vm_compute. lia.
  - exists c', windows. split; assumption.
Defined.

(** X10: a prediction is made only from two or more windows, and, whatever
    the time zone, its cycle length is from 21 to 35. *)
Theorem prediction_needs_two_windows (tz : Z) (windows : list Window.t) (p : Prediction.t) :
  predictNextFertileWindow tz windows = Ok (Some p) ->
  (2 <= List.length windows)%nat /\ 21 <= Prediction.cycleLength p <= 35.
Proof.
  intros H. split; [|exact (prediction_cycleLength_range tz windows p H)].
  unfold predictNextFertileWindow in H.
  destruct (Nat.ltb_spec (List.length windows) 2); [discriminate|assumption].
Qed.

Lemma prediction_needs_two_windows_witness :
  exists p, predictNextFertileWindow 0 Sample.halfDayWindows = Ok (Some p) /\
    21 <= Prediction.cycleLength p <= 35.
Proof.
  destruct (predictNextFertileWindow 0 Sample.halfDayWindows) as [[p|]|e] eqn:E;
    try (vm_compute in E; discriminate).
  exists p. split; [reflexivity|].
  exact (proj2 (prediction_needs_two_windows 0 Sample.halfDayWindows p E)).
Defined.



(** ** The windows found: their order, their number, their readings *)

Lemma ascii_compare_refl (c : ascii) : Ascii.compare c c = Eq.
Proof. unfold Ascii.compare. apply N.compare_refl. Qed.

Lemma string_compare_refl (s : string) : String.compare s s = Eq.
Proof. induction s as [|c s IH]; simpl; [reflexivity|]. rewrite ascii_compare_refl. exact IH. Qed.

Lemma ascii_compare_eq (c d : ascii) : Ascii.compare c d = Eq -> c = d.
Proof. apply Ascii.compare_eq_iff. Qed.

Lemma strictlyBefore_trans (a b c : string) :
  strictlyBefore a b -> strictlyBefore b c -> strictlyBefore a c.
Proof.
  unfold strictlyBefore. revert b c.
  induction a as [|x a IH]; intros [|y b] [|z c]; simpl; try congruence.
  unfold Ascii.compare.
  destruct (N.compare_spec (N_of_ascii x) (N_of_ascii y)) as [Exy|Lxy|Gxy]; try discriminate;
    destruct (N.compare_spec (N_of_ascii y) (N_of_ascii z)) as [Eyz|Lyz|Gyz]; try discriminate;
    intros H1 H2.
  - rewrite Exy, Eyz, N.compare_refl. exact (IH b c H1 H2).
  - rewrite Exy. apply N.compare_lt_iff in Lyz. rewrite Lyz. reflexivity.
  - rewrite <- Eyz. apply N.compare_lt_iff in Lxy. rewrite Lxy. reflexivity.
  - assert (L : (N_of_ascii x < N_of_ascii z)%N) by lia.
    apply N.compare_lt_iff in L. rewrite L. reflexivity.
Qed.

Lemma before_cases (a b : string) : before a b <-> strictlyBefore a b \/ a = b.
Proof.
  unfold before, strictlyBefore. split.
  - destruct (String.compare a b) eqn:E; try tauto.
    intros _. right. apply String.compare_eq_iff, E.
  - intros [H| ->]; [congruence|]. rewrite string_compare_refl. discriminate.
Qed.

Lemma before_trans (a b c : string) : before a b -> before b c -> before a c.
Proof.
  rewrite !before_cases. intros [H1| ->] [H2| ->]; auto.
  left. eapply strictlyBefore_trans; eassumption.
Qed.

Lemma insert_strings_sorted (x : string) (l : list string) :
  StronglySorted before l -> StronglySorted before (Arr.insert Arr.compareStrings x l).
Proof.
  induction 1 as [|y l Hs IH Hy]; simpl.
  - constructor; constructor.
  - destruct (String.compare y x) eqn:E; simpl.
    + constructor; [constructor; assumption|].
      assert (Hxy : before x y).
      { unfold before. rewrite String.compare_antisym, E. discriminate. }
      constructor; [exact Hxy|].
      eapply Forall_impl; [|exact Hy]. intros z Hz. eapply before_trans; eassumption.
    + constructor; [exact IH|].
      apply Forall_forall. intros z Hz.
      apply (Permutation_in _ (insert_perm Arr.compareStrings x l)) in Hz.
      destruct Hz as [<-|Hz]; [unfold before; congruence|].
      rewrite Forall_forall in Hy. apply Hy, Hz.
    + constructor; [constructor; assumption|].
      assert (Hxy : before x y).
      { unfold before. rewrite String.compare_antisym, E. discriminate. }
      constructor; [exact Hxy|].
      eapply Forall_impl; [|exact Hy]. intros z Hz. eapply before_trans; eassumption.
Qed.

Lemma sort_strings_sorted (l : list string) :
  StronglySorted before (Arr.sort Arr.compareStrings l).
Proof.
  induction l as [|x l IH]; simpl; [constructor|]. apply insert_strings_sorted, IH.
Qed.

Lemma sorted_NoDup_strict (l : list string) :
  StronglySorted before l -> NoDup l -> StronglySorted strictlyBefore l.
Proof.
  induction 1 as [|x l Hs IH Hx]; intros Hnd; [constructor|].
  inversion Hnd as [|? ? Hnot Hnd']; subst.
  constructor; [apply IH, Hnd'|].
  apply Forall_forall. intros y Hy. rewrite Forall_forall in Hx.
  destruct (proj1 (before_cases x y) (Hx y Hy)) as [H| ->]; [exact H|contradiction].
Qed.

Lemma monthWindows_shape (months : Months) (key : string) (ws : list Window.t) :
  monthWindows months key = Ok ws ->
  ws = [] \/ exists w, ws = [w] /\ Window.month w = key.
Proof.
  unfold monthWindows. destruct (lookup key months) as [group|]; [|discriminate].
  destruct (14 <=? List.length group)%nat.
  - intros H. apply bind_Ok in H as [averages [_ H]].
    apply bind_Ok in H as [highestWeek [_ H]]. injection H as <-.
    right. eexists. split; reflexivity.
  - intros H. injection H as <-. left. reflexivity.
Qed.

Lemma concat_monthsAscend (months : Months) (keys : list string)
  (perMonth : list (list Window.t)) :
  Forall2 (fun k ws => monthWindows months k = Ok ws) keys perMonth ->
  StronglySorted strictlyBefore keys ->
  monthsAscend (List.concat perMonth) /\
  forall w, In w (List.concat perMonth) -> In (Window.month w) keys.
Proof.
  induction 1 as [|k ws keys perMonth Hk Hrest IH]; intros Hs; simpl.
  - split; [constructor|intros w []].
  - inversion Hs as [|? ? Hs' Hall]; subst. destruct (IH Hs') as [IHs IHin].
    destruct (monthWindows_shape _ _ _ Hk) as [->|(w & -> & Hw)]; simpl.
    + split; [exact IHs|]. intros w Hw. right. apply IHin, Hw.
    + split.
      * constructor; [exact IHs|]. apply Forall_forall. intros w' Hw'.
        rewrite Hw. rewrite Forall_forall in Hall. apply Hall, IHin, Hw'.
      * intros w' [<-|Hw']; [left; symmetry; exact Hw|right; apply IHin, Hw'].
Qed.

Lemma findWindows_monthsAscend (temps : list Reading.t) (windows : list Window.t) :
  findWindows temps = Ok windows -> monthsAscend windows.
Proof.
  unfold findWindows. intros H.
  apply bind_Ok in H as [months [Hm H]]. apply bind_Ok in H as [perMonth [Hp H]].
  injection H as <-.
  destruct (groupByMonth_Ok _ _ _ Hm) as [_ [Hnd _]].
  specialize (Hnd (NoDup_nil _)). apply mapM_Ok in Hp.
  apply (concat_monthsAscend months _ _ Hp).
  apply sorted_NoDup_strict; [apply sort_strings_sorted|].
  eapply Permutation_NoDup; [symmetry; apply sort_perm | exact Hnd].
Qed.

Lemma monthsAscend_NoDup (windows : list Window.t) :
  monthsAscend windows -> NoDup (map Window.month windows).
Proof.
  induction 1 as [|w ws Hs IH Hw]; simpl; constructor; [|exact IH].
  intros Hin. apply in_map_iff in Hin as [w' [E Hw']].
  rewrite Forall_forall in Hw. specialize (Hw w' Hw'). unfold strictlyBefore in Hw.
  rewrite E, string_compare_refl in Hw. discriminate.
Qed.

Lemma filter_other_month (k k' : string) (l : list Reading.t) :
  k' <> k ->
  filter (ofMonth k') (filter (fun t => negb (ofMonth k t)) l) = filter (ofMonth k') l.
Proof.
  intros Hne. induction l as [|t l IH]; simpl; [reflexivity|].
  unfold ofMonth at 2 4. destruct (String.eqb_spec (monthKeyOf t) k) as [E|E]; simpl.
  - unfold ofMonth at 2. destruct (String.eqb_spec (monthKeyOf t) k'); [congruence|exact IH].
  - rewrite IH. reflexivity.
Qed.

Lemma filter_split_length {A} (p : A -> bool) (l : list A) :
  List.length l = (List.length (filter p l) + List.length (filter (fun x => negb (p x)) l))%nat.
Proof.
  induction l as [|x l IH]; simpl; [reflexivity|].
  destruct (p x); simpl; lia.
Qed.

(** Months that have [n] readings each take [n] readings of the list
    apiece. *)
Lemma full_months_length (n : nat) (keys : list string) (l : list Reading.t) :
  NoDup keys ->
  (forall k, In k keys -> (n <= List.length (filter (ofMonth k) l))%nat) ->
  (n * List.length keys <= List.length l)%nat.
Proof.
  revert l. induction keys as [|k keys IH]; intros l Hnd Hall; simpl; [lia|].
  inversion Hnd as [|? ? Hnot Hnd']; subst.
  rewrite (filter_split_length (ofMonth k) l).
  specialize (IH (filter (fun t => negb (ofMonth k t)) l) Hnd').
  assert (n * List.length keys <= List.length (filter (fun t => negb (ofMonth k t)) l))%nat.
  { apply IH. intros k' Hk'. rewrite filter_other_month.
    - apply Hall. right. exact Hk'.
    - intros ->. contradiction. }
  pose proof (Hall k (or_introl eq_refl)). lia.
Qed.

(** X13: the detector finds at most one window for each month that
    'Months Tracked' counts, and every window takes at least 14 readings of
    the store: 14 times the number of windows is at most the number of
    readings. *)
Theorem windows_are_few (temps : list Reading.t) (windows : list Window.t) :
  findWindows temps = Ok windows ->
  (List.length windows <= monthsTracked temps)%nat /\
  (14 * List.length windows <= List.length temps)%nat.
Proof.
  intros H.
  pose proof (monthsAscend_NoDup windows (findWindows_monthsAscend temps windows H)) as Hnd.
  assert (Hfull : forall k, In k (map Window.month windows) ->
                    (14 <= List.length (filter (ofMonth k) (sortByDate temps)))%nat).
  { intros k Hk. apply in_map_iff in Hk as [w [<- Hw]].
    destruct (In_window_month temps windows w H Hw) as (i & Hlen & _). exact Hlen. }
  split.
  - rewrite <- (length_map Window.month windows). unfold monthsTracked.
    apply NoDup_incl_length; [exact Hnd|].
    intros k Hk. apply nodup_In. specialize (Hfull k Hk).
    destruct (filter (ofMonth k) (sortByDate temps)) as [|t rest] eqn:E; [simpl in Hfull; lia|].
    assert (Ht : In t (filter (ofMonth k) (sortByDate temps))) by (rewrite E; left; reflexivity).
    apply filter_In in Ht as [Ht Hm]. apply (proj1 (sort_In _ _ _)) in Ht.
    apply String.eqb_eq in Hm. rewrite <- Hm. apply (in_map monthKeyOf), Ht.
  - rewrite <- (length_map Window.month windows).
    rewrite <- (sort_length byDate temps). apply full_months_length; assumption.
Qed.

Lemma windows_are_few_witness :
  exists windows, findWindows Sample.twentyDays = Ok windows /\
    (14 * List.length windows <= List.length Sample.twentyDays)%nat.
Proof.
  destruct (findWindows Sample.twentyDays) as [windows|e] eqn:E;
    [|vm_compute in E; discriminate].
  exists windows. split; [reflexivity|].
  exact (proj2 (windows_are_few Sample.twentyDays windows E)).
Defined.

Lemma In_firstn {A} (n : nat) (l : list A) (x : A) : In x (firstn n l) -> In x l.
Proof. intros H. rewrite <- (firstn_skipn n l). apply in_or_app. left. exact H. Qed.

Lemma In_skipn {A} (n : nat) (l : list A) (x : A) : In x (skipn n l) -> In x l.
Proof. intros H. rewrite <- (firstn_skipn n l). apply in_or_app. right. exact H. Qed.

(** X14: every reading of a window is a reading of the store whose date
    begins with the window's month, the window's start and end dates begin
    with that month too, and its average is the mean of its temperatures. *)
Theorem window_readings_are_of_its_month
  (temps : list Reading.t) (windows : list Window.t) (w : Window.t) :
  findWindows temps = Ok windows -> In w windows ->
  Forall (fun t => In t temps /\ monthKeyOf t = Window.month w) (Window.temperatures w) /\
  Str.substring0 7 (Window.startDate w) = Window.month w /\
  Str.substring0 7 (Window.endDate w) = Window.month w /\
  Window.avgTemp w = mean (Window.temperatures w).
Proof.
  intros H Hw.
  destruct (In_window_month temps windows w H Hw)
    as (i & Hlen & (Hi & _ & Ht & Ha & (first & Hf & Hs) & (last & Hl & He)) & _).
  assert (Hgroup : forall t, In t (monthGroup (Window.month w) temps) ->
                     In t temps /\ monthKeyOf t = Window.month w).
  { intros t Hin. unfold monthGroup in Hin.
    apply filter_In in Hin as [Hin Hm]. apply (proj1 (sort_In _ _ _)) in Hin.
    apply String.eqb_eq in Hm. auto. }
  split; [|split; [|split]].
  - rewrite Ht. apply Forall_forall. intros t Hin. unfold span, Arr.slice in Hin.
    apply In_firstn, In_skipn in Hin. apply Hgroup, Hin.
  - rewrite Hs. apply (Hgroup first). eapply nth_error_In, Hf.
  - rewrite He. apply (Hgroup last). eapply nth_error_In, Hl.
  - rewrite Ht. exact Ha.
Qed.

Lemma window_readings_are_of_its_month_witness :
  exists w, Str.substring0 7 (Window.startDate w) = Window.month w.
Proof.
  destruct (findWindows Sample.twentyDays) as [[|w windows]|e] eqn:E;
    try (vm_compute in E; discriminate).
  exists w.
  exact (proj1 (proj2 (window_readings_are_of_its_month Sample.twentyDays (w :: windows) w E
                         (or_introl eq_refl)))).
Defined.

(** ** The calendar: dates and day numbers *)

(** The day number in closed form. *)
Lemma daysFromCivil_closed (y m d : Z) :
  1 <= m <= 12 ->
  let y' := if m <=? 2 then y - 1 else y in
  JsDate.daysFromCivil y m d =
  365 * y' + y' / 4 - y' / 100 + y' / 400 + (153 * ((m + 9) mod 12) + 2) / 5 + d - 719469.
Proof.
  intros Hm y'. unfold JsDate.daysFromCivil, JsDate.doeOfCivil. fold y'.
  generalize y'. clear y'. intros y'.
  Z.to_euclidean_division_equations; lia.
Qed.

Lemma daysInMonth_cases (y m : Z) :
  1 <= m <= 12 ->
  (m = 2 /\
   ((y mod 4 = 0 /\ (y mod 100 <> 0 \/ y mod 400 = 0)) /\ JsDate.daysInMonth y m = 29
    \/ (~ (y mod 4 = 0 /\ (y mod 100 <> 0 \/ y mod 400 = 0))) /\ JsDate.daysInMonth y m = 28))
  \/ ((m = 4 \/ m = 6 \/ m = 9 \/ m = 11) /\ JsDate.daysInMonth y m = 30)
  \/ ((m = 1 \/ m = 3 \/ m = 5 \/ m = 7 \/ m = 8 \/ m = 10 \/ m = 12)
      /\ JsDate.daysInMonth y m = 31).
Proof.
  intros Hm. unfold JsDate.daysInMonth, JsDate.isLeapYear.
  destruct (Z.eqb_spec m 2).
  - left. split; [assumption|].
    destruct (Z.eqb_spec (y mod 4) 0), (Z.eqb_spec (y mod 100) 0), (Z.eqb_spec (y mod 400) 0);
      simpl; tauto.
  - right.
    destruct (Z.eqb_spec m 4), (Z.eqb_spec m 6), (Z.eqb_spec m 9), (Z.eqb_spec m 11); simpl;
      try (left; split; [lia|reflexivity]).
    right. split; [lia|reflexivity].
Qed.

Ltac month_cases m :=
  let M := fresh "M" in
  assert (M : m = 1 \/ m = 2 \/ m = 3 \/ m = 4 \/ m = 5 \/ m = 6 \/ m = 7 \/ m = 8
              \/ m = 9 \/ m = 10 \/ m = 11 \/ m = 12) by lia;
  repeat (destruct M as [M|M]); subst m.

(** A later date has a greater day number. *)
Lemma daysFromCivil_lt (y m d y2 m2 d2 : Z) :
  validCivil y m d -> validCivil y2 m2 d2 -> civilBefore y m d y2 m2 d2 ->
  JsDate.daysFromCivil y m d < JsDate.daysFromCivil y2 m2 d2.
Proof.
  intros [Hm Hd] [Hm2 Hd2] Hlt. unfold civilBefore in Hlt.
  rewrite !daysFromCivil_closed by assumption.
  pose proof (daysInMonth_cases y m Hm) as C1.
  pose proof (daysInMonth_cases y2 m2 Hm2) as C2.
  generalize dependent (JsDate.daysInMonth y m).
  generalize dependent (JsDate.daysInMonth y2 m2).
  intros dim2 Hd2 C2 dim1 Hd1 C1.
  month_cases m; month_cases m2;
    cbn [Z.leb Z.compare Pos.compare Pos.compare_cont] in *;
    (Z.to_euclidean_division_equations; lia).
Qed.

Lemma civilBefore_total (y m d y2 m2 d2 : Z) :
  civilBefore y m d y2 m2 d2 \/ (y = y2 /\ m = m2 /\ d = d2) \/ civilBefore y2 m2 d2 y m d.
Proof. unfold civilBefore. lia. Qed.

(** The date that [civilOfDoe] gives is a date of the calendar. *)
Lemma civilOfDoe_valid (doe era : Z) :
  0 <= doe < 146097 ->
  let '(yoe, m, d) := JsDate.civilOfDoe doe in
  let y := yoe + era * 400 in
  validCivil (if m <=? 2 then y + 1 else y) m d.
Proof.
  intros H. unfold JsDate.civilOfDoe.
  set (yoe := (doe - doe / 1460 + doe / 36524 - doe / 146096) / 365).
  set (doy := doe - (365 * yoe + yoe / 4 - yoe / 100)).
  set (mp := (5 * doy + 2) / 153).
  assert (Hy : 0 <= yoe <= 399 /\ 0 <= doy <= 365 /\
    (doy = 365 -> (yoe + 1) mod 4 = 0 /\ ((yoe + 1) mod 100 <> 0 \/ (yoe + 1) mod 400 = 0))).
  { subst doy yoe. Z.to_euclidean_division_equations; lia. }
  destruct Hy as (Hyoe & Hdoy & Hleap).
  assert (Hmp : 0 <= mp <= 11) by (subst mp; Z.to_euclidean_division_equations; lia).
  assert (Hd : 153 * mp <= 5 * doy + 2 < 153 * mp + 153)
    by (subst mp; Z.to_euclidean_division_equations; lia).
  clearbody mp doy yoe. clear H.
  assert (M : mp = 0 \/ mp = 1 \/ mp = 2 \/ mp = 3 \/ mp = 4 \/ mp = 5 \/ mp = 6 \/ mp = 7
              \/ mp = 8 \/ mp = 9 \/ mp = 10 \/ mp = 11) by lia.
  unfold validCivil.
  repeat (destruct M as [M|M]); subst mp; cbv beta iota zeta;
    repeat match goal with
    | |- context [if ?k <? 10 then ?k + 3 else ?k - 9] =>
        let v := eval vm_compute in (if k <? 10 then k + 3 else k - 9) in
        change (if k <? 10 then k + 3 else k - 9) with v
    | |- context [?k <=? 2] =>
        let v := eval vm_compute in (k <=? 2) in change (k <=? 2) with v; cbv iota
    end;
    match goal with |- _ /\ _ <= _ <= JsDate.daysInMonth ?y ?m =>
      pose proof (daysInMonth_cases y m ltac:(lia)) as C;
      generalize dependent (JsDate.daysInMonth y m); intros dim C
    end;
    (Z.to_euclidean_division_equations; lia).
Qed.

Lemma daysFromCivil_day (y m d : Z) :
  JsDate.daysFromCivil y m d = JsDate.daysFromCivil y m 1 + d - 1.
Proof. unfold JsDate.daysFromCivil. rewrite doeOfCivil_day. lia. Qed.

(** The date of a day number is a date of the calendar, and that day number
    is its own. *)
Lemma civilFromDays_valid (z : Z) :
  let '(y, m, d) := JsDate.civilFromDays z in
  validCivil y m d /\ JsDate.daysFromCivil y m d = z.
Proof.
  pose proof (civilFromDays_inverse z) as Hinv.
  unfold JsDate.civilFromDays in *.
  set (z' := z + 719468) in *. set (era := z' / 146097) in *.
  set (doe := z' - era * 146097) in *.
  assert (Hdoe : 0 <= doe < 146097).
  { unfold doe, era. pose proof (Z.mod_pos_bound z' 146097 eq_refl) as H.
    rewrite Z.mod_eq in H by lia. lia. }
  pose proof (civilOfDoe_valid doe era Hdoe) as Hv.
  destruct (JsDate.civilOfDoe doe) as [[yoe m] d].
  split; [exact Hv|]. rewrite daysFromCivil_day. apply Hinv.
Qed.

(** The day number of a date of the calendar leads back to the date. *)
Lemma civilFromDays_daysFromCivil (y m d : Z) :
  validCivil y m d -> JsDate.civilFromDays (JsDate.daysFromCivil y m d) = (y, m, d).
Proof.
  intros Hv. pose proof (civilFromDays_valid (JsDate.daysFromCivil y m d)) as H.
  destruct (JsDate.civilFromDays (JsDate.daysFromCivil y m d)) as [[y2 m2] d2].
  destruct H as [Hv2 E].
  destruct (civilBefore_total y m d y2 m2 d2) as [Hlt|[(-> & -> & ->)|Hlt]];
    [|reflexivity|].
  - pose proof (daysFromCivil_lt _ _ _ _ _ _ Hv Hv2 Hlt). lia.
  - pose proof (daysFromCivil_lt _ _ _ _ _ _ Hv2 Hv Hlt). lia.
Qed.

(** ** The calendar: dates and their texts *)

Lemma digit_code (c : ascii) (x : Z) :
  JsDate.digit c = Some x -> c = digitChar x /\ 0 <= x <= 9.
Proof.
  destruct c as [[] [] [] [] [] [] [] []]; vm_compute; intros H;
    try discriminate H; injection H as <-; repeat split; discriminate.
Qed.

Lemma digit_digitChar (x : Z) : 0 <= x <= 9 -> JsDate.digit (digitChar x) = Some x.
Proof.
  intros H.
  assert (C : x = 0 \/ x = 1 \/ x = 2 \/ x = 3 \/ x = 4 \/ x = 5 \/ x = 6 \/ x = 7
              \/ x = 8 \/ x = 9) by lia.
  repeat (destruct C as [C|C]); subst x; reflexivity.
Qed.

Lemma digitChar_compare (x y : Z) :
  0 <= x <= 9 -> 0 <= y <= 9 -> Ascii.compare (digitChar x) (digitChar y) = (x ?= y).
Proof.
  intros Hx Hy.
  assert (C : x = 0 \/ x = 1 \/ x = 2 \/ x = 3 \/ x = 4 \/ x = 5 \/ x = 6 \/ x = 7
              \/ x = 8 \/ x = 9) by lia.
  assert (D : y = 0 \/ y = 1 \/ y = 2 \/ y = 3 \/ y = 4 \/ y = 5 \/ y = 6 \/ y = 7
              \/ y = 8 \/ y = 9) by lia.
  repeat (destruct C as [C|C]); subst x; repeat (destruct D as [D|D]); subst y; reflexivity.
Qed.

Lemma pad2_digits (v : Z) :
  0 <= v <= 99 ->
  JsDate.pad 2 v = String (digitChar (v / 10)) (String (digitChar (v mod 10)) "").
Proof.
  intros H.
  pose proof (rangeAll_spec
                (fun v => String.eqb (JsDate.pad 2 v)
                            (String (digitChar (v / 10)) (String (digitChar (v mod 10)) "")))
                100 0 ltac:(vm_compute; reflexivity) v ltac:(lia)) as E.
  cbv beta in E. apply String.eqb_eq in E. exact E.
Qed.

Lemma pad4_digits (y : Z) :
  0 <= y <= 9999 ->
  JsDate.pad 4 y =
  String (digitChar (y / 1000)) (String (digitChar (y / 100 mod 10))
    (String (digitChar (y / 10 mod 10)) (String (digitChar (y mod 10)) ""))).
Proof.
  intros H.
  pose proof (rangeAll_spec
                (fun y => String.eqb (JsDate.pad 4 y)
                            (String (digitChar (y / 1000)) (String (digitChar (y / 100 mod 10))
                              (String (digitChar (y / 10 mod 10))
                                (String (digitChar (y mod 10)) "")))))
                10000 0 ltac:(vm_compute; reflexivity) y ltac:(lia)) as E.
  cbv beta in E. apply String.eqb_eq in E. exact E.
Qed.

(** What a valid date text is made of. *)
Lemma parse_digits (s : string) (t : Z) :
  JsDate.parse s = Some t ->
  exists a b c e f g h i,
    s = String (digitChar a) (String (digitChar b) (String (digitChar c)
          (String (digitChar e) (String "-" (String (digitChar f) (String (digitChar g)
            (String "-" (String (digitChar h) (String (digitChar i) ""))))))))) /\
    (0 <= a <= 9 /\ 0 <= b <= 9 /\ 0 <= c <= 9 /\ 0 <= e <= 9) /\
    (0 <= f <= 9 /\ 0 <= g <= 9 /\ 0 <= h <= 9 /\ 0 <= i <= 9) /\
    validCivil (1000 * a + 100 * b + 10 * c + e) (10 * f + g) (10 * h + i) /\
    t = JsDate.daysFromCivil (1000 * a + 100 * b + 10 * c + e) (10 * f + g) (10 * h + i)
        * JsDate.msPerDay.
Proof.
  unfold JsDate.parse.
  destruct s as [|y1 [|y2 [|y3 [|y4 [|s1 [|m1 [|m2 [|s2 [|d1 [|d2 [|? ?]]]]]]]]]]];
    try discriminate.
  unfold JsDate.digits2.
  destruct (JsDate.digit y1) as [a|] eqn:E1; try discriminate.
  destruct (JsDate.digit y2) as [b|] eqn:E2; try discriminate.
  destruct (JsDate.digit y3) as [c|] eqn:E3; try discriminate.
  destruct (JsDate.digit y4) as [e|] eqn:E4; try discriminate.
  destruct (JsDate.digit m1) as [f|] eqn:E5; try discriminate.
  destruct (JsDate.digit m2) as [g|] eqn:E6; try discriminate.
  destruct (JsDate.digit d1) as [h|] eqn:E7; try discriminate.
  destruct (JsDate.digit d2) as [i|] eqn:E8; try discriminate.
  apply digit_code in E1 as [-> R1], E2 as [-> R2], E3 as [-> R3], E4 as [-> R4],
    E5 as [-> R5], E6 as [-> R6], E7 as [-> R7], E8 as [-> R8].
  replace (100 * (10 * a + b) + (10 * c + e)) with (1000 * a + 100 * b + 10 * c + e) by lia.
  remember (1000 * a + 100 * b + 10 * c + e) as y eqn:Ey.
  remember (10 * f + g) as m eqn:Em. remember (10 * h + i) as d eqn:Ed.
  match goal with |- (if ?b then _ else _) = _ -> _ => destruct b eqn:Eb end; [|discriminate].
  repeat (apply andb_true_iff in Eb as [Eb ?]).
  repeat match goal with
  | H : (_ <=? _) = true |- _ => apply Z.leb_le in H
  | H : Ascii.eqb _ _ = true |- _ => apply Ascii.eqb_eq in H
  end.
  subst s1 s2.
  unfold JsDate.TimeClip, JsDate.MakeDate.
  match goal with |- (if ?b then _ else _) = _ -> _ => destruct b end; [discriminate|].
  intros H'. rewrite Z.add_0_r in H'.
  exists a, b, c, e, f, g, h, i. subst y m d.
  split; [reflexivity|]. split; [tauto|]. split; [tauto|].
  split; [unfold validCivil; lia|congruence].
Qed.

(** A valid date text is the text of a date of the calendar, and its time
    value is midnight of that date's day. *)
Lemma parse_civil (s : string) (t : Z) :
  JsDate.parse s = Some t ->
  exists y m d, 0 <= y <= 9999 /\ validCivil y m d /\ s = isoText y m d /\
    t = JsDate.daysFromCivil y m d * JsDate.msPerDay.
Proof.
  intros H. destruct (parse_digits s t H)
    as (a & b & c & e & f & g & h & i & -> & Ry & Rm & Hv & ->).
  exists (1000 * a + 100 * b + 10 * c + e), (10 * f + g), (10 * h + i).
  split; [lia|]. split; [exact Hv|]. split; [|reflexivity].
  unfold isoText. rewrite pad4_digits, !pad2_digits by lia.
  replace ((1000 * a + 100 * b + 10 * c + e) / 1000) with a
    by (Z.to_euclidean_division_equations; lia).
  replace ((1000 * a + 100 * b + 10 * c + e) / 100 mod 10) with b
    by (Z.to_euclidean_division_equations; lia).
  replace ((1000 * a + 100 * b + 10 * c + e) / 10 mod 10) with c
    by (Z.to_euclidean_division_equations; lia).
  replace ((1000 * a + 100 * b + 10 * c + e) mod 10) with e
    by (Z.to_euclidean_division_equations; lia).
  replace ((10 * f + g) / 10) with f by (Z.to_euclidean_division_equations; lia).
  replace ((10 * f + g) mod 10) with g by (Z.to_euclidean_division_equations; lia).
  replace ((10 * h + i) / 10) with h by (Z.to_euclidean_division_equations; lia).
  replace ((10 * h + i) mod 10) with i by (Z.to_euclidean_division_equations; lia).
  reflexivity.
Qed.

Lemma daysInMonth_le_31 (y m : Z) : JsDate.daysInMonth y m <= 31.
Proof.
  unfold JsDate.daysInMonth.
  repeat match goal with |- context [if ?b then _ else _] => destruct b end; lia.
Qed.

(** The text of a date of the calendar, of a year from 0 to 9999, is a
    valid date text. *)
Lemma parse_isoText (y m d : Z) :
  0 <= y <= 9999 -> validCivil y m d ->
  JsDate.parse (isoText y m d) = Some (JsDate.daysFromCivil y m d * JsDate.msPerDay).
Proof.
  intros Hy [Hm Hd]. pose proof (daysInMonth_le_31 y m) as H31.
  unfold isoText. rewrite pad4_digits, !pad2_digits by lia.
  cbn [append]. unfold JsDate.parse, JsDate.digits2.
  rewrite !digit_digitChar by (Z.to_euclidean_division_equations; lia).
  replace (100 * (10 * (y / 1000) + y / 100 mod 10) + (10 * (y / 10 mod 10) + y mod 10))
    with y by (Z.to_euclidean_division_equations; lia).
  replace (10 * (m / 10) + m mod 10) with m by (Z.to_euclidean_division_equations; lia).
  replace (10 * (d / 10) + d mod 10) with d by (Z.to_euclidean_division_equations; lia).
  change (Ascii.eqb "-" "-") with true. cbn [andb].
  destruct (Z.leb_spec 1 m); [|lia]. destruct (Z.leb_spec m 12); [|lia].
  destruct (Z.leb_spec 1 d); [|lia]. destruct (Z.leb_spec d (JsDate.daysInMonth y m)); [|lia].
  cbn [andb]. unfold JsDate.TimeClip, JsDate.MakeDate. rewrite Z.add_0_r.
  pose proof (daysFromCivil_range y m d Hy Hm ltac:(lia)) as R.
  unfold JsDate.msPerDay.
  destruct (Z.ltb_spec 8640000000000000 (Z.abs (JsDate.daysFromCivil y m d * 86400000)));
    [lia|reflexivity].
Qed.

Lemma Day_midnight (z : Z) : JsDate.Day (z * JsDate.msPerDay) = z.
Proof. unfold JsDate.Day, JsDate.msPerDay. apply Z.div_mul. discriminate. Qed.

(** Printing a valid date gives back its text. *)
Lemma toISODate_parse (s : string) (t : Z) :
  JsDate.parse s = Some t -> JsDate.toISODate (Some t) = Ok s.
Proof.
  intros H. destruct (parse_civil s t H) as (y & m & d & Hy & Hv & -> & ->).
  unfold JsDate.toISODate. rewrite Day_midnight, (civilFromDays_daysFromCivil y m d Hv).
  destruct (Z.leb_spec 0 y); [|lia]. destruct (Z.leb_spec y 9999); [|lia].
  cbn [andb]. unfold isoText. exact eq_refl.
Qed.

(** ** The order of date texts is the order of the dates *)

Ltac date_digit x y :=
  rewrite (digitChar_compare x y) by lia;
  destruct (Z.compare_spec x y) as [?|?|?];
  [ subst
  | symmetry; apply Z.compare_lt_iff;
    apply Z.mul_lt_mono_pos_r; [reflexivity|];
    apply daysFromCivil_lt; [assumption|assumption|unfold civilBefore; lia]
  | symmetry; apply Z.compare_gt_iff;
    apply Z.mul_lt_mono_pos_r; [reflexivity|];
    apply daysFromCivil_lt; [assumption|assumption|unfold civilBefore; lia] ].

Lemma compare_dates (s1 s2 : string) (t1 t2 : Z) :
  JsDate.parse s1 = Some t1 -> JsDate.parse s2 = Some t2 ->
  String.compare s1 s2 = (t1 ?= t2).
Proof.
  intros H1 H2.
  destruct (parse_digits s1 t1 H1)
    as (a & b & c & e & f & g & h & i & -> & Ry & Rm & Hv & ->).
  destruct (parse_digits s2 t2 H2)
    as (a' & b' & c' & e' & f' & g' & h' & i' & -> & Ry' & Rm' & Hv' & ->).
  clear H1 H2. cbn [String.compare].
  date_digit a a'. date_digit b b'. date_digit c c'. date_digit e e'.
  try rewrite ascii_compare_refl.
  date_digit f f'. date_digit g g'.
  try rewrite ascii_compare_refl.
  date_digit h h'. date_digit i i'.
  symmetry. apply Z.compare_refl.
Qed.

Lemma leb_dates (s1 s2 : string) (t1 t2 : Z) :
  JsDate.parse s1 = Some t1 -> JsDate.parse s2 = Some t2 ->
  String.leb s1 s2 = (t1 <=? t2).
Proof.
  intros H1 H2. unfold String.leb, Z.leb. rewrite (compare_dates s1 s2 t1 t2 H1 H2).
  reflexivity.
Qed.

(** X15: the page compares date texts as strings; for valid dates that is
    the comparison of the dates: a reading is marked as in a fertile window
    exactly when its date is from the start date to the end date of one of
    the windows. *)
Theorem fertile_mark_is_date_range (windows : list Window.t) (temp : Reading.t) :
  validDate temp -> Forall validWindow windows ->
  (inFertileWindow windows temp = true <-> exists fw, In fw windows /\ withinWindow fw temp).
Proof.
  intros Hv Hw. unfold inFertileWindow. rewrite existsb_exists.
  unfold validDate in Hv. destruct (JsDate.parse (Reading.date temp)) as [t|] eqn:Et;
    [clear Hv|congruence].
  rewrite Forall_forall in Hw.
  split; intros (fw & Hin & H); exists fw; (split; [exact Hin|]);
    destruct (Hw fw Hin) as [Hs He]; unfold withinWindow in *; rewrite Et in *;
    destruct (JsDate.parse (Window.startDate fw)) as [ts|] eqn:Es; try congruence;
    destruct (JsDate.parse (Window.endDate fw)) as [te|] eqn:Ee; try congruence;
    rewrite (leb_dates _ _ _ _ Es Et), (leb_dates _ _ _ _ Et Ee) in *.
  - apply andb_true_iff in H as [H1 H2]. apply Z.leb_le in H1, H2. lia.
  - apply andb_true_iff. split; apply Z.leb_le; lia.
Qed.

Lemma fertile_mark_is_date_range_witness :
  inFertileWindow Sample.halfDayWindows (Sample.reading "2024-02-10" "98") = true
  <-> exists fw, In fw Sample.halfDayWindows
        /\ withinWindow fw (Sample.reading "2024-02-10" "98").
Proof.
  apply (fertile_mark_is_date_range Sample.halfDayWindows (Sample.reading "2024-02-10" "98")).
  - vm_compute. discriminate.
  - repeat constructor; vm_compute; discriminate.
Defined.

Lemma sorted_nth {A} (R : A -> A -> Prop) (l : list A) (i j : nat) (a b : A) :
  StronglySorted R l -> nth_error l i = Some a -> nth_error l j = Some b ->
  (i < j)%nat -> R a b.
Proof.
  intros Hs. revert i j. induction Hs as [|x l Hs IH Hx]; intros i j Ha Hb Hij.
  - destruct i; discriminate.
  - destruct j as [|j]; [lia|]. simpl in Hb. destruct i as [|i]; simpl in Ha.
    + injection Ha as <-. rewrite Forall_forall in Hx. apply Hx.
      eapply nth_error_In, Hb.
    + apply (IH i j Ha Hb). lia.
Qed.

Lemma notAfter_refl (a : Reading.t) : validDate a -> notAfter a a.
Proof.
  unfold validDate, notAfter. destruct (JsDate.parse (Reading.date a)); [lia|congruence].
Qed.

Lemma window_reading_within
  (temps : list Reading.t) (windows : list Window.t) (w : Window.t) (t : Reading.t) :
  Forall validDate temps -> findWindows temps = Ok windows -> In w windows ->
  In t (Window.temperatures w) -> validWindow w /\ withinWindow w t.
Proof.
  intros Hv H Hw Ht.
  destruct (In_window_month temps windows w H Hw)
    as (i & Hlen & (Hi & _ & Htemps & _ & (first & Hf & Hs) & (last & Hl & He)) & _).
  pose proof (monthGroup_sorted (Window.month w) temps Hv) as Hsorted.
  set (group := monthGroup (Window.month w) temps) in *.
  assert (Hgv : forall x, In x group -> validDate x).
  { intros x Hx. unfold group, monthGroup in Hx. apply filter_In in Hx as [Hx _].
    apply (proj1 (sort_In _ _ _)) in Hx. rewrite Forall_forall in Hv. apply Hv, Hx. }
  rewrite Htemps in Ht. apply In_nth_error in Ht as [k Hk].
  assert (Hk7 : (k < 7)%nat).
  { assert (Hsome : nth_error (span i group) k <> None) by congruence.
    apply nth_error_Some in Hsome. unfold span, Arr.slice in Hsome.
    rewrite length_firstn in Hsome. lia. }
  rewrite (span_nth group i k Hk7) in Hk.
  assert (Hft : notAfter first t).
  { destruct k as [|k].
    - rewrite Nat.add_0_r, Hf in Hk. injection Hk as <-.
      apply notAfter_refl, Hgv. eapply nth_error_In, Hf.
    - apply (sorted_nth notAfter group i (i + S k) first t Hsorted Hf Hk). lia. }
  assert (Htl : notAfter t last).
  { destruct (Nat.eq_dec k 6) as [->|Hne].
    - rewrite Hl in Hk. injection Hk as <-.
      apply notAfter_refl, Hgv. eapply nth_error_In, Hl.
    - apply (sorted_nth notAfter group (i + k) (i + 6) t last Hsorted Hk Hl). lia. }
  unfold validWindow, withinWindow, notAfter in *. rewrite Hs, He.
  destruct (JsDate.parse (Reading.date first)), (JsDate.parse (Reading.date t)),
    (JsDate.parse (Reading.date last)); try contradiction.
  split; [split; discriminate|lia].
Qed.

Lemma findWindows_validWindow (temps : list Reading.t) (windows : list Window.t) :
  Forall validDate temps -> findWindows temps = Ok windows -> Forall validWindow windows.
Proof.
  intros Hv H. apply Forall_forall. intros w Hw.
  destruct (In_window_month temps windows w H Hw)
    as (i & Hlen & (Hi & _ & Htemps & _ & (first & Hf & Hs) & _) & _).
  assert (Ht : In first (Window.temperatures w)).
  { rewrite Htemps. apply (nth_error_In _ 0). rewrite (span_nth _ i 0) by lia.
    rewrite Nat.add_0_r. exact Hf. }
  exact (proj1 (window_reading_within temps windows w first Hv H Hw Ht)).
Qed.

Lemma window_readings_in_store
  (temps : list Reading.t) (windows : list Window.t) (w : Window.t) (t : Reading.t) :
  findWindows temps = Ok windows -> In w windows -> In t (Window.temperatures w) ->
  In t temps.
Proof.
  intros H Hw Ht.
  destruct (In_window_month temps windows w H Hw) as (i & _ & (_ & _ & Htemps & _) & _).
  rewrite Htemps in Ht. unfold span, Arr.slice in Ht.
  apply In_firstn, In_skipn in Ht. unfold monthGroup in Ht.
  apply filter_In in Ht as [Ht _]. apply (proj1 (sort_In _ _ _)) in Ht. exact Ht.
Qed.

(** X16: with valid dates in the store, every reading of a window the
    detector found is marked as in a fertile window, in the chart as in the
    export. *)
Theorem readings_of_windows_are_marked
  (temps : list Reading.t) (windows : list Window.t) (w : Window.t) (t : Reading.t) :
  Forall validDate temps -> findWindows temps = Ok windows -> In w windows ->
  In t (Window.temperatures w) ->
  inFertileWindow windows t = true /\
  In (ChartPoint.mk (Reading.date t) (Reading.temperature t) true (Reading.ovulationStrip t))
     (formatChartData temps windows) /\
  nth_error (exportRow windows t) 4 = Some "Yes".
Proof.
  intros Hv H Hw Ht.
  destruct (window_reading_within temps windows w t Hv H Hw Ht) as [Hvw Hin].
  assert (Hmark : inFertileWindow windows t = true).
  { unfold inFertileWindow. apply existsb_exists. exists w. split; [exact Hw|].
    destruct Hvw as [Hs He]. unfold withinWindow in Hin.
    destruct (JsDate.parse (Window.startDate w)) as [ts|] eqn:Es; [|contradiction].
    destruct (JsDate.parse (Reading.date t)) as [tt|] eqn:Et; [|contradiction].
    destruct (JsDate.parse (Window.endDate w)) as [te|] eqn:Ee; [|contradiction].
    rewrite (leb_dates _ _ _ _ Es Et), (leb_dates _ _ _ _ Et Ee).
    apply andb_true_iff. split; apply Z.leb_le; lia. }
  split; [exact Hmark|]. split.
  - unfold formatChartData. apply in_map_iff. exists t. rewrite Hmark.
    split; [reflexivity|].
    exact (window_readings_in_store temps windows w t H Hw Ht).
  - unfold exportRow. cbn [nth_error]. rewrite Hmark. reflexivity.
Qed.

Lemma readings_of_windows_are_marked_witness :
  exists windows t,
    findWindows Sample.twentyDays = Ok windows /\ inFertileWindow windows t = true.
Proof.
  assert (E : exists w t, findWindows Sample.twentyDays = Ok [w]
                          /\ In t (Window.temperatures w)).
  { vm_compute. eexists. eexists. split; [reflexivity|left; reflexivity]. }
  destruct E as (w & t & E & Ht). exists [w], t. split; [exact E|].
  apply (readings_of_windows_are_marked Sample.twentyDays [w] w t).
  - valid_dates.
  - exact E.
  - left. reflexivity.
  - exact Ht.
Defined.

(** ** Printing dates: the prediction and the labels of the page *)

Lemma civilFromDays_year_range (z : Z) :
  JsDate.daysFromCivil 0 1 1 <= z <= JsDate.daysFromCivil 9999 12 31 ->
  0 <= fst (fst (JsDate.civilFromDays z)) <= 9999.
Proof.
  intros Hz. pose proof (civilFromDays_valid z) as H.
  destruct (JsDate.civilFromDays z) as [[y m] d]. destruct H as [Hv E]. simpl.
  assert (V0 : validCivil 0 1 1) by (vm_compute; repeat split; discriminate).
  assert (V9 : validCivil 9999 12 31) by (vm_compute; repeat split; discriminate).
  pose proof Hv as [Hm Hd]. pose proof (daysInMonth_le_31 y m) as H31.
  destruct (Z_lt_ge_dec y 0) as [Hneg|Hpos].
  - pose proof (daysFromCivil_lt y m d 0 1 1 Hv V0 ltac:(unfold civilBefore; lia)). lia.
  - destruct (Z_le_gt_dec y 9999) as [Hle|Hgt]; [lia|].
    pose proof (daysFromCivil_lt 9999 12 31 y m d V9 Hv ltac:(unfold civilBefore; lia)). lia.
Qed.

Lemma toISODate_day (z : Z) :
  JsDate.daysFromCivil 0 1 1 <= z <= JsDate.daysFromCivil 9999 12 31 ->
  exists y m d, JsDate.civilFromDays z = (y, m, d) /\ 0 <= y <= 9999 /\ validCivil y m d /\
    JsDate.daysFromCivil y m d = z /\
    JsDate.toISODate (Some (z * JsDate.msPerDay)) = Ok (isoText y m d).
Proof.
  intros Hz. pose proof (civilFromDays_year_range z Hz) as Hy.
  pose proof (civilFromDays_valid z) as H.
  unfold JsDate.toISODate. rewrite Day_midnight.
  destruct (JsDate.civilFromDays z) as [[y m] d]. destruct H as [Hv E]. simpl in Hy.
  exists y, m, d. repeat split; try assumption; try lia; try apply Hv.
  destruct (Z.leb_spec 0 y); [|lia]. destruct (Z.leb_spec y 9999); [|lia].
  cbn [andb]. unfold isoText. exact eq_refl.
Qed.

(** The date [n] days after a valid date, while the year stays within 9999. *)
Lemma addDays_parse (s : string) (t n : Z) :
  JsDate.parse s = Some t -> 0 <= n ->
  t + n * JsDate.msPerDay <= JsDate.daysFromCivil 9999 12 31 * JsDate.msPerDay ->
  exists s', addDays s n = Ok s' /\ JsDate.parse s' = Some (t + n * JsDate.msPerDay).
Proof.
  intros H Hn Hmax. unfold addDays. rewrite H. cbn [option_map].
  destruct (parse_civil s t H) as (y & m & d & Hy & Hv & -> & ->).
  replace (JsDate.daysFromCivil y m d * JsDate.msPerDay + n * JsDate.msPerDay)
    with ((JsDate.daysFromCivil y m d + n) * JsDate.msPerDay) in * by lia.
  assert (V0 : validCivil 0 1 1) by (vm_compute; repeat split; discriminate).
  assert (L0 : JsDate.daysFromCivil 0 1 1 <= JsDate.daysFromCivil y m d).
  { destruct (civilBefore_total 0 1 1 y m d) as [Hlt|[(<- & <- & <-)|Hlt]]; [|lia|].
    - pose proof (daysFromCivil_lt _ _ _ _ _ _ V0 Hv Hlt). lia.
    - destruct Hv as [Hm Hd]. unfold civilBefore in Hlt. lia. }
  assert (Hz : JsDate.daysFromCivil 0 1 1 <= JsDate.daysFromCivil y m d + n
               <= JsDate.daysFromCivil 9999 12 31).
  { unfold JsDate.msPerDay in Hmax. lia. }
  destruct (toISODate_day _ Hz) as (y' & m' & d' & _ & Hy' & Hv' & E & ->).
  exists (isoText y' m' d'). split; [reflexivity|].
  rewrite (parse_isoText y' m' d' Hy' Hv'), E. reflexivity.
Qed.

(** X17: a valid date text printed by [toISOString] after it was parsed is
    the same text again, and the date text [n] days after it, while the year
    stays within 9999, is a valid date text of the day [n] days later. *)
Theorem date_text_round_trip (s : string) (t : Z) :
  JsDate.parse s = Some t ->
  JsDate.toISODate (JsDate.parse s) = Ok s /\
  addDays s 0 = Ok s /\
  forall n, 0 <= n ->
    t + n * JsDate.msPerDay <= JsDate.daysFromCivil 9999 12 31 * JsDate.msPerDay ->
    exists s', addDays s n = Ok s' /\ JsDate.parse s' = Some (t + n * JsDate.msPerDay).
Proof.
  intros H. split; [|split].
  - rewrite H. exact (toISODate_parse s t H).
  - unfold addDays. rewrite H. cbn [option_map]. rewrite Z.add_0_r.
    exact (toISODate_parse s t H).
  - intros n Hn Hmax. exact (addDays_parse s t n H Hn Hmax).
Qed.

Lemma date_text_round_trip_witness : addDays "2024-02-29" 0 = Ok "2024-02-29".
Proof.
  destruct (JsDate.parse "2024-02-29") as [t|] eqn:E; [|vm_compute in E; discriminate].
  exact (proj1 (proj2 (date_text_round_trip "2024-02-29" t E))).
Defined.

(** X18: in a time zone of constant offset, the prediction made from
    windows with valid start dates, the last one before the year 9999,
    starts from 21 to 35 days after the start of the last window and ends
    six days after it starts: the predicted window has seven days. *)
Theorem prediction_spans_seven_days
  (tz : Z) (windows : list Window.t) (w0 w1 : Window.t) (t1 : Z) :
  - JsDate.msPerDay < tz < JsDate.msPerDay ->
  (2 <= List.length windows)%nat -> Arr.lastTwo windows = [w0; w1] ->
  JsDate.parse (Window.startDate w0) <> None ->
  JsDate.parse (Window.startDate w1) = Some t1 ->
  String.leb (Window.startDate w1) "9998-12-31" = true ->
  exists p k,
    predictNextFertileWindow tz windows = Ok (Some p) /\ 21 <= k <= 35 /\
    JsDate.parse (Prediction.startDate p) = Some (t1 + k * JsDate.msPerDay) /\
    JsDate.parse (Prediction.endDate p) = Some (t1 + (k + 6) * JsDate.msPerDay).
Proof.
  intros Htz H2 Hlast Hv0 Hv1 Hyear.
  destruct (prediction_dates tz windows w0 w1 Htz H2 Hlast Hv0 ltac:(congruence))
    as (c1 & c2 & p & E1 & E2 & Hp & Hs & He & _).
  apply calculateCycleLength_range in E1, E2.
  assert (Hk : 21 <= (c1 + c2) / 2 <= 35) by (Z.to_euclidean_division_equations; lia).
  set (k := (c1 + c2) / 2) in *. clearbody k.
  assert (Hmax : t1 <= 2932531 * JsDate.msPerDay).
  { assert (E : JsDate.parse "9998-12-31" = Some (2932531 * JsDate.msPerDay))
      by (vm_compute; reflexivity).
    rewrite (leb_dates _ _ _ _ Hv1 E) in Hyear. apply Z.leb_le in Hyear. exact Hyear. }
  assert (E9 : JsDate.daysFromCivil 9999 12 31 = 2932896) by (vm_compute; reflexivity).
  exists p, k. split; [exact Hp|]. split; [exact Hk|].
  destruct (addDays_parse _ t1 k Hv1) as (s & Es & Ps);
    [lia|rewrite E9; unfold JsDate.msPerDay in *; lia|].
  destruct (addDays_parse _ t1 (k + 6) Hv1) as (e & Ee & Pe);
    [lia|rewrite E9; unfold JsDate.msPerDay in *; lia|].
  rewrite Es in Hs. rewrite Ee in He. injection Hs as <-. injection He as <-.
  split; assumption.
Qed.

Lemma prediction_spans_seven_days_witness :
  exists p k,
    predictNextFertileWindow 0 Sample.halfDayWindows = Ok (Some p) /\ 21 <= k <= 35 /\
    JsDate.parse (Prediction.startDate p) = Some (1707436800000 + k * JsDate.msPerDay) /\
    JsDate.parse (Prediction.endDate p) = Some (1707436800000 + (k + 6) * JsDate.msPerDay).
Proof.
  apply (prediction_spans_seven_days 0 Sample.halfDayWindows
           (Sample.window "2024-01" "2024-01-10" "2024-01-16")
           (Sample.window "2024-02" "2024-02-09" "2024-02-15")).
  - vm_compute. split; reflexivity.
  - simpl. lia.
  - reflexivity.
  - vm_compute. discriminate.
  - vm_compute. reflexivity.
  - vm_compute. reflexivity.
Defined.

(** ** Labels *)

Lemma Day_east (z tz : Z) :
  0 <= tz < JsDate.msPerDay -> JsDate.Day (z * JsDate.msPerDay + tz) = z.
Proof. unfold JsDate.Day, JsDate.msPerDay. intros H. Z.to_euclidean_division_equations; lia. Qed.

Lemma Day_west (z tz : Z) :
  - JsDate.msPerDay < tz < 0 -> JsDate.Day (z * JsDate.msPerDay + tz) = z - 1.
Proof. unfold JsDate.Day, JsDate.msPerDay. intros H. Z.to_euclidean_division_equations; lia. Qed.

Lemma dayBefore_valid (y m d : Z) :
  validCivil y m d ->
  let '(y', m', d') := dayBefore y m d in
  validCivil y' m' d' /\ JsDate.daysFromCivil y' m' d' = JsDate.daysFromCivil y m d - 1.
Proof.
  intros [Hm Hd]. unfold dayBefore.
  destruct (Z.leb_spec 2 d).
  - split; [unfold validCivil; lia|]. rewrite daysFromCivil_day.
    rewrite (daysFromCivil_day y m d). lia.
  - assert (d = 1) as -> by lia. destruct (Z.leb_spec 2 m).
    + pose proof (daysInMonth_cases y (m - 1) ltac:(lia)) as C.
      split.
      * unfold validCivil. split; [lia|]. split; [|lia].
        destruct C as [(_ & [(_ & ->)|(_ & ->)])|[(_ & ->)|(_ & ->)]]; lia.
      * rewrite !daysFromCivil_closed by lia.
        generalize dependent (JsDate.daysInMonth y (m - 1)). intros dim C.
        clear Hd. month_cases m; try lia;
          cbn [Z.leb Z.compare Pos.compare Pos.compare_cont Z.sub Z.add Z.opp Z.pos_sub
               Pos.pred_double Z.pred_double Z.succ_double Z.double] in *;
          (Z.to_euclidean_division_equations; lia).
    + assert (m = 1) as -> by lia.
      split; [vm_compute; repeat split; discriminate|].
      rewrite !daysFromCivil_closed by lia.
      cbn [Z.leb Z.compare Pos.compare Pos.compare_cont].
      Z.to_euclidean_division_equations; lia.
Qed.

Lemma civilFromDays_dayBefore (y m d : Z) :
  validCivil y m d ->
  JsDate.civilFromDays (JsDate.daysFromCivil y m d - 1) = dayBefore y m d.
Proof.
  intros Hv. pose proof (dayBefore_valid y m d Hv) as H.
  destruct (dayBefore y m d) as [[y' m'] d']. destruct H as [Hv' E].
  rewrite <- E. apply civilFromDays_daysFromCivil, Hv'.
Qed.

(** X19: [formatDate] prints a valid date as its own month and day when
    the time zone is on or east of Greenwich, and as the month and day of
    the day before when the time zone is west of Greenwich; the offset is
    taken as constant. *)
Theorem formatDate_shows_day_before_in_the_west (tz y m d : Z) :
  0 <= y <= 9999 -> validCivil y m d ->
  (0 <= tz < JsDate.msPerDay ->
     formatDate tz (isoText y m d) = monthName m ++ " " ++ Num.decimalDigits d) /\
  (- JsDate.msPerDay < tz < 0 ->
     formatDate tz (isoText y m d) =
     let '(_, m', d') := dayBefore y m d in monthName m' ++ " " ++ Num.decimalDigits d').
Proof.
  intros Hy Hv. unfold formatDate. rewrite (parse_isoText y m d Hy Hv).
  unfold JsDate.LocalTime, JsDate.MonthFromTime, JsDate.DateFromTime. split; intros Htz.
  - rewrite (Day_east _ _ Htz), (civilFromDays_daysFromCivil y m d Hv). reflexivity.
  - rewrite (Day_west _ _ Htz), (civilFromDays_dayBefore y m d Hv).
    destruct (dayBefore y m d) as [[y' m'] d']. reflexivity.
Qed.

Lemma formatDate_shows_day_before_in_the_west_witness :
  formatDate Sample.utcMinus5 (isoText 2024 3 1) = "Feb 29".
Proof.
  apply (proj2 (formatDate_shows_day_before_in_the_west Sample.utcMinus5 2024 3 1
                  ltac:(lia) ltac:(vm_compute; repeat split; discriminate))).
  vm_compute. split; reflexivity.
Defined.

Lemma string_app_assoc (a b c : string) : (a ++ b) ++ c = a ++ (b ++ c).
Proof. induction a as [|x a IH]; simpl; [reflexivity|]. rewrite IH. reflexivity. Qed.

(** X20: the heading of a fertile window names the window's month and year
    when the time zone is on or east of Greenwich, and the month before,
    December of the year before for a January, when the time zone is west of
    Greenwich. *)
Theorem windowHeading_names_month_before_in_the_west (tz y m : Z) (w : Window.t) :
  0 <= y <= 9999 -> 1 <= m <= 12 ->
  Window.month w = JsDate.pad 4 y ++ "-" ++ JsDate.pad 2 m ->
  (0 <= tz < JsDate.msPerDay -> windowHeading tz w = Some (m - 1, y)) /\
  (- JsDate.msPerDay < tz < 0 ->
     windowHeading tz w = Some (if 2 <=? m then (m - 2, y) else (11, y - 1))).
Proof.
  intros Hy Hm Hkey.
  assert (Hv : validCivil y m 1).
  { split; [exact Hm|].
    destruct (daysInMonth_cases y m Hm) as [(_ & [(_ & ->)|(_ & ->)])|[(_ & ->)|(_ & ->)]];
      lia. }
  assert (Ekey : Window.month w ++ "-01" = isoText y m 1).
  { rewrite Hkey. unfold isoText.
    change (JsDate.pad 2 1) with "01".
    rewrite !string_app_assoc. reflexivity. }
  unfold windowHeading. rewrite Ekey, (parse_isoText y m 1 Hy Hv). cbn [option_map].
  unfold JsDate.LocalTime, JsDate.MonthFromTime, JsDate.YearFromTime. split; intros Htz.
  - rewrite (Day_east _ _ Htz), (civilFromDays_daysFromCivil y m 1 Hv). reflexivity.
  - rewrite (Day_west _ _ Htz), (civilFromDays_dayBefore y m 1 Hv). unfold dayBefore.
    change (2 <=? 1) with false. cbv iota.
    destruct (2 <=? m); simpl; f_equal; f_equal; lia.
Qed.

Lemma windowHeading_names_month_before_in_the_west_witness :
  windowHeading Sample.utcMinus5 (Sample.window "2024-01" "2024-01-10" "2024-01-16")
  = Some (11, 2023).
Proof.
  apply (proj2 (windowHeading_names_month_before_in_the_west Sample.utcMinus5 2024 1
                  (Sample.window "2024-01" "2024-01-10" "2024-01-16")
                  ltac:(lia) ltac:(lia) eq_refl)).
  vm_compute. split; reflexivity.
Defined.

(** ** Export and import of the same store *)



(** ** The table of recent entries *)

Lemma sorted_app {A} (R : A -> A -> Prop) (l1 l2 : list A) :
  StronglySorted R (l1 ++ l2)%list ->
  StronglySorted R l1 /\ StronglySorted R l2 /\
  forall a b, In a l1 -> In b l2 -> R a b.
Proof.
  induction l1 as [|x l1 IH]; simpl; intros H.
  - split; [constructor|]. split; [exact H|]. intros a b [].
  - inversion H as [|? ? Hs Hx]; subst. destruct (IH Hs) as (H1 & H2 & H12).
    rewrite Forall_forall in Hx. split.
    + constructor; [exact H1|]. apply Forall_forall. intros y Hy.
      apply Hx, in_or_app. left. exact Hy.
    + split; [exact H2|]. intros a b [<-|Ha] Hb.
      * apply Hx, in_or_app. right. exact Hb.
      * apply H12; assumption.
Qed.

Lemma sorted_rev {A} (R : A -> A -> Prop) (l : list A) :
  StronglySorted R l -> StronglySorted (fun a b => R b a) (rev l).
Proof.
  induction 1 as [|x l Hs IH Hx]; simpl; [constructor|].
  induction (rev l) as [|y r IHr] eqn:Er in IH, Hx |- *.
  - constructor; constructor.
  - assert (Hin : forall z, In z (y :: r) -> R x z).
    { intros z Hz. rewrite Forall_forall in Hx. apply Hx. apply in_rev. rewrite Er. exact Hz. }
    clear Er IHr. induction IH as [|y' r' Hs' IH' Hy']; simpl.
    + constructor; constructor.
    + constructor.
      * apply IH'. intros z Hz. apply Hin. right. exact Hz.
      * apply Forall_forall. intros z Hz. apply in_app_or in Hz as [Hz|[<-|[]]].
        -- rewrite Forall_forall in Hy'. apply Hy', Hz.
        -- apply Hin. left. reflexivity.
Qed.

(** X22: the table of recent entries has a row for each of the last ten
    readings of the store, all of them when there are fewer, the last one
    first; in a store in ascending date order the rows go from the latest
    date back, and no reading left out is after a reading shown. *)
Theorem recent_entries_latest_first
  (tz : Z) (temps : list Reading.t) (windows : list Window.t) :
  let shown := rev (Arr.sliceLast 10 temps) in
  let hidden := firstn (List.length temps - 10) temps in
  List.length (recentEntries tz temps windows) = Nat.min 10 (List.length temps) /\
  temps = (hidden ++ rev shown)%list /\
  map TableRow.date (recentEntries tz temps windows)
    = map (fun t => formatDate tz (Reading.date t)) shown /\
  (StronglySorted notAfter temps ->
     StronglySorted (fun a b => notAfter b a) shown /\
     forall h s, In h hidden -> In s shown -> notAfter h s).
Proof.
  intros shown hidden. unfold recentEntries, Arr.sliceLast in *.
  split; [|split; [|split]].
  - rewrite length_map, length_rev, length_skipn. lia.
  - unfold shown, hidden. rewrite rev_involutive. symmetry. apply firstn_skipn.
  - rewrite map_map. reflexivity.
  - intros Hs. rewrite <- (firstn_skipn (List.length temps - 10) temps) in Hs.
    apply sorted_app in Hs as (_ & H2 & H12). split.
    + apply sorted_rev, H2.
    + intros h s Hh Hsh. apply H12; [exact Hh|]. apply in_rev. exact Hsh.
Qed.

Lemma recent_entries_latest_first_witness :
  StronglySorted (fun a b => notAfter b a) (rev (Arr.sliceLast 10 Sample.importedStore)).
Proof.
  refine (proj1 (proj2 (proj2 (proj2
            (recent_entries_latest_first 0 Sample.importedStore []))) _)).
  apply reachable_sorted. exact (reach_import [] Sample.smallCSV reach_empty).
Defined.

(** ** Import: dates written with slashes *)

Lemma slashPart_ok (v : Z) (s : string) :
  1 <= v <= 31 -> In s (slashTexts v) ->
  hasChar "/" s = false /\ Str.padStart 2 "0" s = JsDate.pad 2 v.
Proof.
  intros Hv Hs.
  pose proof (rangeAll_spec
                (fun v => forallb (fun s => negb (hasChar "/" s)
                                            && String.eqb (Str.padStart 2 "0" s) (JsDate.pad 2 v))
                                  (slashTexts v))
                31 1 ltac:(vm_compute; reflexivity) v ltac:(lia)) as H.
  cbv beta in H. rewrite forallb_forall in H. specialize (H s Hs).
  apply andb_true_iff in H as [H1 H2]. apply negb_true_iff in H1.
  apply String.eqb_eq in H2. auto.
Qed.

Lemma longYear_ok (y : Z) :
  1000 <= y <= 9999 ->
  hasChar "/" (Num.decimalDigits y) = false /\
  (String.length (Num.decimalDigits y) =? 2)%nat = false /\
  Num.decimalDigits y = JsDate.pad 4 y.
Proof.
  intros Hy.
  pose proof (rangeAll_spec
                (fun y => negb (hasChar "/" (Num.decimalDigits y))
                          && negb (String.length (Num.decimalDigits y) =? 2)%nat
                          && String.eqb (Num.decimalDigits y) (JsDate.pad 4 y))
                9000 1000 ltac:(vm_compute; reflexivity) y ltac:(lia)) as H.
  cbv beta in H. apply andb_true_iff in H as [H H3]. apply andb_true_iff in H as [H1 H2].
  apply negb_true_iff in H1, H2. apply String.eqb_eq in H3. auto.
Qed.

Lemma shortYear_ok (yy : Z) :
  0 <= yy <= 99 ->
  hasChar "/" (JsDate.pad 2 yy) = false /\
  (String.length (JsDate.pad 2 yy) =? 2)%nat = true /\
  "20" ++ JsDate.pad 2 yy = JsDate.pad 4 (2000 + yy).
Proof.
  intros Hy.
  pose proof (rangeAll_spec
                (fun yy => negb (hasChar "/" (JsDate.pad 2 yy))
                           && (String.length (JsDate.pad 2 yy) =? 2)%nat
                           && String.eqb ("20" ++ JsDate.pad 2 yy) (JsDate.pad 4 (2000 + yy)))
                100 0 ltac:(vm_compute; reflexivity) yy ltac:(lia)) as H.
  cbv beta in H. apply andb_true_iff in H as [H H3]. apply andb_true_iff in H as [H1 H2].
  apply negb_true_iff in H1. apply String.eqb_eq in H3. auto.
Qed.

Lemma rowDate_slashes (mt dt yt : string) :
  hasChar "/" mt = false -> hasChar "/" dt = false -> hasChar "/" yt = false ->
  rowDate (mt ++ "/" ++ dt ++ "/" ++ yt) =
  Some (Some ((if (String.length yt =? 2)%nat then "20" ++ yt else yt)
              ++ "-" ++ Str.padStart 2 "0" mt ++ "-" ++ Str.padStart 2 "0" dt)).
Proof.
  intros Hm Hd Hy. unfold rowDate.
  change (mt ++ "/" ++ dt ++ "/" ++ yt) with (mt ++ String "/" (dt ++ String "/" yt)).
  rewrite includes_char, hasChar_app. cbn [hasChar]. rewrite Ascii.eqb_refl, orb_true_r.
  rewrite (split_app "/" mt _ Hm), (split_app "/" dt _ Hd), (split_none "/" yt Hy).
  reflexivity.
Qed.

(** X23: a row whose date is written month/day/year, each of month and day
    with or without a leading zero, is read as that date of the calendar:
    with a year of four digits as it stands, and with a year of two digits
    as a year of the 2000s; the date text made of it is a valid date. *)
Theorem slash_dates_are_read_as_calendar_dates (y m d : Z) (mt dt : string) :
  validCivil y m d -> In mt (slashTexts m) -> In dt (slashTexts d) ->
  (1000 <= y <= 9999 ->
     rowDate (mt ++ "/" ++ dt ++ "/" ++ Num.decimalDigits y) = Some (Some (isoText y m d))) /\
  (2000 <= y <= 2099 ->
     rowDate (mt ++ "/" ++ dt ++ "/" ++ JsDate.pad 2 (y - 2000))
     = Some (Some (isoText y m d))) /\
  (0 <= y <= 9999 ->
     JsDate.parse (isoText y m d) = Some (JsDate.daysFromCivil y m d * JsDate.msPerDay)).
Proof.
  intros Hv Hmt Hdt. pose proof Hv as [Hm Hd]. pose proof (daysInMonth_le_31 y m) as H31.
  destruct (slashPart_ok m mt ltac:(lia) Hmt) as [Hm1 Hm2].
  destruct (slashPart_ok d dt ltac:(lia) Hdt) as [Hd1 Hd2].
  split; [|split].
  - intros Hy. destruct (longYear_ok y Hy) as (H1 & H2 & H3).
    rewrite (rowDate_slashes mt dt _ Hm1 Hd1 H1), H2, Hm2, Hd2, H3.
    unfold isoText. exact eq_refl.
  - intros Hy. destruct (shortYear_ok (y - 2000) ltac:(lia)) as (H1 & H2 & H3).
    rewrite (rowDate_slashes mt dt _ Hm1 Hd1 H1), H2, Hm2, Hd2, H3.
    replace (2000 + (y - 2000)) with y by lia.
    unfold isoText. exact eq_refl.
  - intros Hy. exact (parse_isoText y m d Hy Hv).
Qed.

Lemma slash_dates_are_read_as_calendar_dates_witness :
  rowDate "2/3/24" = Some (Some "2024-02-03").
Proof.
  apply (proj1 (proj2 (slash_dates_are_read_as_calendar_dates 2024 2 3 "2" "3"
                         ltac:(vm_compute; repeat split; discriminate)
                         ltac:(left; reflexivity) ltac:(left; reflexivity)))).
  lia.
Defined.

(** ** The estimate west of Greenwich *)

(** X9: the cycle-length estimate of a window with a valid start date is
    28 + (d - 14) kept within 21 and 35, where, in a time zone on or east of
    Greenwich, d is the day of the month of the start date, and, in a time
    zone west of Greenwich, d is the day of the month of the day before the
    start date; the offset is taken as constant. *)
Theorem cycle_estimate_by_time_zone (tz y m d : Z) (w : Window.t) :
  0 <= y <= 9999 -> validCivil y m d -> Window.startDate w = isoText y m d ->
  (0 <= tz < JsDate.msPerDay ->
     calculateCycleLength tz w = Some (clamp (28 + (d - 14)) 21 35)) /\
  (- JsDate.msPerDay < tz < 0 ->
     calculateCycleLength tz w = Some (clamp (28 + (snd (dayBefore y m d) - 14)) 21 35)).
Proof.
  intros Hy Hv Hs. unfold calculateCycleLength.
  rewrite Hs, (parse_isoText y m d Hy Hv).
  unfold JsDate.getDate, JsDate.LocalTime, JsDate.DateFromTime. cbn [option_map].
  split; intros Htz.
  - rewrite (Day_east _ _ Htz), (civilFromDays_daysFromCivil y m d Hv). reflexivity.
  - rewrite (Day_west _ _ Htz), (civilFromDays_dayBefore y m d Hv). reflexivity.
Qed.

Lemma cycle_estimate_by_time_zone_witness :
  calculateCycleLength Sample.utcMinus5 (Sample.window "2024-03" "2024-03-01" "2024-03-07")
  = Some 35.
Proof.
  apply (proj2 (cycle_estimate_by_time_zone Sample.utcMinus5 2024 3 1
                  (Sample.window "2024-03" "2024-03-01" "2024-03-07")
                  ltac:(lia) ltac:(vm_compute; repeat split; discriminate) eq_refl)).
  vm_compute. split; reflexivity.
Defined.

(** ** The analysis, run again *)

(** X24: running the analysis again on the component it left changes
    nothing. *)
Theorem analysis_run_again_changes_nothing (tz : Z) (c c' : Component) :
  analyzeFertileWindows tz c = Ok c' -> analyzeFertileWindows tz c' = Ok c'.
Proof.
  unfold analyzeFertileWindows.
  destruct (List.length (temperatures c) <? 14)%nat eqn:El.
  - intros H. injection H as <-. rewrite El. reflexivity.
  - destruct (findWindows (temperatures c)) as [windows|e] eqn:Ew; [|discriminate].
    cbn [bind temperatures fertileWindows prediction].
    destruct (2 <=? List.length windows)%nat eqn:E2.
    + destruct (predictNextFertileWindow tz windows) as [[p|]|e] eqn:Ep; try discriminate;
        cbn [bind]; intros H; injection H as <-;
        cbn [temperatures fertileWindows prediction];
        rewrite El, Ew; cbn [bind]; rewrite E2, Ep; reflexivity.
    + intros H. injection H as <-. cbn [temperatures fertileWindows prediction].
      rewrite El, Ew. cbn [bind]. rewrite E2. reflexivity.
Qed.

Lemma analysis_run_again_changes_nothing_witness :
  exists c',
    analyzeFertileWindows 0
      {| temperatures := Sample.twentyDays; fertileWindows := []; prediction := None |}
      = Ok c' /\
    analyzeFertileWindows 0 c' = Ok c'.
Proof.
  destruct (analyzeFertileWindows 0
              {| temperatures := Sample.twentyDays; fertileWindows := [];
                 prediction := None |}) as [c'|e] eqn:E; [|vm_compute in E; discriminate].
  exists c'. split; [reflexivity|].
  exact (analysis_run_again_changes_nothing 0 _ c' E).
Defined.

(** ** The days a window covers *)

Lemma dayNumber_parse (s : string) (t : Z) :
  JsDate.parse s = Some t ->
  exists z, t = z * JsDate.msPerDay /\ dayNumber s = Some z.
Proof.
  intros H. destruct (parse_midnight s t H) as [z ->]. exists z. split; [reflexivity|].
  unfold dayNumber. rewrite H. cbn [option_map]. rewrite Day_midnight. reflexivity.
Qed.

Lemma parse_injective (s1 s2 : string) (t : Z) :
  JsDate.parse s1 = Some t -> JsDate.parse s2 = Some t -> s1 = s2.
Proof.
  intros H1 H2. apply String.compare_eq_iff.
  rewrite (compare_dates s1 s2 t t H1 H2). apply Z.compare_refl.
Qed.

Lemma filter_dates_distinct (keep : Reading.t -> bool) (temps : list Reading.t) :
  NoDup (map Reading.date temps) -> NoDup (map Reading.date (filter keep temps)).
Proof.
  induction temps as [|t temps IH]; simpl; intros Hnd; [constructor|].
  inversion Hnd as [|? ? Hnew Hrest]; subst. destruct (keep t); simpl; [|auto].
  constructor; [|auto]. intros Hin. apply Hnew.
  apply in_map_iff in Hin as [y [E Hy]]. apply filter_In in Hy as [Hy _].
  rewrite <- E. apply in_map, Hy.
Qed.

(** In a list in date order with no date twice, the reading [k] places on
    is at least [k] days later. *)
Lemma days_apart (l : list Reading.t) (k i : nat) (a b : Reading.t) :
  StronglySorted notAfter l -> Forall validDate l -> NoDup (map Reading.date l) ->
  nth_error l i = Some a -> nth_error l (i + k) = Some b ->
  exists za zb, dayNumber (Reading.date a) = Some za /\ dayNumber (Reading.date b) = Some zb /\
    za + Z.of_nat k <= zb.
Proof.
  intros Hs Hv Hnd Ha. revert b. induction k as [|k IH]; intros b Hb.
  - rewrite Nat.add_0_r, Ha in Hb. injection Hb as <-.
    rewrite Forall_forall in Hv. pose proof (Hv a (nth_error_In _ _ Ha)) as Hva.
    unfold validDate in Hva. destruct (JsDate.parse (Reading.date a)) as [t|] eqn:E;
      [|congruence].
    destruct (dayNumber_parse _ _ E) as (z & _ & Hz). exists z, z. repeat split; auto. lia.
  - destruct (nth_error l (i + k)) as [c|] eqn:Hc.
    + destruct (IH c eq_refl) as (za & zc & Hza & Hzc & Hle).
      pose proof (sorted_nth notAfter l (i + k) (i + S k) c b Hs Hc Hb ltac:(lia)) as Hcb.
      unfold notAfter in Hcb.
      destruct (JsDate.parse (Reading.date c)) as [tc|] eqn:Ec; [|contradiction].
      destruct (JsDate.parse (Reading.date b)) as [tb|] eqn:Eb; [|contradiction].
      destruct (dayNumber_parse _ _ Ec) as (zc' & -> & Hzc').
      destruct (dayNumber_parse _ _ Eb) as (zb & -> & Hzb).
      rewrite Hzc in Hzc'. injection Hzc' as <-.
      exists za, zb. split; [exact Hza|]. split; [exact Hzb|].
      assert (Hne : zc <> zb).
      { intros ->. pose proof (parse_injective _ _ _ Ec Eb) as Edate.
        assert (Hi : (i + k)%nat = (i + S k)%nat).
        { apply (proj1 (NoDup_nth_error (map Reading.date l)) Hnd).
          - rewrite length_map. apply nth_error_Some. congruence.
          - rewrite !nth_error_map, Hc, Hb. simpl. congruence. }
        lia. }
      unfold JsDate.msPerDay in Hcb. lia.
    + apply nth_error_None in Hc.
      assert (Hb' : nth_error l (i + S k) <> None) by congruence.
      apply nth_error_Some in Hb'. lia.
Qed.

Lemma digitChar_injective (x y : Z) :
  0 <= x <= 9 -> 0 <= y <= 9 -> digitChar x = digitChar y -> x = y.
Proof.
  intros Hx Hy E. apply (f_equal JsDate.digit) in E.
  rewrite !digit_digitChar in E by assumption. congruence.
Qed.

(** Two valid dates of the same month are as many days apart as their days
    of the month. *)
Lemma same_month_days (s1 s2 : string) (z1 z2 : Z) :
  dayNumber s1 = Some z1 -> dayNumber s2 = Some z2 ->
  Str.substring0 7 s1 = Str.substring0 7 s2 -> - 30 <= z2 - z1 <= 30.
Proof.
  unfold dayNumber. intros H1 H2 Hk.
  destruct (JsDate.parse s1) as [t1|] eqn:E1; [|discriminate].
  destruct (JsDate.parse s2) as [t2|] eqn:E2; [|discriminate].
  cbn [option_map] in H1, H2. injection H1 as <-. injection H2 as <-.
  destruct (parse_digits s1 t1 E1)
    as (a & b & c & e & f & g & h & i & -> & Ry & Rm & Hv & ->).
  destruct (parse_digits s2 t2 E2)
    as (a' & b' & c' & e' & f' & g' & h' & i' & -> & Ry' & Rm' & Hv' & ->).
  rewrite !Day_midnight. cbn [Str.substring0 substring] in Hk.
  injection Hk as Ka Kb Kc Ke Kf Kg.
  apply digitChar_injective in Ka, Kb, Kc, Ke, Kf, Kg; try lia. subst.
  rewrite (daysFromCivil_day _ _ (10 * h + i)), (daysFromCivil_day _ _ (10 * h' + i')).
  destruct Hv as [_ Hd], Hv' as [_ Hd'].
  pose proof (daysInMonth_le_31 (1000 * a' + 100 * b' + 10 * c' + e') (10 * f' + g')). lia.
Qed.

(** X25: with valid dates in the store and no date twice, every window
    covers at least seven days of one calendar month: its end date is from
    6 to 30 days after its start date. *)
Theorem window_covers_seven_days_or_more
  (temps : list Reading.t) (windows : list Window.t) (w : Window.t) :
  Forall validDate temps -> NoDup (map Reading.date temps) ->
  findWindows temps = Ok windows -> In w windows ->
  exists ds de,
    dayNumber (Window.startDate w) = Some ds /\ dayNumber (Window.endDate w) = Some de /\
    ds + 6 <= de <= ds + 30.
Proof.
  intros Hv Hnd H Hw.
  destruct (In_window_month temps windows w H Hw)
    as (i & Hlen & (Hi & _ & Ht & _ & (first & Hf & Hs) & (last & Hl & He)) & _).
  pose proof (monthGroup_sorted (Window.month w) temps Hv) as Hsorted.
  assert (Hgroup : forall t, In t (monthGroup (Window.month w) temps) ->
                     In t temps /\ monthKeyOf t = Window.month w).
  { intros t Hin. unfold monthGroup in Hin.
    apply filter_In in Hin as [Hin Hm]. apply (proj1 (sort_In _ _ _)) in Hin.
    apply String.eqb_eq in Hm. auto. }
  assert (Hgv : Forall validDate (monthGroup (Window.month w) temps)).
  { apply Forall_forall. intros t Hin. rewrite Forall_forall in Hv.
    apply Hv, (Hgroup t Hin). }
  assert (Hgnd : NoDup (map Reading.date (monthGroup (Window.month w) temps))).
  { unfold monthGroup. apply filter_dates_distinct.
    eapply Permutation_NoDup; [|exact Hnd]. apply Permutation_map. symmetry.
    apply sort_perm. }
  destruct (days_apart _ 6 i first last Hsorted Hgv Hgnd Hf Hl) as (ds & de & Hds & Hde & Hle).
  exists ds, de. rewrite Hs, He. split; [exact Hds|]. split; [exact Hde|].
  split; [lia|].
  assert (Hk : Str.substring0 7 (Reading.date first) = Str.substring0 7 (Reading.date last)).
  { destruct (Hgroup first (nth_error_In _ _ Hf)) as [_ K1].
    destruct (Hgroup last (nth_error_In _ _ Hl)) as [_ K2].
    unfold monthKeyOf in K1, K2. congruence. }
  pose proof (same_month_days _ _ ds de Hds Hde Hk). lia.
Qed.

Lemma window_covers_seven_days_or_more_witness :
  exists w ds de,
    dayNumber (Window.startDate w) = Some ds /\ dayNumber (Window.endDate w) = Some de /\
    ds + 6 <= de <= ds + 30.
Proof.
  destruct (findWindows Sample.twentyDays) as [[|w windows]|e] eqn:E;
    try (vm_compute in E; discriminate).
  exists w.
  apply (window_covers_seven_days_or_more Sample.twentyDays (w :: windows) w).
  - valid_dates.
  - assert (E' : nodup string_dec (map Reading.date Sample.twentyDays)
                 = map Reading.date Sample.twentyDays) by (vm_compute; reflexivity).
    rewrite <- E'. apply NoDup_nodup.
  - exact E.
  - left. reflexivity.
Defined.

(** ** The windows in date order *)

Lemma compare_prefix_lt (n : nat) (s1 s2 : string) :
  String.compare (substring 0 n s1) (substring 0 n s2) = Lt -> String.compare s1 s2 = Lt.
Proof.
  revert s1 s2. induction n as [|n IH]; intros [|c1 s1] [|c2 s2]; simpl;
    try discriminate; try reflexivity.
  destruct (Ascii.compare c1 c2); try discriminate; [apply IH|reflexivity].
Qed.

Lemma sorted_impl_In {A} (R R' : A -> A -> Prop) (l : list A) :
  (forall a b, In a l -> In b l -> R a b -> R' a b) ->
  StronglySorted R l -> StronglySorted R' l.
Proof.
  intros Himp Hs. induction Hs as [|x l Hs IH Hx]; constructor.
  - apply IH. intros a b Ha Hb. apply Himp; right; assumption.
  - apply Forall_forall. intros y Hy. rewrite Forall_forall in Hx.
    apply Himp; [left; reflexivity|right; exact Hy|apply Hx, Hy].
Qed.

Lemma window_month_prefix (temps : list Reading.t) (windows : list Window.t) (w : Window.t) :
  findWindows temps = Ok windows -> In w windows ->
  Str.substring0 7 (Window.startDate w) = Window.month w /\
  Str.substring0 7 (Window.endDate w) = Window.month w.
Proof.
  intros H Hw.
  destruct (In_window_month temps windows w H Hw)
    as (i & _ & (_ & _ & _ & _ & (first & Hf & Hs) & (last & Hl & He)) & _).
  assert (Hgroup : forall t, In t (monthGroup (Window.month w) temps) ->
                     monthKeyOf t = Window.month w).
  { intros t Hin. unfold monthGroup in Hin. apply filter_In in Hin as [_ Hm].
    apply String.eqb_eq in Hm. exact Hm. }
  rewrite Hs, He. split; [apply (Hgroup first)|apply (Hgroup last)];
    eapply nth_error_In; eassumption.
Qed.

(** X12: with valid dates in the store, the windows the detector returns
    are in date order, one for a month at most: every window ends before
    the next one starts, so that the last two windows, from which the
    prediction is made, are the two latest. *)
Theorem windows_are_in_date_order (temps : list Reading.t) (windows : list Window.t) :
  Forall validDate temps -> findWindows temps = Ok windows ->
  NoDup (map Window.month windows) /\ StronglySorted endsBefore windows.
Proof.
  intros Hv H. pose proof (findWindows_monthsAscend temps windows H) as Hs.
  split; [exact (monthsAscend_NoDup windows Hs)|].
  pose proof (findWindows_validWindow temps windows Hv H) as Hvw.
  rewrite Forall_forall in Hvw.
  apply (sorted_impl_In _ endsBefore windows) in Hs; [exact Hs|].
  intros a b Ha Hb Hab. unfold strictlyBefore in Hab.
  destruct (window_month_prefix temps windows a H Ha) as [_ Ea].
  destruct (window_month_prefix temps windows b H Hb) as [Eb _].
  rewrite <- Ea, <- Eb in Hab. apply compare_prefix_lt in Hab.
  destruct (Hvw a Ha) as [_ Va]. destruct (Hvw b Hb) as [Vb _]. unfold endsBefore.
  destruct (JsDate.parse (Window.endDate a)) as [x|] eqn:Ex; [|congruence].
  destruct (JsDate.parse (Window.startDate b)) as [y|] eqn:Ey; [|congruence].
  rewrite (compare_dates _ _ _ _ Ex Ey) in Hab. apply Z.compare_lt_iff. exact Hab.
Qed.

Lemma windows_are_in_date_order_witness :
  exists windows,
    findWindows Sample.twentyDays = Ok windows /\ StronglySorted endsBefore windows.
Proof.
  destruct (findWindows Sample.twentyDays) as [windows|e] eqn:E;
    [|vm_compute in E; discriminate].
  exists windows. split; [reflexivity|].
  apply (windows_are_in_date_order Sample.twentyDays windows); [valid_dates|exact E].
Defined.

(** ** The lines and cells of an export *)



(** ** The analysis reads the store in its own order *)




(** ** The prediction reads the last two windows *)

Lemma lastTwo_app {A} (l : list A) (a b : A) : Arr.lastTwo (l ++ [a; b])%list = [a; b].
Proof.
  unfold Arr.lastTwo. rewrite length_app. simpl.
  replace (List.length l + 2 - 2)%nat with (List.length l + 0)%nat by lia.
  rewrite skipn_app, Nat.add_0_r, skipn_all.
  replace (List.length l - List.length l)%nat with 0%nat by lia. reflexivity.
Qed.

(** X28: the prediction depends on the last two windows only: whatever
    windows come before them, the outcome is that of the two alone. *)
Theorem prediction_reads_last_two_windows
  (tz : Z) (earlier : list Window.t) (w0 w1 : Window.t) :
  predictNextFertileWindow tz (earlier ++ [w0; w1])%list
  = predictNextFertileWindow tz [w0; w1].
Proof.
  unfold predictNextFertileWindow. rewrite lastTwo_app.
  destruct (Nat.ltb_spec (List.length (earlier ++ [w0; w1])%list) 2) as [H|H].
  - rewrite length_app in H. simpl in H. lia.
  - reflexivity.
Qed.
